(** * Clinical trial matcher: scoring, ranking and validation

    A shallow embedding of [matching.py], [evaluate_fp_fn.py],
    [validation_improved.py] and the coverage report of
    [metrics_corrected.py].  Rows of the patient and trial tables are
    finite maps from column names to Python values, exceptions are the
    error branch of a result monad, and the library calls whose behaviour
    is not fixed by the program (the literal parser, [int] on strings, the
    [repr] of a list, the iteration order of a set, the random generators)
    are fields of a runtime interface, so every statement holds for each of
    their behaviours. *)

From Stdlib Require Import ZArith List String Ascii Lia Lqa QArith DecimalString.
From stdpp Require Import gmap strings list fin_maps sorting.

Open Scope string_scope.
Open Scope list_scope.

(** ** Python values, exceptions and primitives *)

Module Py.

Inductive exn := KeyError | ValueError | TypeError | IndexError | AttributeError.

Inductive result (A : Type) :=
| Ok (a : A)
| Raise (e : exn).
Arguments Ok {A} a.
Arguments Raise {A} e.

#[export] Instance result_ret : MRet result := fun A a => Ok a.
#[export] Instance result_bind : MBind result := fun A B f m =>
  match m with
  | Ok a => f a
  | Raise e => Raise e
  end.

#[export] Instance result_fmap : FMap result := fun A B f m =>
  match m with
  | Ok a => Ok (f a)
  | Raise e => Raise e
  end.

Definition returns {A} (m : result A) : Prop := ∃ a, m = Ok a.

(** The elements of a list: [None], an integer, a string, or a list
    again. *)
#[warnings="-register-all"] Inductive item :=
| INone
| IInt (n : Z)
| IStr (s : string)
| IList (xs : list item).

Fixpoint item_encode (x : item) : gen_tree (Z + string) :=
  match x with
  | INone => GenNode 0 []
  | IInt n => GenLeaf (inl n)
  | IStr s => GenLeaf (inr s)
  | IList xs => GenNode 1 (map item_encode xs)
  end.

Fixpoint item_decode (t : gen_tree (Z + string)) : item :=
  match t with
  | GenLeaf (inl n) => IInt n
  | GenLeaf (inr s) => IStr s
  | GenNode 0 _ => INone
  | GenNode _ ts => IList (map item_decode ts)
  end.

(** Equality of elements is decided on their codes, from which an element
    is read back. *)
#[export] Instance item_eq_dec : EqDecision item.
Proof.
  assert (∀ x, item_decode (item_encode x) = x) as Hinv.
  { fix IH 1. intros [|n|s|xs]; simpl; try done.
    f_equal. induction xs as [|x xs IHxs]; simpl; [done|]. by rewrite IH, IHxs. }
  intros x y. destruct (decide (item_encode x = item_encode y)) as [H|H].
  - left. by rewrite <- (Hinv x), <- (Hinv y), H.
  - right. by intros ->.
Defined.

#[export] Instance item_countable : Countable item.
Proof.
  refine (inj_countable' item_encode item_decode _).
  fix IH 1. intros [|n|s|xs]; simpl; try done.
  f_equal. induction xs as [|x xs IHxs]; simpl; [done|]. by rewrite IH, IHxs.
Defined.

(** The values a table cell, a JSON field or a parsed literal can hold:
    [None], the float NaN that pandas puts in an empty cell, an integer, a
    string and a list.  Strings are byte strings; case mapping acts on the
    ASCII letters. *)
Inductive pyval :=
| VNone
| VNaN
| VInt (n : Z)
| VStr (s : string)
| VList (xs : list item).

#[export] Instance pyval_eq_dec : EqDecision pyval.
Proof. solve_decision. Defined.

#[export] Instance pyval_countable : Countable pyval.
Proof.
  refine (inj_countable'
            (λ v, match v with
                  | VNone => inl ()
                  | VNaN => inr (inl ())
                  | VInt n => inr (inr (inl n))
                  | VStr s => inr (inr (inr (inl s)))
                  | VList xs => inr (inr (inr (inr xs)))
                  end)
            (λ x, match x with
                  | inl _ => VNone
                  | inr (inl _) => VNaN
                  | inr (inr (inl n)) => VInt n
                  | inr (inr (inr (inl s))) => VStr s
                  | inr (inr (inr (inr xs))) => VList xs
                  end) _).
  by intros [].
Defined.

(** Lists cannot be hashed, so they are neither set elements nor dictionary
    keys.  As a key, NaN is the one object [numpy.nan]. *)
Definition hashable (v : pyval) : bool :=
  match v with
  | VList _ => false
  | _ => true
  end.

Definition item_hashable (x : item) : bool :=
  match x with
  | IList _ => false
  | _ => true
  end.

Definition is_str (x : item) : bool :=
  match x with
  | IStr _ => true
  | _ => false
  end.

(** [a == b]; NaN differs from itself. *)
Definition py_eq (a b : pyval) : bool :=
  match a, b with
  | VNaN, _ | _, VNaN => false
  | _, _ => bool_decide (a = b)
  end.

(** The format of an integer in an f-string or under [str]. *)
Definition str_of_int (n : Z) : string := NilZero.string_of_int (Z.to_int n).

Definition str_of_nat (n : nat) : string := str_of_int (Z.of_nat n).

Definition ascii_upper (c : ascii) : ascii :=
  let n := nat_of_ascii c in
  if (97 <=? n)%nat && (n <=? 122)%nat then ascii_of_nat (n - 32) else c.

Definition ascii_lower (c : ascii) : ascii :=
  let n := nat_of_ascii c in
  if (65 <=? n)%nat && (n <=? 90)%nat then ascii_of_nat (n + 32) else c.

Fixpoint str_map (f : ascii → ascii) (s : string) : string :=
  match s with
  | EmptyString => EmptyString
  | String c s' => String (f c) (str_map f s')
  end.

(** [s.upper()] and [s.lower()] on ASCII text.  A byte outside the ASCII
    letters is left as it is, so text with letters outside ASCII, which
    Python maps by code point, is not covered. *)
Definition upper : string → string := str_map ascii_upper.
Definition lower : string → string := str_map ascii_lower.

(** [sep.join(xs)] on strings. *)
Fixpoint join (sep : string) (xs : list string) : string :=
  match xs with
  | [] => ""
  | [x] => x
  | x :: xs' => x +:+ sep +:+ join sep xs'
  end.

(** [sep.join(xs)] on the elements of a list: a [TypeError] unless each
    is a string. *)
Definition item_str (x : item) : result string :=
  match x with
  | IStr s => Ok s
  | _ => Raise TypeError
  end.

Definition py_join (sep : string) (xs : list item) : result string :=
  join sep <$> mapM item_str xs.

(** [s[:n]] for [0 <= n]. *)
Fixpoint str_take (n : nat) (s : string) : string :=
  match n, s with
  | S n', String c s' => String c (str_take n' s')
  | _, _ => ""
  end.

(** The characters of a string, each as a one-character string. *)
Fixpoint chars (s : string) : list string :=
  match s with
  | EmptyString => []
  | String c s' => String c "" :: chars s'
  end.

(** Truth value of an object in [if] and [and]. *)
Definition truthy (v : pyval) : bool :=
  match v with
  | VNone => false
  | VNaN => true
  | VInt n => negb (n =? 0)%Z
  | VStr s => negb (String.eqb s "")
  | VList xs => negb (bool_decide (xs = []))
  end.

(** [a <= b] on the elements of a list.  On two lists the first pair of
    elements that differ decides, and may not be comparable; without such
    a pair the shorter list is the smaller. *)
Fixpoint item_le (a b : item) : result bool :=
  match a, b with
  | IInt x, IInt y => Ok (x <=? y)%Z
  | IStr x, IStr y => Ok (String.leb x y)
  | IList xs, IList ys =>
      (fix go (xs ys : list item) : result bool :=
         match xs, ys with
         | [], _ => Ok true
         | _ :: _, [] => Ok false
         | x :: xs', y :: ys' =>
             if bool_decide (x = y) then go xs' ys' else item_le x y
         end) xs ys
  | _, _ => Raise TypeError
  end.

(** [a <= b] on objects. *)
Definition py_le (a b : pyval) : result bool :=
  match a, b with
  | VInt x, VInt y => Ok (x <=? y)%Z
  | VNaN, VInt _ | VInt _, VNaN | VNaN, VNaN => Ok false
  | VStr x, VStr y => Ok (String.leb x y)
  | VList x, VList y => item_le (IList x) (IList y)
  | _, _ => Raise TypeError
  end.

(** [v.upper()]: only strings have the method. *)
Definition py_upper (v : pyval) : result string :=
  match v with
  | VStr s => Ok (upper s)
  | _ => Raise AttributeError
  end.

(** [v[0].lower()]: of the elements of a list only strings have the
    method. *)
Definition first_lower (v : pyval) : result string :=
  match v with
  | VList (IStr x :: _) => Ok (lower x)
  | VList (_ :: _) => Raise AttributeError
  | VList [] => Raise IndexError
  | VStr (String c _) => Ok (lower (String c ""))
  | VStr EmptyString => Raise IndexError
  | VNone | VNaN | VInt _ => Raise TypeError
  end.

(** [set(v)]: the elements of a list, which must all be hashable, or the
    characters of a string. *)
Definition py_set (v : pyval) : result (gset item) :=
  match v with
  | VList xs => if forallb item_hashable xs then Ok (list_to_set xs) else Raise TypeError
  | VStr s => Ok (list_to_set (IStr <$> chars s))
  | VNone | VNaN | VInt _ => Raise TypeError
  end.

(** A row of a table (a pandas [Series]) or a record (a [dict]). *)
Abbreviation row := (gmap string pyval).

(** [r[key]] *)
Definition getitem (r : row) (key : string) : result pyval :=
  match r !! key with
  | Some v => Ok v
  | None => Raise KeyError
  end.

(** [r.get(key, default)] *)
Definition get (r : row) (key : string) (default : pyval) : pyval :=
  match r !! key with
  | Some v => v
  | None => default
  end.

(** [xs[:k]] for an integer [k] of either sign. *)
Definition slice_to {A} (k : Z) (xs : list A) : list A :=
  if (0 <=? k)%Z then take (Z.to_nat k) xs
  else take (length xs - Z.to_nat (- k)) xs.

(** The library functions the program calls and does not define.
    [literal_eval s] is [None] when [ast.literal_eval] raises;
    [int_of_str s] is [None] when [int(s)] raises; [repr_list] is the
    [repr] of a list; [set_iter] is the order in which a set is iterated,
    which varies with the hash seed of the process and yields each element
    once. *)
Class Runtime := {
  literal_eval : string → option pyval;
  int_of_str : string → option Z;
  repr_list : list item → string;
  set_iter : ∀ (A : Type) `{Countable A}, gset A → list A;
  set_iter_elements : ∀ (A : Type) `{Countable A} (s : gset A), set_iter A s ≡ₚ elements s
}.
Arguments set_iter {_ _ _ _} _.
Arguments set_iter_elements {_ _ _ _} _.

(** The random generators.  [rng] is the state of the [random] module,
    which [seed] fixes; [sample g population k] is
    [random.sample(population, k)] for [0 <= k <= len(population)].
    [np_state] is the state of the global generator of numpy, from which
    [DataFrame.sample(n)] draws; the program never seeds it. *)
Class Random := {
  rng : Type;
  seed : Z → rng;
  sample : ∀ (A : Type), rng → list A → nat → list A * rng;
  np_state : Type;
  df_sample : np_state → list (gmap string pyval) → nat → list (gmap string pyval) * np_state
}.
Arguments sample {_ _} _ _ _.

Section WithRuntime.
Context {rt : Runtime}.

(** [int(v)] *)
Definition py_int (v : pyval) : result Z :=
  match v with
  | VInt n => Ok n
  | VNaN => Raise ValueError
  | VStr s => match int_of_str s with Some n => Ok n | None => Raise ValueError end
  | VNone | VList _ => Raise TypeError
  end.

(** [str(v)] *)
Definition py_str (v : pyval) : string :=
  match v with
  | VNone => "None"
  | VNaN => "nan"
  | VInt n => str_of_int n
  | VStr s => s
  | VList xs => repr_list xs
  end.

End WithRuntime.

End Py.
Import Py.

(** ** [difflib.SequenceMatcher(None, a, b).ratio()]

    The matcher of the standard library with no junk predicate and the
    automatic junk heuristic left on, over the characters of two strings. *)

Module Difflib.

(** The positions of [elt] in [b], ascending, counted from [i]. *)
Fixpoint positions (elt : ascii) (b : list ascii) (i : nat) : list nat :=
  match b with
  | [] => []
  | c :: b' =>
      if Ascii.eqb c elt then i :: positions elt b' (S i) else positions elt b' (S i)
  end.

(** With 200 elements or more, an element that fills more than one
    position in a hundred, plus one, is popular and leaves [b2j]. *)
Definition popular (b : list ascii) (elt : ascii) : bool :=
  (200 <=? length b)%nat && (length b / 100 + 1 <? length (positions elt b 0))%nat.

Definition b2j (b : list ascii) (elt : ascii) : list nat :=
  if popular b elt then [] else positions elt b 0.

(** [j2len.get(j - 1, 0)]; the key [-1] is never present. *)
Definition j2lenget (j2len : gmap nat nat) (j : nat) : nat :=
  match j with
  | O => 0
  | S j' => default 0 (j2len !! j')
  end.

Definition same (a b : list ascii) (i j : nat) : bool :=
  match a !! i, b !! j with
  | Some x, Some y => Ascii.eqb x y
  | _, _ => false
  end.

(** The inner loop of [find_longest_match] for one [i]: [continue] below
    [blo], [break] from [bhi] on. *)
Fixpoint scan_row (blo bhi i : nat) (j2len : gmap nat nat) (js : list nat)
    (newj2len : gmap nat nat) (best : nat * nat * nat)
    : gmap nat nat * (nat * nat * nat) :=
  match js with
  | [] => (newj2len, best)
  | j :: js' =>
      if (j <? blo)%nat then scan_row blo bhi i j2len js' newj2len best
      else if (bhi <=? j)%nat then (newj2len, best)
      else
        let k := (j2lenget j2len j + 1)%nat in
        let newj2len := <[j := k]> newj2len in
        let best := if (best.2 <? k)%nat then ((i + 1 - k)%nat, (j + 1 - k)%nat, k) else best in
        scan_row blo bhi i j2len js' newj2len best
  end.

(** The outer loop over [range(alo, ahi)]. *)
Fixpoint scan_rows (a b : list ascii) (blo bhi : nat) (rows : list nat)
    (j2len : gmap nat nat) (best : nat * nat * nat) : nat * nat * nat :=
  match rows with
  | [] => best
  | i :: rows' =>
      let js := match a !! i with Some c => b2j b c | None => [] end in
      let '(newj2len, best) := scan_row blo bhi i j2len js ∅ best in
      scan_rows a b blo bhi rows' newj2len best
  end.

(** First extension loop: grow the block to the left. *)
Fixpoint extend_left (a b : list ascii) (alo blo besti bestj bestsize : nat)
    {struct besti} : nat * nat * nat :=
  match besti, bestj with
  | S i', S j' =>
      if (alo <? besti)%nat && (blo <? bestj)%nat && same a b i' j'
      then extend_left a b alo blo i' j' (S bestsize)
      else (besti, bestj, bestsize)
  | _, _ => (besti, bestj, bestsize)
  end.

(** Second extension loop: grow the block to the right.  Each turn adds
    one to [bestsize], so [ahi - (besti + bestsize)] turns suffice. *)
Fixpoint extend_right (a b : list ascii) (ahi bhi besti bestj bestsize fuel : nat)
    : nat :=
  match fuel with
  | O => bestsize
  | S fuel' =>
      if (besti + bestsize <? ahi)%nat && (bestj + bestsize <? bhi)%nat
         && same a b (besti + bestsize) (bestj + bestsize)
      then extend_right a b ahi bhi besti bestj (S bestsize) fuel'
      else bestsize
  end.

(** [find_longest_match(alo, ahi, blo, bhi)].  The junk set is empty, so
    the two loops that extend over junk never run. *)
Definition find_longest_match (a b : list ascii) (alo ahi blo bhi : nat)
    : nat * nat * nat :=
  let best := scan_rows a b blo bhi (seq alo (ahi - alo)) ∅ (alo, blo, 0%nat) in
  let '(besti, bestj, bestsize) := best in
  let '(besti, bestj, bestsize) := extend_left a b alo blo besti bestj bestsize in
  let bestsize :=
    extend_right a b ahi bhi besti bestj bestsize (ahi - (besti + bestsize)) in
  (besti, bestj, bestsize).

(** [get_matching_blocks()] without its closing sentinel of size 0 and
    with adjacent blocks left unmerged, neither of which changes the sum of
    the sizes.  The source keeps a work list of ranges and sorts the blocks
    at the end; the recursion visits the same ranges and lists the blocks in
    sorted order.  The range in [a] shrinks at each call, which bounds the
    depth. *)
Fixpoint matching_blocks (fuel : nat) (a b : list ascii) (alo ahi blo bhi : nat)
    : list (nat * nat * nat) :=
  match fuel with
  | O => []
  | S fuel' =>
      let '(i, j, k) := find_longest_match a b alo ahi blo bhi in
      if (k =? 0)%nat then []
      else
        (if (alo <? i)%nat && (blo <? j)%nat
         then matching_blocks fuel' a b alo i blo j else [])
        ++ (i, j, k) ::
        (if (i + k <? ahi)%nat && (j + k <? bhi)%nat
         then matching_blocks fuel' a b (i + k) ahi (j + k) bhi else [])
  end.

Definition get_matching_blocks (a b : list ascii) : list (nat * nat * nat) :=
  matching_blocks (S (length a)) a b 0 (length a) 0 (length b).

(** [sum(triple[-1] for triple in self.get_matching_blocks())] *)
Definition total_size (blocks : list (nat * nat * nat)) : nat :=
  foldr (λ x acc, (x.2 + acc)%nat) 0%nat blocks.

Definition matches (a b : list ascii) : nat := total_size (get_matching_blocks a b).

(** [ratio()]: [2.0 * matches / length], and 1.0 for two empty strings.
    The quotient is kept exact. *)
Definition ratio (s1 s2 : string) : Q :=
  let a := list_ascii_of_string s1 in
  let b := list_ascii_of_string s2 in
  let len := (length a + length b)%nat in
  if (len =? 0)%nat then 1%Q
  else (2 * inject_Z (Z.of_nat (matches a b)) / inject_Z (Z.of_nat len))%Q.

(** A block [(i, j, k)] lies inside the window [a[alo:ahi]], [b[blo:bhi]]. *)
Definition in_window (alo ahi blo bhi : nat) (m : nat * nat * nat) : Prop :=
  (alo ≤ m.1.1 ∧ m.1.1 + m.2 ≤ ahi ∧ blo ≤ m.1.2 ∧ m.1.2 + m.2 ≤ bhi)%nat.

(** The lengths recorded for one row are bounded by the distance to the
    lower ends of the window. *)
Definition row_bounded (blo bhi n : nat) (j2len : gmap nat nat) : Prop :=
  ∀ j k, j2len !! j = Some k → (k ≤ n ∧ k ≤ j + 1 - blo ∧ blo ≤ j ∧ j < bhi)%nat.

End Difflib.

(** ** [matching.py] *)

(** A match dictionary: the value [match_patient_to_trials] builds for a
    trial that clears the threshold, and an entry of [matches.json]. *)
Record Match := {
  nct_id : pyval;
  title : pyval;
  condition : pyval;
  score : Z;
  reasons : list string
}.

(** [int(x)] on a non-negative float: truncation. *)
Definition int_of_Q (x : Q) : Z := Z.quot (Qnum x) (Zpos (Qden x)).

Section Matching.
Context {rt : Runtime}.

(** The same function is defined in [matching.py], [evaluate_fp_fn.py] and
    [validation_improved.py]. *)
Definition safe_eval_list (value : pyval) : pyval :=
  match value with
  | VList _ => value
  | VStr s =>
      match literal_eval s with
      | Some v => v
      | None => VList []
      end
  | _ => VList []
  end.

(** 1. Age match (20 points). *)
Definition age_match (patient_age trial_age_min trial_age_max : Z) : Z * list string :=
  if (trial_age_min <=? patient_age)%Z && (patient_age <=? trial_age_max)%Z
  then (20%Z, ["✓ Age " +:+ str_of_int patient_age +:+ " within range ("
                 +:+ str_of_int trial_age_min +:+ "-" +:+ str_of_int trial_age_max +:+ ")"])
  else (0%Z, ["✗ Age " +:+ str_of_int patient_age +:+ " outside range ("
                +:+ str_of_int trial_age_min +:+ "-" +:+ str_of_int trial_age_max +:+ ")"]).

(** 2. Gender match (10 points). *)
Definition gender_match (patient_gender trial_gender : string) : Z * list string :=
  if String.eqb trial_gender "ALL" || String.eqb trial_gender patient_gender
  then (10%Z, ["✓ Gender matches (" +:+ trial_gender +:+ ")"])
  else (0%Z, ["✗ Gender mismatch (requires " +:+ trial_gender +:+ ")"]).

(** 3. Condition keyword overlap (50 points max). *)
Definition keyword_match (patient_keywords trial_keywords : gset item)
    : result (Z * list string) :=
  if bool_decide (patient_keywords ≠ ∅) && bool_decide (trial_keywords ≠ ∅) then
    let overlap := patient_keywords ∩ trial_keywords in
    let keyword_score := Z.min (Z.of_nat (size overlap) * 10) 50 in
    if (0 <? keyword_score)%Z then
      let overlap_sample := take 3 (set_iter overlap) in
      joined ← py_join ", " overlap_sample;
      Ok (keyword_score,
          ["✓ " +:+ str_of_nat (size overlap) +:+ " matching keywords: " +:+ joined])
    else Ok (keyword_score, [])
  else Ok (0%Z, []).

(** 4. Primary condition similarity (20 points). *)
Definition condition_match (patient_conditions : pyval) (trial_condition : string)
    : result (Z * list string) :=
  if truthy patient_conditions && negb (String.eqb trial_condition "") then
    primary_condition ← first_lower patient_conditions;
    let similarity := Difflib.ratio primary_condition trial_condition in
    let condition_score := int_of_Q (similarity * 20) in
    if (5 <? condition_score)%Z then
      Ok (condition_score,
          ["✓ Primary condition '" +:+ str_take 30 primary_condition
             +:+ "...' similar to trial condition"])
    else Ok (condition_score, [])
  else Ok (0%Z, []).

(** The four numbered sections of [calculate_match_score]: each reads its
    fields and yields the points it adds to [score] and the reasons it
    appends. *)
Definition age_component (patient trial : row) : result (Z * list string) :=
  patient_age ← getitem patient "age" ≫= py_int;
  trial_age_min ← getitem trial "age_min" ≫= py_int;
  trial_age_max ← getitem trial "age_max" ≫= py_int;
  Ok (age_match patient_age trial_age_min trial_age_max).

Definition gender_component (patient trial : row) : result (Z * list string) :=
  patient_gender ← (λ v, upper (py_str v)) <$> getitem patient "gender";
  trial_gender ← (λ v, upper (py_str v)) <$> getitem trial "gender";
  Ok (gender_match patient_gender trial_gender).

Definition keyword_component (patient trial : row) : result (Z * list string) :=
  patient_keywords ← getitem patient "condition_keywords" ≫= (λ v, py_set (safe_eval_list v));
  trial_keywords ← getitem trial "keywords" ≫= (λ v, py_set (safe_eval_list v));
  keyword_match patient_keywords trial_keywords.

Definition condition_component (patient trial : row) : result (Z * list string) :=
  patient_conditions ← safe_eval_list <$> getitem patient "conditions";
  trial_condition ← (λ v, lower (py_str v)) <$> getitem trial "condition";
  condition_match patient_conditions trial_condition.

Definition calculate_match_score (patient trial : row) : result (Z * list string) :=
  let score := 0%Z in
  let reasons := [] in
  '(age_score, age_reasons) ← age_component patient trial;
  let score := (score + age_score)%Z in
  let reasons := (reasons ++ age_reasons)%list in
  '(gender_score, gender_reasons) ← gender_component patient trial;
  let score := (score + gender_score)%Z in
  let reasons := (reasons ++ gender_reasons)%list in
  '(keyword_score, keyword_reasons) ← keyword_component patient trial;
  let score := (score + keyword_score)%Z in
  let reasons := (reasons ++ keyword_reasons)%list in
  '(condition_score, condition_reasons) ← condition_component patient trial;
  let score := (score + condition_score)%Z in
  let reasons := (reasons ++ condition_reasons)%list in
  Ok (score, reasons).

(** The loop of [match_patient_to_trials] over [trials_df.iterrows()]. *)
Fixpoint score_trials (patient : row) (trials_df : list row) (min_score : Z)
    : result (list Match) :=
  match trials_df with
  | [] => Ok []
  | trial :: rest =>
      '(score, reasons) ← calculate_match_score patient trial;
      if (min_score <=? score)%Z then
        nct_id ← getitem trial "nct_id";
        title ← getitem trial "title";
        condition ← getitem trial "condition";
        matches ← score_trials patient rest min_score;
        Ok ({| nct_id := nct_id; title := title; condition := condition;
               score := score; reasons := reasons |} :: matches)
      else score_trials patient rest min_score
  end.

(** [sorted(matches, key=lambda x: x["score"], reverse=True)]: the sort of
    the standard library is stable, and with [reverse=True] elements with
    equal keys still keep their original order.  A stable insertion sort
    returns the same list. *)
Fixpoint insert_by_score (m : Match) (ms : list Match) : list Match :=
  match ms with
  | [] => [m]
  | m' :: ms' =>
      if (score m' <=? score m)%Z then m :: ms else m' :: insert_by_score m ms'
  end.

Definition sorted_by_score (matches : list Match) : list Match :=
  foldr insert_by_score [] matches.

Definition match_patient_to_trials (patient : row) (trials_df : list row)
    (top_k : Z) (min_score : Z) : result (list Match) :=
  matches ← score_trials patient trials_df min_score;
  let matches := sorted_by_score matches in
  Ok (slice_to top_k matches).

(** [m] is the dictionary that the loop appends for [trial]. *)
Definition listed (patient : row) (min_score : Z) (trial : row) (m : Match) : Prop :=
  calculate_match_score patient trial = Ok (score m, reasons m)
  ∧ (min_score ≤ score m)%Z
  ∧ trial !! "nct_id" = Some (nct_id m)
  ∧ trial !! "title" = Some (title m)
  ∧ trial !! "condition" = Some (condition m).

(** Descending by score. *)
Definition by_score_desc (m1 m2 : Match) : Prop := (score m2 ≤ score m1)%Z.

(** The results with score [s], in the order of the list. *)
Definition with_score (s : Z) (ms : list Match) : list Match :=
  filter (λ m, score m = s) ms.

End Matching.

(** ** Tables and the persisted matches *)

(** A column of a table: [df[key]], a [KeyError] without the column. *)
Definition column (df : list row) (key : string) : result (list pyval) :=
  mapM (λ r, getitem r key) df.

(** [df[df[key] == v].iloc[0]]: the first row whose cell equals [v]. *)
Definition df_first (df : list row) (key : string) (v : pyval) : result row :=
  _ ← column df key;
  match List.find (λ r, match r !! key with Some x => py_eq x v | None => false end) df with
  | Some r => Ok r
  | None => Raise IndexError
  end.

(** [matches.json]: a dictionary from patient ids to lists of match
    dictionaries, in the order of the file. *)
Abbreviation MatchSet := (list (string * list Match)).

(** [all_matches[patient_id]] *)
Definition matches_of (all_matches : MatchSet) (patient_id : string) : result (list Match) :=
  match List.find (λ e, String.eqb e.1 patient_id) all_matches with
  | Some e => Ok e.2
  | None => Raise KeyError
  end.

(** [d[k] = v] on a dictionary kept in insertion order. *)
Fixpoint dict_set (k : pyval) (v : Z) (d : list (pyval * Z)) : list (pyval * Z) :=
  match d with
  | [] => [(k, v)]
  | (k', v') :: d' => if decide (k = k') then (k, v) :: d' else (k', v') :: dict_set k v d'
  end.

(** [set(xs)] on a list of cells. *)
Definition set_of_cells (xs : list pyval) : result (gset pyval) :=
  if forallb hashable xs then Ok (list_to_set xs) else Raise TypeError.

(** ** [evaluate_fp_fn.py] *)

Record FpExample := {
  fp_patient_id : string;
  fp_patient_age : pyval;
  fp_patient_gender : pyval;
  fp_trial_nct : pyval;
  fp_trial_age_range : string;
  fp_trial_gender : pyval;
  fp_score : Z;
  fp_reason : string
}.

Record FnExample := {
  fn_patient_id : string;
  fn_trial_nct : pyval;
  fn_score : Z;
  fn_reason : string
}.

(** The counters and example lists that the evaluation loop updates. *)
Record Counters := {
  true_positives : nat;
  false_positives : nat;
  true_negatives : nat;
  false_negatives : nat;
  fp_examples : list FpExample;
  fn_examples : list FnExample
}.

(** The metrics derived from the counters.  The floats of the source are
    kept as exact quotients. *)
Record Metrics := {
  total : nat;
  precision : Q;
  recall : Q;
  f1_score : Q;
  accuracy : Q;
  fpr : Q;
  fnr : Q
}.

Definition Qnat (n : nat) : Q := inject_Z (Z.of_nat n).

(** The classifications counted so far. *)
Definition classified (c : Counters) : nat :=
  (true_positives c + false_positives c + true_negatives c + false_negatives c)%nat.

(** A value of the interval from 0 to 1. *)
Definition in_unit (q : Q) : Prop := (0 <= q)%Q ∧ (q <= 1)%Q.

Section Evaluate.
Context {rt : Runtime} {rnd : Random}.

(** [random.sample(population, k)], a [ValueError] when [k] is negative
    or exceeds the population. *)
Definition random_sample {A} (g : rng) (population : list A) (k : Z)
    : result (list A * rng) :=
  if (k <? 0)%Z || (Z.of_nat (length population) <? k)%Z then Raise ValueError
  else Ok (sample g population (Z.to_nat k)).

(** [trial["age_min"] <= patient["age"] <= trial["age_max"]]: the second
    comparison is evaluated only when the first holds. *)
Definition age_in_range (patient trial : row) : result bool :=
  age_min ← getitem trial "age_min";
  age ← getitem patient "age";
  low ← py_le age_min age;
  if low : bool then
    age_max ← getitem trial "age_max";
    py_le age age_max
  else Ok false.

(** [trial["gender"] == "ALL" or
     trial["gender"].upper() == patient["gender"].upper()] *)
Definition gender_accepts (patient trial : row) : result bool :=
  trial_gender ← getitem trial "gender";
  if py_eq trial_gender (VStr "ALL") then Ok true
  else
    t ← getitem trial "gender" ≫= py_upper;
    p ← getitem patient "gender" ≫= py_upper;
    Ok (String.eqb t p).

(** The keyword overlap as the validators compute it, with [.get] and an
    empty list for a missing key. *)
Definition keyword_overlap (patient trial : row) : result (gset item) :=
  patient_keywords ← py_set (safe_eval_list (get patient "condition_keywords" (VList [])));
  trial_keywords ← py_set (safe_eval_list (get trial "keywords" (VList [])));
  Ok (patient_keywords ∩ trial_keywords).

Definition is_valid_match (patient trial : row) (score : Z) (strict : bool) : result bool :=
  age_valid ← age_in_range patient trial;
  gender_valid ← gender_accepts patient trial;
  let score_valid := ((if strict then 60 else 50) <=? score)%Z in
  keyword_valid ←
    (if strict then
       keyword_overlap ← keyword_overlap patient trial;
       Ok (2 <=? size keyword_overlap)%nat
     else Ok true);
  Ok (age_valid && gender_valid && score_valid && keyword_valid).

(** [trial["gender"] != "ALL" and
     trial["gender"].upper() != patient["gender"].upper()] *)
Definition gender_mismatch (patient trial : row) : result bool :=
  trial_gender ← getitem trial "gender";
  if negb (py_eq trial_gender (VStr "ALL")) then
    t ← getitem trial "gender" ≫= py_upper;
    p ← getitem patient "gender" ≫= py_upper;
    Ok (negb (String.eqb t p))
  else Ok false.

Definition get_fp_reason (patient trial : row) (score : Z) (strict : bool) : result string :=
  let reasons := [] in
  in_range ← age_in_range patient trial;
  let reasons := if negb in_range then (reasons ++ ["Age mismatch"])%list else reasons in
  mismatch ← gender_mismatch patient trial;
  let reasons := if mismatch : bool then (reasons ++ ["Gender mismatch"])%list else reasons in
  let reasons :=
    if strict && (score <? 60)%Z
    then (reasons ++ ["Score " +:+ str_of_int score +:+ " below strict threshold (60)"])%list
    else if negb strict && (score <? 50)%Z
    then (reasons ++ ["Score " +:+ str_of_int score +:+ " below lenient threshold (50)"])%list
    else reasons in
  reasons ←
    (if strict then
       overlap ← keyword_overlap patient trial;
       if (size overlap <? 2)%nat
       then Ok (reasons ++ ["Only " +:+ str_of_nat (size overlap) +:+ " keyword match(es)"])%list
       else Ok reasons
     else Ok reasons);
  Ok (if bool_decide (reasons ≠ []) then join "; " reasons else "Unknown").

(** [{m["nct_id"]: m["score"] for m in matches if m["score"] >= threshold}] *)
Fixpoint recommended_dict (threshold : Z) (matches : list Match) (d : list (pyval * Z))
    : result (list (pyval * Z)) :=
  match matches with
  | [] => Ok d
  | m :: rest =>
      if (threshold <=? score m)%Z then
        if hashable (nct_id m)
        then recommended_dict threshold rest (dict_set (nct_id m) (score m) d)
        else Raise TypeError
      else recommended_dict threshold rest d
  end.

(** The first half of the loop body: the recommended trials with their
    cached scores and the sample of trials that were not recommended. *)
Definition select_trials (trials_df : list row) (matches : list Match) (threshold : Z)
    (g : rng) : result (list (pyval * Z) * list pyval * rng) :=
  recommended_trials ← recommended_dict threshold matches [];
  all_trial_ids ← column trials_df "nct_id" ≫= set_of_cells;
  let recommended_ids : gset pyval := list_to_set (recommended_trials.*1) in
  let not_recommended_ids := all_trial_ids ∖ recommended_ids in
  '(sample_not_recommended, g) ←
    random_sample g (set_iter not_recommended_ids)
      (Z.min 10 (Z.of_nat (size not_recommended_ids)));
  Ok (recommended_trials, sample_not_recommended, g).

(** The loop over the recommended trials, looking for false positives. *)
Fixpoint evaluate_recommended (patient_id : string) (patient : row) (trials_df : list row)
    (strict : bool) (items : list (pyval * Z)) (c : Counters) : result Counters :=
  match items with
  | [] => Ok c
  | (nct_id, score) :: rest =>
      trial ← df_first trials_df "nct_id" nct_id;
      is_valid ← is_valid_match patient trial score strict;
      c ←
        (if is_valid : bool then
           Ok {| true_positives := true_positives c + 1;
                 false_positives := false_positives c;
                 true_negatives := true_negatives c;
                 false_negatives := false_negatives c;
                 fp_examples := fp_examples c;
                 fn_examples := fn_examples c |}
         else
           patient_age ← getitem patient "age";
           patient_gender ← getitem patient "gender";
           age_min ← getitem trial "age_min";
           age_max ← getitem trial "age_max";
           trial_gender ← getitem trial "gender";
           reason ← get_fp_reason patient trial score strict;
           Ok {| true_positives := true_positives c;
                 false_positives := false_positives c + 1;
                 true_negatives := true_negatives c;
                 false_negatives := false_negatives c;
                 fp_examples :=
                   fp_examples c ++
                   [{| fp_patient_id := patient_id;
                       fp_patient_age := patient_age;
                       fp_patient_gender := patient_gender;
                       fp_trial_nct := nct_id;
                       fp_trial_age_range := py_str age_min +:+ "-" +:+ py_str age_max;
                       fp_trial_gender := trial_gender;
                       fp_score := score;
                       fp_reason := reason |}];
                 fn_examples := fn_examples c |});
      evaluate_recommended patient_id patient trials_df strict rest c
  end.

(** The loop over the sampled trials that were not recommended, looking for
    false negatives; the score is computed anew. *)
Fixpoint evaluate_not_recommended (patient_id : string) (patient : row)
    (trials_df : list row) (threshold : Z) (strict : bool) (ids : list pyval)
    (c : Counters) : result Counters :=
  match ids with
  | [] => Ok c
  | nct_id :: rest =>
      trial ← df_first trials_df "nct_id" nct_id;
      '(score, _) ← calculate_match_score patient trial;
      is_valid ← is_valid_match patient trial score strict;
      let c :=
        if is_valid : bool then
          {| true_positives := true_positives c;
             false_positives := false_positives c;
             true_negatives := true_negatives c;
             false_negatives := false_negatives c + 1;
             fp_examples := fp_examples c;
             fn_examples :=
               fn_examples c ++
               [{| fn_patient_id := patient_id;
                   fn_trial_nct := nct_id;
                   fn_score := score;
                   fn_reason := "Score " +:+ str_of_int score +:+ " below threshold "
                                +:+ str_of_int threshold |}] |}
        else
          {| true_positives := true_positives c;
             false_positives := false_positives c;
             true_negatives := true_negatives c + 1;
             false_negatives := false_negatives c;
             fp_examples := fp_examples c;
             fn_examples := fn_examples c |} in
      evaluate_not_recommended patient_id patient trials_df threshold strict rest c
  end.

(** The loop over the sampled patients. *)
Fixpoint evaluate_patients (patients_df trials_df : list row) (all_matches : MatchSet)
    (threshold : Z) (strict : bool) (sample_patient_ids : list string)
    (g : rng) (c : Counters) : result Counters :=
  match sample_patient_ids with
  | [] => Ok c
  | patient_id :: rest =>
      patient ← df_first patients_df "id" (VStr patient_id);
      matches ← matches_of all_matches patient_id;
      '(recommended_trials, sample_not_recommended, g) ←
        select_trials trials_df matches threshold g;
      c ← evaluate_recommended patient_id patient trials_df strict recommended_trials c;
      c ← evaluate_not_recommended patient_id patient trials_df threshold strict
            sample_not_recommended c;
      evaluate_patients patients_df trials_df all_matches threshold strict rest g c
  end.

(** The metrics of lines 157 to 176: each quotient is 0 when its
    denominator is 0. *)
Definition metrics_of (c : Counters) : Metrics :=
  let true_positives := true_positives c in
  let false_positives := false_positives c in
  let true_negatives := true_negatives c in
  let false_negatives := false_negatives c in
  let total := (true_positives + false_positives + true_negatives + false_negatives)%nat in
  let precision :=
    if (0 <? true_positives + false_positives)%nat
    then (Qnat true_positives / Qnat (true_positives + false_positives))%Q else 0%Q in
  let recall :=
    if (0 <? true_positives + false_negatives)%nat
    then (Qnat true_positives / Qnat (true_positives + false_negatives))%Q else 0%Q in
  let f1_score :=
    if negb (Qle_bool (precision + recall) 0)
    then (2 * (precision * recall) / (precision + recall))%Q else 0%Q in
  let accuracy :=
    if (0 <? total)%nat
    then (Qnat (true_positives + true_negatives) / Qnat total)%Q else 0%Q in
  let fpr :=
    if (0 <? false_positives + true_negatives)%nat
    then (Qnat false_positives / Qnat (false_positives + true_negatives))%Q else 0%Q in
  let fnr :=
    if (0 <? false_negatives + true_positives)%nat
    then (Qnat false_negatives / Qnat (false_negatives + true_positives))%Q else 0%Q in
  {| total := total; precision := precision; recall := recall; f1_score := f1_score;
     accuracy := accuracy; fpr := fpr; fnr := fnr |}.

Definition no_counts : Counters :=
  {| true_positives := 0; false_positives := 0; true_negatives := 0; false_negatives := 0;
     fp_examples := []; fn_examples := [] |}.

(** [evaluate_matches_with_fp_fn]: the tables and the persisted matches
    are the files it loads.  It returns the counters and the metrics; the
    dictionary of the source holds the metrics as rounded percentages. *)
Definition evaluate_matches_with_fp_fn (patients_df trials_df : list row)
    (all_matches : MatchSet) (threshold num_patients : Z) (strict_validation : bool)
    : result (Counters * Metrics) :=
  let g := seed 42 in
  '(sample_patient_ids, g) ←
    random_sample g (all_matches.*1)
      (Z.min num_patients (Z.of_nat (length all_matches)));
  c ← evaluate_patients patients_df trials_df all_matches threshold strict_validation
        sample_patient_ids g no_counts;
  Ok (c, metrics_of c).

(** The number of classifications a run has to make: for each sampled
    patient, the recommended trials and the sampled trials that were not
    recommended. *)
Fixpoint pairs_to_classify (trials_df : list row) (all_matches : MatchSet)
    (threshold : Z) (sample_patient_ids : list string) (g : rng) : result nat :=
  match sample_patient_ids with
  | [] => Ok 0%nat
  | patient_id :: rest =>
      matches ← matches_of all_matches patient_id;
      '(recommended_trials, sample_not_recommended, g) ←
        select_trials trials_df matches threshold g;
      n ← pairs_to_classify trials_df all_matches threshold rest g;
      Ok (length recommended_trials + length sample_not_recommended + n)%nat
  end.

End Evaluate.

(** ** [validation_improved.py] *)

Record Detail := {
  d_patient_id : string;
  d_trial_id : pyval;
  d_score : Z;
  d_age_valid : bool;
  d_gender_valid : bool;
  d_score_valid : bool;
  d_keyword_valid : bool;
  d_overall_valid : bool
}.

Record StrictReport := {
  strict_accuracy : Q;
  total_evaluated : nat;
  valid_matches : nat
}.

Record NegativeCase := {
  nc_patient_age : pyval;
  nc_trial_age_range : string;
  nc_patient_gender : pyval;
  nc_trial_gender : pyval;
  nc_score : Z;
  nc_correctly_rejected : bool;
  nc_mismatch_type : string
}.

Record NegativeReport := {
  rejection_rate : Q;
  negative_cases_tested : nat;
  correctly_rejected : nat
}.

Record ThresholdRow := {
  th_threshold : Z;
  th_accuracy : Q;
  th_valid : nat;
  th_total : nat
}.

Definition count_true (bs : list bool) : nat := length (List.filter id bs).

Section Validation.
Context {rt : Runtime} {rnd : Random}.

(** The loop of [validate_strict_heuristic] over the top matches of one
    patient: the score is computed anew for each. *)
Fixpoint strict_matches (patient_id : string) (patient : row) (trials_df : list row)
    (matches : list Match) (details : list Detail) : result (list Detail) :=
  match matches with
  | [] => Ok details
  | m :: rest =>
      trial ← df_first trials_df "nct_id" (nct_id m);
      '(score, _) ← calculate_match_score patient trial;
      keyword_overlap ← keyword_overlap patient trial;
      age_valid ← age_in_range patient trial;
      gender_valid ← gender_accepts patient trial;
      let score_valid := (60 <=? score)%Z in
      let keyword_valid := (2 <=? size keyword_overlap)%nat in
      let is_valid := age_valid && gender_valid && score_valid && keyword_valid in
      strict_matches patient_id patient trials_df rest
        (details ++ [{| d_patient_id := patient_id; d_trial_id := nct_id m;
                        d_score := score; d_age_valid := age_valid;
                        d_gender_valid := gender_valid; d_score_valid := score_valid;
                        d_keyword_valid := keyword_valid; d_overall_valid := is_valid |}])
  end.

Fixpoint strict_patients (patients_df trials_df : list row) (all_matches : MatchSet)
    (sample_patient_ids : list string) (details : list Detail) : result (list Detail) :=
  match sample_patient_ids with
  | [] => Ok details
  | patient_id :: rest =>
      patient ← df_first patients_df "id" (VStr patient_id);
      matches ← slice_to 5 <$> matches_of all_matches patient_id;
      details ← strict_matches patient_id patient trials_df matches details;
      strict_patients patients_df trials_df all_matches rest details
  end.

(** The details that [validate_strict_heuristic] collects. *)
Definition strict_details (patients_df trials_df : list row) (all_matches : MatchSet)
    (num_samples : Z) : result (list Detail) :=
  let g := seed 42 in
  '(sample_patient_ids, _) ←
    random_sample g (all_matches.*1) (Z.min num_samples (Z.of_nat (length all_matches)));
  strict_patients patients_df trials_df all_matches sample_patient_ids [].

Definition validate_strict_heuristic (patients_df trials_df : list row)
    (all_matches : MatchSet) (num_samples : Z) : result StrictReport :=
  details ← strict_details patients_df trials_df all_matches num_samples;
  let validation_results := d_overall_valid <$> details in
  let accuracy :=
    if bool_decide (validation_results ≠ [])
    then (Qnat (count_true validation_results) / Qnat (length validation_results))%Q
    else 0%Q in
  Ok {| strict_accuracy := accuracy;
        total_evaluated := length validation_results;
        valid_matches := count_true validation_results |}.

(** The inner loop of [validate_negative_cases] over the sampled trials. *)
Fixpoint negative_trials (patient : row) (sample_trials : list row)
    (negative_cases : list NegativeCase) : result (list NegativeCase) :=
  match sample_trials with
  | [] => Ok negative_cases
  | trial :: rest =>
      in_range ← age_in_range patient trial;
      let age_mismatch := negb in_range in
      gender_mismatch ← gender_mismatch patient trial;
      if age_mismatch || gender_mismatch then
        '(score, _) ← calculate_match_score patient trial;
        let correctly_rejected := (score <? 40)%Z in
        patient_age ← getitem patient "age";
        age_min ← getitem trial "age_min";
        age_max ← getitem trial "age_max";
        patient_gender ← getitem patient "gender";
        trial_gender ← getitem trial "gender";
        negative_trials patient rest
          (negative_cases ++
           [{| nc_patient_age := patient_age;
               nc_trial_age_range := py_str age_min +:+ "-" +:+ py_str age_max;
               nc_patient_gender := patient_gender;
               nc_trial_gender := trial_gender;
               nc_score := score;
               nc_correctly_rejected := correctly_rejected;
               nc_mismatch_type := if age_mismatch then "age" else "gender" |}])
      else negative_trials patient rest negative_cases
  end.

Fixpoint negative_patients (sample_patients sample_trials : list row)
    (negative_cases : list NegativeCase) : result (list NegativeCase) :=
  match sample_patients with
  | [] => Ok negative_cases
  | patient :: rest =>
      negative_cases ← negative_trials patient sample_trials negative_cases;
      negative_patients rest sample_trials negative_cases
  end.

(** [validate_negative_cases]: the two samples are drawn with
    [DataFrame.sample], from the global generator of numpy in the state
    [st] in which the call finds it.  The report is [None] when no pair
    mismatches. *)
Definition validate_negative_cases (patients_df trials_df : list row) (st : np_state)
    : result (option NegativeReport) :=
  let '(sample_patients, st) := df_sample st patients_df (min 10 (length patients_df)) in
  let '(sample_trials, st) := df_sample st trials_df (min 10 (length trials_df)) in
  negative_cases ← negative_patients sample_patients sample_trials [];
  if bool_decide (negative_cases ≠ []) then
    let rejected := count_true (nc_correctly_rejected <$> negative_cases) in
    Ok (Some {| rejection_rate := (Qnat rejected / Qnat (length negative_cases))%Q;
                negative_cases_tested := length negative_cases;
                correctly_rejected := rejected |})
  else Ok None.

(** The loops of [analyze_multiple_thresholds] for one threshold. *)
Fixpoint threshold_matches (patient : row) (trials_df : list row) (threshold : Z)
    (matches : list Match) (valid total : nat) : result (nat * nat) :=
  match matches with
  | [] => Ok (valid, total)
  | m :: rest =>
      trial ← df_first trials_df "nct_id" (nct_id m);
      '(score, _) ← calculate_match_score patient trial;
      age_valid ← age_in_range patient trial;
      gender_valid ← gender_accepts patient trial;
      let valid :=
        if (threshold <=? score)%Z && age_valid && gender_valid
        then (valid + 1)%nat else valid in
      threshold_matches patient trials_df threshold rest valid (total + 1)%nat
  end.

Fixpoint threshold_patients (patients_df trials_df : list row) (all_matches : MatchSet)
    (threshold : Z) (sample_patient_ids : list string) (valid total : nat)
    : result (nat * nat) :=
  match sample_patient_ids with
  | [] => Ok (valid, total)
  | patient_id :: rest =>
      patient ← df_first patients_df "id" (VStr patient_id);
      matches ← slice_to 5 <$> matches_of all_matches patient_id;
      '(valid, total) ← threshold_matches patient trials_df threshold matches valid total;
      threshold_patients patients_df trials_df all_matches threshold rest valid total
  end.

Definition analyze_multiple_thresholds (patients_df trials_df : list row)
    (all_matches : MatchSet) : result (list ThresholdRow) :=
  let thresholds := [30; 40; 50; 60; 70; 80]%Z in
  let g := seed 42 in
  '(sample_patient_ids, _) ←
    random_sample g (all_matches.*1) (Z.min 30 (Z.of_nat (length all_matches)));
  mapM (λ threshold,
          '(valid, total) ←
            threshold_patients patients_df trials_df all_matches threshold
              sample_patient_ids 0%nat 0%nat;
          let accuracy :=
            if (0 <? total)%nat then (Qnat valid / Qnat total * 100)%Q else 0%Q in
          Ok {| th_threshold := threshold; th_accuracy := accuracy;
                th_valid := valid; th_total := total |})
       thresholds.

End Validation.

(** ** Which score the predicate is applied to *)

Section Verdicts.
Context {rt : Runtime}.

(** The verdict of the ground-truth predicate on the trial [nct_id] at
    the score computed anew. *)
Definition fresh_verdict (patient : row) (trials_df : list row) (strict : bool)
    (nct_id : pyval) : result bool :=
  trial ← df_first trials_df "nct_id" nct_id;
  '(score, _) ← calculate_match_score patient trial;
  is_valid_match patient trial score strict.

(** The verdict of the predicate at the score that the persisted match
    carries. *)
Definition cached_verdict (patient : row) (trials_df : list row) (strict : bool)
    (item : pyval * Z) : result bool :=
  trial ← df_first trials_df "nct_id" item.1;
  is_valid_match patient trial item.2 strict.


Definition count_false (bs : list bool) : nat := length (List.filter negb bs).




End Verdicts.

(** ** Rows the scorer accepts *)

Section Scorable.
Context {rt : Runtime}.

(** [int(r[key])] returns. *)
Definition int_cell (r : row) (key : string) : bool :=
  match getitem r key ≫= py_int with Ok _ => true | Raise _ => false end.

(** [set(safe_eval_list(r[key]))] returns. *)
Definition set_cell (r : row) (key : string) : bool :=
  match getitem r key ≫= (λ v, py_set (safe_eval_list v)) with
  | Ok _ => true
  | Raise _ => false
  end.

(** [set(safe_eval_list(r[key]))] returns a set of strings, which
    [', '.join] accepts. *)
Definition str_set_cell (r : row) (key : string) : bool :=
  match getitem r key ≫= (λ v, py_set (safe_eval_list v)) with
  | Ok ks => forallb is_str (elements ks)
  | Raise _ => false
  end.

Definition has_cell (r : row) (key : string) : bool := bool_decide (is_Some (r !! key)).

(** The conditions of the patient are falsy or start with a string. *)
Definition conditions_cell (r : row) : bool :=
  match safe_eval_list <$> getitem r "conditions" with
  | Ok pc => negb (truthy pc) || match first_lower pc with Ok _ => true | Raise _ => false end
  | Raise _ => false
  end.

Definition scorable_patient (patient : row) : bool :=
  int_cell patient "age" && has_cell patient "gender"
  && str_set_cell patient "condition_keywords" && conditions_cell patient.

Definition scorable_trial (trial : row) : bool :=
  int_cell trial "age_min" && int_cell trial "age_max" && has_cell trial "gender"
  && set_cell trial "keywords" && has_cell trial "condition".

(** A trial that [match_patient_to_trials] can also list. *)
Definition listable_trial (trial : row) : bool :=
  scorable_trial trial && has_cell trial "nct_id" && has_cell trial "title".

(** A keyword or condition cell that holds a list of strings, a value
    that is neither a list nor a string (an empty cell is NaN), or a string
    that fails to parse or parses to a list of strings. *)
Definition lenient_cell (v : pyval) : bool :=
  match v with
  | VList xs => forallb is_str xs
  | VNone | VNaN | VInt _ => true
  | VStr s =>
      match literal_eval s with
      | None => true
      | Some (VList xs) => forallb is_str xs
      | Some _ => false
      end
  end.

End Scorable.

(** ** The components as the specification words them *)

Module Spec.

(** Age: 20 points inside the inclusive range, none outside. *)
Definition age_points (age age_min age_max : Z) : Z :=
  if bool_decide (age_min ≤ age ≤ age_max)%Z then 20%Z else 0%Z.

(** The reason that names the age of the patient and the range of the
    trial, satisfied or violated. *)
Definition age_reason (age age_min age_max : Z) : string :=
  (if bool_decide (age_min ≤ age ≤ age_max)%Z then "✓ Age " else "✗ Age ")
  +:+ str_of_int age
  +:+ (if bool_decide (age_min ≤ age ≤ age_max)%Z then " within range (" else " outside range (")
  +:+ str_of_int age_min +:+ "-" +:+ str_of_int age_max +:+ ")".

(** Keywords: 10 points for each shared keyword, capped at 50. *)
Definition keyword_points (overlap : nat) : Z := Z.min (10 * Z.of_nat overlap) 50.

End Spec.

(** ** A runtime for the worked examples

    Its literal parser reads the list literals that the tables of the
    pipeline hold, a bracketed list of single-quoted strings free of quotes
    and backslashes, and raises on every other string; [int] reads signed
    decimal digits; a set is iterated in the order of its codes. *)

Module Example.

Inductive pstate := PStart | PIn (buf : string) | PAfter | PComma | POpen.

Fixpoint parse_items (s : string) (st : pstate) (acc : list string) : option (list string) :=
  match s with
  | EmptyString => None
  | String c s' =>
      match st with
      | PStart =>
          if Ascii.eqb c "]" then (if String.eqb s' "" then Some [] else None)
          else if Ascii.eqb c "'" then parse_items s' (PIn "") acc else None
      | POpen => if Ascii.eqb c "'" then parse_items s' (PIn "") acc else None
      | PIn buf =>
          if Ascii.eqb c "'" then parse_items s' PAfter (buf :: acc)
          else if Ascii.eqb c "\" then None
          else parse_items s' (PIn (buf +:+ String c "")) acc
      | PAfter =>
          if Ascii.eqb c "]" then (if String.eqb s' "" then Some (rev acc) else None)
          else if Ascii.eqb c "," then parse_items s' PComma acc else None
      | PComma => if Ascii.eqb c " " then parse_items s' POpen acc else None
      end
  end.

Definition parse_list (s : string) : option pyval :=
  match s with
  | String c s' =>
      if Ascii.eqb c "["
      then option_map (λ xs, VList (map IStr xs)) (parse_items s' PStart [])
      else None
  | EmptyString => None
  end.

Definition parse_int (s : string) : option Z :=
  if String.eqb s "" || String.eqb s "-" then None
  else Z.of_int <$> NilEmpty.int_of_string s.

Fixpoint show_item (x : item) : string :=
  match x with
  | INone => "None"
  | IInt n => str_of_int n
  | IStr s => "'" +:+ s +:+ "'"
  | IList xs => "[" +:+ join ", " (map show_item xs) +:+ "]"
  end.

Definition show_list (xs : list item) : string := show_item (IList xs).

Definition runtime : Runtime := {|
  literal_eval := parse_list;
  int_of_str := parse_int;
  repr_list := show_list;
  set_iter := λ A _ _, elements;
  set_iter_elements := λ A _ _ s, reflexivity (elements s)
|}.

(** A generator that draws the first [k] elements of the population, and
    a numpy state that lists the row positions of the draws to come. *)
Definition random : Random := {|
  rng := unit;
  seed := λ _, ();
  sample := λ A g population k, (take k population, g);
  np_state := list (list nat);
  df_sample := λ st rows n,
    match st with
    | positions :: st' => (omap (λ i, rows !! i) positions, st')
    | [] => (take n rows, [])
    end
|}.

Definition patient1 : row := list_to_map
  [("id", VStr "P001"); ("age", VInt 45); ("gender", VStr "male");
   ("conditions", VList [IStr "Type 2 Diabetes Mellitus"]);
   ("condition_keywords", VList [IStr "diabetes"; IStr "metformin"])].

Definition trial1 : row := list_to_map
  [("nct_id", VStr "NCT001"); ("title", VStr "Insulin study");
   ("condition", VStr "Type 2 Diabetes"); ("age_min", VInt 18); ("age_max", VInt 65);
   ("gender", VStr "ALL"); ("keywords", VStr "['diabetes', 'insulin']")].

(** A trial for the young only, with no keyword in common. *)
Definition trial2 : row := list_to_map
  [("nct_id", VStr "NCT002"); ("title", VStr "Asthma study");
   ("condition", VStr "Asthma"); ("age_min", VInt 18); ("age_max", VInt 40);
   ("gender", VStr "ALL"); ("keywords", VStr "['asthma']")].

(** A second trial with the score of [trial1]. *)
Definition trial3 : row := <["nct_id" := VStr "NCT003"]> trial1.

(** A patient who shares two keywords with [trial1]. *)
Definition patient2 : row :=
  <["id" := VStr "P002"]> (<["condition_keywords" := VList [IStr "diabetes"; IStr "insulin"]]> patient1).

(** [trial1] with its gender written in lowercase. *)
Definition trial_lower : row := <["gender" := VStr "all"]> trial1.

Definition patients_df : list row := [patient1; patient2].
Definition trials_df : list row := [trial2; trial1; trial3].

(** A persisted match with a cached score. *)
Definition cached (nct : string) (s : Z) : Match :=
  {| nct_id := VStr nct; title := VStr "Insulin study";
     condition := VStr "Type 2 Diabetes"; score := s; reasons := [] |}.

(** The score of [patient1] against [trial1] is 55; the first file
    persists it, the second holds 45 from an older run. *)
Definition current_matches : MatchSet := [("P001", [cached "NCT001" 55])].
Definition stale_matches : MatchSet := [("P001", [cached "NCT001" 45])].

(** Eleven trials: ten accept [patient1], the last one is for the young. *)
Definition eleven_trials : list row := replicate 10 trial1 ++ [trial2].

(** Two draws of ten trials out of eleven: the first ten, the last ten. *)
Definition draw_first_ten : list (list nat) := [[0]; seq 0 10]%nat.
Definition draw_last_ten : list (list nat) := [[0]; seq 1 10]%nat.

(** A patient whose age cell is empty. *)
Definition patient_no_age : row := <["age" := VNaN]> patient1.

(** A patient whose keyword cell is empty and whose conditions fail to
    parse. *)
Definition patient_blank : row :=
  <["condition_keywords" := VNaN]> (<["conditions" := VStr "diabetes"]> patient1).

End Example.

(** ** The rest of the pipeline *)

(** [d[k] = v] on a dictionary kept in insertion order, for any values. *)
Fixpoint dict_put {V} (k : pyval) (v : V) (d : list (pyval * V)) : list (pyval * V) :=
  match d with
  | [] => [(k, v)]
  | (k', v') :: d' => if decide (k = k') then (k, v) :: d' else (k', v') :: dict_put k v d'
  end.

(** [d[k]] when the key is present. *)
Fixpoint dict_get {V} (k : pyval) (d : list (pyval * V)) : option V :=
  match d with
  | [] => None
  | (k', v') :: d' => if decide (k = k') then Some v' else dict_get k d'
  end.

Section Batch.
Context {rt : Runtime}.

(** The loop of [match_all_patients]: each patient is ranked with the
    default [top_k=10] and [min_score=20] and stored under its id. *)
Fixpoint match_patients (patients_df trials_df : list row)
    (all_matches : list (pyval * list Match)) : result (list (pyval * list Match)) :=
  match patients_df with
  | [] => Ok all_matches
  | patient :: rest =>
      patient_id ← getitem patient "id";
      matches ← match_patient_to_trials patient trials_df 10 20;
      if hashable patient_id
      then match_patients rest trials_df (dict_put patient_id matches all_matches)
      else Raise TypeError
  end.

Definition match_all_patients (patients_df trials_df : list row)
    : result (list (pyval * list Match)) :=
  match_patients patients_df trials_df [].

End Batch.

(** Division raises [ZeroDivisionError] on a zero divisor. *)
Inductive zero_division := ZeroDivisionError.

Definition py_div (a b : Q) : zero_division + Q :=
  if Qeq_bool b 0 then inl ZeroDivisionError else inr (a / b)%Q.







(** The breakdown of [validate_strict_heuristic] by failure reason, over
    the details that are not valid overall. *)
Record FailureReasons := {
  score_too_low : nat;
  age_mismatch : nat;
  gender_mismatch_count : nat;
  insufficient_keywords : nat
}.

Definition failure_reasons (details : list Detail) : FailureReasons :=
  let failed := List.filter (λ d, negb (d_overall_valid d)) details in
  {| score_too_low := length (List.filter (λ d, negb (d_score_valid d)) failed);
     age_mismatch := length (List.filter (λ d, negb (d_age_valid d)) failed);
     gender_mismatch_count := length (List.filter (λ d, negb (d_gender_valid d)) failed);
     insufficient_keywords := length (List.filter (λ d, negb (d_keyword_valid d)) failed) |}.

(** ** [metrics_corrected.py] *)

Record Coverage := {
  coverage_percent : Q;
  avg_matches_per_patient : Q;
  total_matches : nat;
  patients_with_matches : nat
}.

(** [calculate_coverage_metrics] before rounding: its two divisions by the
    number of patients have no guard. *)
Definition calculate_coverage_metrics (all_matches : MatchSet) : zero_division + Coverage :=
  let patients_with_matches :=
    length (List.filter (λ e, (0 <? length e.2)%nat) all_matches) in
  let total_patients := length all_matches in
  match py_div (Qnat patients_with_matches) (Qnat total_patients) with
  | inl e => inl e
  | inr share =>
      let coverage_percent := (share * 100)%Q in
      let total_matches := foldr (λ e acc, (length e.2 + acc)%nat) 0%nat all_matches in
      match py_div (Qnat total_matches) (Qnat total_patients) with
      | inl e => inl e
      | inr avg_matches_per_patient =>
          inr {| coverage_percent := coverage_percent;
                 avg_matches_per_patient := avg_matches_per_patient;
                 total_matches := total_matches;
                 patients_with_matches := patients_with_matches |}
      end
  end.

(** ** Further rows *)

Module Rows.

(** A runtime in which the literal 5 parses to the integer and the
    literal [[5]] to the list that holds it. *)
Definition scalar_runtime : Runtime := {|
  literal_eval := λ s,
    if String.eqb s "5" then Some (VInt 5)
    else if String.eqb s "[5]" then Some (VList [IInt 5])
    else Example.parse_list s;
  int_of_str := Example.parse_int;
  repr_list := Example.show_list;
  set_iter := λ A _ _, elements;
  set_iter_elements := λ A _ _ s, reflexivity (elements s)
|}.

(** A patient whose keyword cell holds the literal 5. *)
Definition patient_scalar : row := <["condition_keywords" := VStr "5"]> Example.patient1.

(** A patient row without the keyword column. *)
Definition patient_no_keywords : row := delete "condition_keywords" Example.patient1.

(** A trial whose minimum age cell is empty, and a trial without title. *)
Definition trial_no_age : row := <["age_min" := VNaN]> Example.trial1.
Definition trial_no_title : row := delete "title" Example.trial1.


(** Three patients, the first and the last with the same id. *)
Definition patients_twice : list row :=
  [Example.patient1; Example.patient2; <["age" := VInt 70]> Example.patient1].

End Rows.

(** ** Invariants of the loops *)

(** Each example list is as long as its counter. *)
Definition examples_counted (c : Counters) : Prop :=
  length (fp_examples c) = false_positives c
  ∧ length (fn_examples c) = false_negatives c.

(** The recommended trials judged over a list of patients. *)
Definition judged (c : Counters) : nat := (true_positives c + false_positives c)%nat.

(** A verdict that implies another. *)
Definition implies (v1 v2 : bool) : Prop := v1 = true → v2 = true.

(** The counters of a strict run against those of a lenient run over the
    same classifications. *)
Definition stricter (cs cl : Counters) : Prop :=
  (true_positives cs ≤ true_positives cl)%nat
  ∧ (false_positives cl ≤ false_positives cs)%nat
  ∧ (false_negatives cs ≤ false_negatives cl)%nat
  ∧ (true_negatives cl ≤ true_negatives cs)%nat
  ∧ (true_positives cs + false_positives cs = true_positives cl + false_positives cl)%nat
  ∧ (true_negatives cs + false_negatives cs = true_negatives cl + false_negatives cl)%nat.

(** The flags of a detail as [validate_strict_heuristic] computes them. *)
Definition detail_sound (d : Detail) : Prop :=
  d_score_valid d = (60 <=? d_score d)%Z
  ∧ d_overall_valid d
    = d_age_valid d && d_gender_valid d && d_score_valid d && d_keyword_valid d.

(** A negative case as [validate_negative_cases] records it. *)
Definition case_sound (c : NegativeCase) : Prop :=
  nc_correctly_rejected c = (nc_score c <? 40)%Z
  ∧ (nc_mismatch_type c = "age" ∨ nc_mismatch_type c = "gender").



(** * Properties *)

(** ** The matcher of [difflib] *)

Module DifflibFacts.
Import Difflib.

Lemma j2lenget_bound blo bhi n j2len j :
  row_bounded blo bhi n j2len → (blo ≤ j)%nat →
  (j2lenget j2len j + 1 ≤ n + 1 ∧ j2lenget j2len j + 1 ≤ j + 1 - blo)%nat.
Proof.
  intros Hrow Hj. destruct j as [|j']; simpl; [lia|].
  destruct (j2len !! j') as [k|] eqn:E; simpl; [|lia].
  destruct (Hrow _ _ E) as (? & ? & ? & ?). lia.
Qed.

Lemma scan_row_inv alo ahi blo bhi i j2len js :
  (alo ≤ i < ahi)%nat → row_bounded blo bhi (i - alo) j2len →
  ∀ newj2len best,
    row_bounded blo bhi (i + 1 - alo) newj2len → in_window alo ahi blo bhi best →
    row_bounded blo bhi (i + 1 - alo) (scan_row blo bhi i j2len js newj2len best).1
    ∧ in_window alo ahi blo bhi (scan_row blo bhi i j2len js newj2len best).2.
Proof.
  intros Hi Hprev. induction js as [|j js IH]; intros newj2len best Hnew Hbest; simpl.
  - done.
  - destruct (j <? blo)%nat eqn:E1; [by apply IH|].
    destruct (bhi <=? j)%nat eqn:E2; [done|].
    apply Nat.ltb_ge in E1. apply Nat.leb_gt in E2.
    destruct (j2lenget_bound blo bhi (i - alo) j2len j Hprev E1) as [Hk1 Hk2].
    apply IH.
    + intros j0 k0. rewrite lookup_insert. case_decide as Hd.
      * intros [= <-]. subst j0. lia.
      * apply Hnew.
    + destruct (best.2 <? j2lenget j2len j + 1)%nat; [|done].
      unfold in_window; simpl. lia.
Qed.

Lemma scan_rows_inv a b alo ahi blo bhi n :
  ∀ i j2len best,
    (alo ≤ i)%nat → (i + n ≤ ahi)%nat →
    row_bounded blo bhi (i - alo) j2len → in_window alo ahi blo bhi best →
    in_window alo ahi blo bhi (scan_rows a b blo bhi (seq i n) j2len best).
Proof.
  induction n as [|n IH]; intros i j2len best Hlo Hhi Hrow Hbest; simpl; [done|].
  destruct (scan_row blo bhi i j2len
              match a !! i with Some c => b2j b c | None => [] end ∅ best)
    as [newj2len best'] eqn:E.
  destruct (scan_row_inv alo ahi blo bhi i j2len
              match a !! i with Some c => b2j b c | None => [] end
              ltac:(lia) Hrow ∅ best) as [H1 H2].
  { intros j k. by rewrite lookup_empty. }
  { done. }
  rewrite E in H1, H2. simpl in H1, H2.
  apply IH; [lia | lia | | done].
  replace (S i - alo)%nat with (i + 1 - alo)%nat by lia. done.
Qed.

Lemma extend_left_inv a b alo ahi blo bhi :
  ∀ besti bestj bestsize,
    in_window alo ahi blo bhi (besti, bestj, bestsize) →
    in_window alo ahi blo bhi (extend_left a b alo blo besti bestj bestsize).
Proof.
  induction besti as [|i' IH]; intros bestj bestsize H; simpl; [done|].
  destruct bestj as [|j']; [done|].
  destruct ((alo <? S i')%nat && (blo <? S j')%nat && same a b i' j') eqn:E; [|done].
  apply andb_prop in E as [E _]. apply andb_prop in E as [E1 E2].
  apply Nat.ltb_lt in E1, E2. apply IH.
  unfold in_window in *; simpl in *. lia.
Qed.

Lemma extend_right_inv a b alo ahi blo bhi besti bestj fuel :
  ∀ bestsize,
    in_window alo ahi blo bhi (besti, bestj, bestsize) →
    in_window alo ahi blo bhi
      (besti, bestj, extend_right a b ahi bhi besti bestj bestsize fuel).
Proof.
  induction fuel as [|fuel IH]; intros bestsize H; simpl; [done|].
  destruct ((besti + bestsize <? ahi)%nat && (bestj + bestsize <? bhi)%nat
            && same a b (besti + bestsize) (bestj + bestsize)) eqn:E; [|done].
  apply andb_prop in E as [E _]. apply andb_prop in E as [E1 E2].
  apply Nat.ltb_lt in E1, E2. apply IH.
  unfold in_window in *; simpl in *. lia.
Qed.

(** The turns granted to the second extension loop are enough: when they
    are used up the guard of the loop is false. *)
Lemma extend_right_enough a b ahi bhi besti bestj fuel :
  ∀ bestsize extra,
    (ahi - (besti + bestsize) ≤ fuel)%nat →
    extend_right a b ahi bhi besti bestj bestsize (fuel + extra)
    = extend_right a b ahi bhi besti bestj bestsize fuel.
Proof.
  induction fuel as [|fuel IH]; intros bestsize extra Hf; simpl.
  - destruct extra as [|extra]; simpl; [done|].
    replace (besti + bestsize <? ahi)%nat with false; [done|].
    symmetry. apply Nat.ltb_ge. lia.
  - destruct ((besti + bestsize <? ahi)%nat && (bestj + bestsize <? bhi)%nat
              && same a b (besti + bestsize) (bestj + bestsize)) eqn:E; [|done].
    apply IH. lia.
Qed.

Lemma find_longest_match_window a b alo ahi blo bhi :
  (alo ≤ ahi)%nat → (blo ≤ bhi)%nat →
  in_window alo ahi blo bhi (find_longest_match a b alo ahi blo bhi).
Proof.
  intros Ha Hb. unfold find_longest_match.
  pose proof (scan_rows_inv a b alo ahi blo bhi (ahi - alo) alo ∅ (alo, blo, 0%nat)) as H.
  destruct (scan_rows a b blo bhi (seq alo (ahi - alo)) ∅ (alo, blo, 0%nat))
    as [[besti bestj] bestsize].
  assert (in_window alo ahi blo bhi (besti, bestj, bestsize)) as H1.
  { apply H; [lia | lia | | ].
    - intros j k. by rewrite lookup_empty.
    - unfold in_window; simpl. lia. }
  apply (extend_left_inv a b) in H1.
  destruct (extend_left a b alo blo besti bestj bestsize) as [[i j] k].
  by apply extend_right_inv.
Qed.

Lemma total_size_app xs ys : total_size (xs ++ ys) = (total_size xs + total_size ys)%nat.
Proof. induction xs as [|x xs IH]; simpl; [done|]. rewrite IH. lia. Qed.

(** The blocks found in a window fit side by side in each of its two
    ranges. *)
Lemma matching_blocks_size a b fuel :
  ∀ alo ahi blo bhi,
    (alo ≤ ahi)%nat → (blo ≤ bhi)%nat →
    (total_size (matching_blocks fuel a b alo ahi blo bhi) ≤ ahi - alo
     ∧ total_size (matching_blocks fuel a b alo ahi blo bhi) ≤ bhi - blo)%nat.
Proof.
  induction fuel as [|fuel IH]; intros alo ahi blo bhi Ha Hb; simpl; [lia|].
  pose proof (find_longest_match_window a b alo ahi blo bhi Ha Hb) as Hw.
  destruct (find_longest_match a b alo ahi blo bhi) as [[i j] k].
  unfold in_window in Hw; simpl in Hw.
  destruct (k =? 0)%nat; simpl; [lia|].
  rewrite total_size_app. simpl.
  assert (total_size (if (alo <? i)%nat && (blo <? j)%nat
                      then matching_blocks fuel a b alo i blo j else [])
          ≤ i - alo ∧
          total_size (if (alo <? i)%nat && (blo <? j)%nat
                      then matching_blocks fuel a b alo i blo j else [])
          ≤ j - blo)%nat as [L1 L2].
  { destruct ((alo <? i)%nat && (blo <? j)%nat); [apply IH; lia | simpl; lia]. }
  assert (total_size (if (i + k <? ahi)%nat && (j + k <? bhi)%nat
                      then matching_blocks fuel a b (i + k) ahi (j + k) bhi else [])
          ≤ ahi - (i + k) ∧
          total_size (if (i + k <? ahi)%nat && (j + k <? bhi)%nat
                      then matching_blocks fuel a b (i + k) ahi (j + k) bhi else [])
          ≤ bhi - (j + k))%nat as [R1 R2].
  { destruct ((i + k <? ahi)%nat && (j + k <? bhi)%nat); [apply IH; lia | simpl; lia]. }
  lia.
Qed.

(** The depth granted to the block search is enough: any larger depth
    gives the same blocks. *)
Lemma matching_blocks_enough a b fuel :
  ∀ fuel' alo ahi blo bhi,
    (alo ≤ ahi)%nat → (blo ≤ bhi)%nat →
    (ahi - alo < fuel)%nat → (ahi - alo < fuel')%nat →
    matching_blocks fuel a b alo ahi blo bhi = matching_blocks fuel' a b alo ahi blo bhi.
Proof.
  induction fuel as [|fuel IH]; intros fuel' alo ahi blo bhi Ha Hb Hf Hf'; [lia|].
  destruct fuel' as [|fuel']; [lia|]. simpl.
  pose proof (find_longest_match_window a b alo ahi blo bhi Ha Hb) as Hw.
  destruct (find_longest_match a b alo ahi blo bhi) as [[i j] k].
  unfold in_window in Hw; simpl in Hw.
  destruct (k =? 0)%nat eqn:Ek; [done|]. apply Nat.eqb_neq in Ek.
  f_equal; [|f_equal].
  - destruct ((alo <? i)%nat && (blo <? j)%nat) eqn:E; [|done].
    apply andb_prop in E as [E1 E2]. apply Nat.ltb_lt in E1, E2.
    apply IH; lia.
  - destruct ((i + k <? ahi)%nat && (j + k <? bhi)%nat) eqn:E; [|done].
    apply andb_prop in E as [E1 E2]. apply Nat.ltb_lt in E1, E2.
    apply IH; lia.
Qed.

Lemma matches_le a b : (2 * matches a b ≤ length a + length b)%nat.
Proof.
  unfold matches, get_matching_blocks.
  destruct (matching_blocks_size a b (S (length a)) 0 (length a) 0 (length b)) as [H1 H2];
    [lia | lia |].
  unfold total_size in *. lia.
Qed.

Lemma ratio_range s1 s2 : (0 <= ratio s1 s2 <= 1)%Q.
Proof.
  unfold ratio.
  set (a := list_ascii_of_string s1). set (b := list_ascii_of_string s2).
  destruct (length a + length b =? 0)%nat eqn:E.
  - split; unfold Qle; simpl; lia.
  - apply Nat.eqb_neq in E. pose proof (matches_le a b) as Hm.
    assert (0 < inject_Z (Z.of_nat (length a + length b)))%Q as Hpos.
    { unfold Qlt; simpl. lia. }
    split.
    + apply Qle_shift_div_l; [done|]. unfold Qle; simpl. lia.
    + apply Qle_shift_div_r; [done|]. unfold Qle; simpl. lia.
Qed.

End DifflibFacts.

(** ** The scorer *)

Section ScorerFacts.
Context {rt : Runtime}.

Lemma bind_ok {A B} (m : result A) (f : A → result B) b :
  m ≫= f = Ok b ↔ ∃ a, m = Ok a ∧ f a = Ok b.
Proof.
  destruct m as [a|e]; simpl.
  - split; [eauto | by intros (a' & [= <-] & H)].
  - split; [done | by intros (a' & [=] & _)].
Qed.

Lemma fmap_ok {A B} (m : result A) (f : A → B) b :
  f <$> m = Ok b ↔ ∃ a, m = Ok a ∧ f a = b.
Proof.
  destruct m as [a|e]; simpl.
  - split; [intros [= <-]; eauto | by intros (a' & [= <-] & <-)].
  - split; [done | by intros (a' & [=] & _)].
Qed.

Lemma int_of_Q_range (x : Q) (n : Z) :
  (0 <= x)%Q → (x <= inject_Z n)%Q → (0 ≤ int_of_Q x ≤ n)%Z.
Proof.
  destruct x as [p q]. unfold Qle, int_of_Q; simpl. intros H0 Hn.
  rewrite Z.quot_div_nonneg by lia. split.
  - apply Z.div_pos; lia.
  - apply Z.div_le_upper_bound; lia.
Qed.

Lemma age_match_points a lo hi :
  (age_match a lo hi).1 = if bool_decide (lo ≤ a ≤ hi)%Z then 20%Z else 0%Z.
Proof.
  unfold age_match. case_bool_decide as H.
  - replace ((lo <=? a)%Z && (a <=? hi)%Z) with true; [done|].
    symmetry. apply andb_true_iff. lia.
  - destruct ((lo <=? a)%Z && (a <=? hi)%Z) eqn:E; [|done].
    apply andb_true_iff in E. lia.
Qed.

Lemma gender_match_points pg tg : (gender_match pg tg).1 = 0%Z ∨ (gender_match pg tg).1 = 10%Z.
Proof. unfold gender_match. destruct (_ || _); auto. Qed.

Lemma keyword_match_points pk tk k kr :
  keyword_match pk tk = Ok (k, kr) → k = Z.min (Z.of_nat (size (pk ∩ tk)) * 10) 50.
Proof.
  unfold keyword_match.
  destruct (bool_decide (pk ≠ ∅) && bool_decide (tk ≠ ∅)) eqn:E.
  - destruct (0 <? _)%Z; [|by intros [= <- _]].
    intros H. apply bind_ok in H as (joined & _ & H). by injection H as <- _.
  - intros [= <- _].
    assert (pk ∩ tk = ∅) as ->; [|done].
    apply andb_false_iff in E as [E|E]; apply bool_decide_eq_false in E;
      apply dec_stable in E; subst; [apply (left_absorb_L _ _) | apply (right_absorb_L _ _)].
Qed.

(** [', '.join] returns on strings. *)
Lemma py_join_strings sep xs :
  forallb is_str xs = true → ∃ joined, py_join sep xs = Ok joined.
Proof.
  intros H. unfold py_join.
  assert (∃ strs, mapM item_str xs = Ok strs) as [strs ->]; [|by eexists].
  induction xs as [|[|n|x|ys] xs IH]; simpl in *; try done; [by eexists|].
  destruct (IH H) as [strs ->]. by eexists.
Qed.

(** The keyword section returns when the keywords of the patient are
    strings: the shared keywords that it joins are among them. *)
Lemma keyword_match_returns pk tk :
  forallb is_str (elements pk) = true → ∃ k kr, keyword_match pk tk = Ok (k, kr).
Proof.
  intros Hpk. unfold keyword_match.
  destruct (bool_decide (pk ≠ ∅) && bool_decide (tk ≠ ∅)); [|by eexists _, _].
  destruct (0 <? _)%Z; [|by eexists _, _].
  destruct (py_join_strings ", " (take 3 (set_iter (pk ∩ tk)))) as [joined ->];
    [|by eexists _, _].
  apply forallb_forall. intros x Hx. apply list_elem_of_In in Hx.
  apply (subseteq_take 3) in Hx. rewrite set_iter_elements in Hx.
  apply elem_of_elements, elem_of_intersection in Hx as [Hx _].
  rewrite forallb_forall in Hpk. apply Hpk, list_elem_of_In. by apply elem_of_elements.
Qed.

Lemma condition_match_points pc tc cs cr :
  condition_match pc tc = Ok (cs, cr) → (0 ≤ cs ≤ 20)%Z.
Proof.
  unfold condition_match.
  destruct (truthy pc && negb (String.eqb tc "")); [|intros [= <- _]; lia].
  intros H. apply bind_ok in H as (primary & _ & H).
  pose proof (DifflibFacts.ratio_range primary tc) as [R0 R1].
  assert (0 ≤ int_of_Q (Difflib.ratio primary tc * 20) ≤ 20)%Z as Hr.
  { apply int_of_Q_range.
    - apply Qmult_le_0_compat; [done | unfold Qle; simpl; lia].
    - apply Qle_trans with (1 * 20)%Q; [|unfold Qle; simpl; lia].
      apply Qmult_le_compat_r; [done | unfold Qle; simpl; lia]. }
  destruct (5 <? _)%Z; injection H as <- _; done.
Qed.

(** A returning call of the scorer is the sum of its four sections. *)
Lemma calculate_match_score_ok patient trial s r :
  calculate_match_score patient trial = Ok (s, r) ↔
  ∃ a ar g gr k kr c cr,
    age_component patient trial = Ok (a, ar)
    ∧ gender_component patient trial = Ok (g, gr)
    ∧ keyword_component patient trial = Ok (k, kr)
    ∧ condition_component patient trial = Ok (c, cr)
    ∧ s = (a + g + k + c)%Z
    ∧ r = (ar ++ gr ++ kr ++ cr)%list.
Proof.
  unfold calculate_match_score. split.
  - intros H.
    apply bind_ok in H as ([a ar] & Ha & H).
    apply bind_ok in H as ([g gr] & Hg & H).
    apply bind_ok in H as ([k kr] & Hk & H).
    apply bind_ok in H as ([c cr] & Hc & H).
    injection H as <- <-.
    exists a, ar, g, gr, k, kr, c, cr. repeat split; try done.
    by rewrite <- !app_assoc.
  - intros (a & ar & g & gr & k & kr & c & cr & -> & -> & -> & -> & -> & ->).
    simpl. by rewrite <- !app_assoc.
Qed.


Lemma getitem_ok (r : row) key v : getitem r key = Ok v ↔ r !! key = Some v.
Proof. unfold getitem. destruct (r !! key); split; congruence. Qed.

Lemma age_component_ok patient trial a ar :
  age_component patient trial = Ok (a, ar) ↔
  ∃ age lo hi,
    getitem patient "age" ≫= py_int = Ok age
    ∧ getitem trial "age_min" ≫= py_int = Ok lo
    ∧ getitem trial "age_max" ≫= py_int = Ok hi
    ∧ age_match age lo hi = (a, ar).
Proof.
  unfold age_component. split.
  - intros H. apply bind_ok in H as (age & Ha & H).
    apply bind_ok in H as (lo & Hlo & H). apply bind_ok in H as (hi & Hhi & H).
    injection H as H. eauto 10.
  - intros (age & lo & hi & -> & -> & -> & <-). done.
Qed.

Lemma age_match_reason a lo hi : ∃ x, (age_match a lo hi).2 = [x].
Proof. unfold age_match. destruct (_ && _); eauto. Qed.

Lemma gender_component_points patient trial g gr :
  gender_component patient trial = Ok (g, gr) → (0 ≤ g ≤ 10)%Z.
Proof.
  unfold gender_component. intros H.
  apply bind_ok in H as (pg & _ & H). apply bind_ok in H as (tg & _ & H).
  injection H as H. destruct (gender_match_points pg tg) as [E|E];
    rewrite H in E; simpl in E; lia.
Qed.

Lemma keyword_component_points patient trial k kr :
  keyword_component patient trial = Ok (k, kr) → (0 ≤ k ≤ 50)%Z.
Proof.
  unfold keyword_component. intros H.
  apply bind_ok in H as (pk & _ & H). apply bind_ok in H as (tk & _ & H).
  apply keyword_match_points in H. lia.
Qed.

Lemma condition_component_points patient trial c cr :
  condition_component patient trial = Ok (c, cr) → (0 ≤ c ≤ 20)%Z.
Proof.
  unfold condition_component. intros H.
  apply bind_ok in H as (pc & _ & H). apply bind_ok in H as (tc & _ & H).
  by apply condition_match_points in H.
Qed.

Lemma calculate_match_score_range patient trial s r :
  calculate_match_score patient trial = Ok (s, r) → (0 ≤ s ≤ 100)%Z ∧ r ≠ [].
Proof.
  intros H. apply calculate_match_score_ok in H
    as (a & ar & g & gr & k & kr & c & cr & Ha & Hg & Hk & Hc & -> & ->).
  apply gender_component_points in Hg. apply keyword_component_points in Hk.
  apply condition_component_points in Hc.
  apply age_component_ok in Ha as (age & lo & hi & _ & _ & _ & Ha).
  pose proof (age_match_points age lo hi) as Hp.
  destruct (age_match_reason age lo hi) as [x Hx].
  rewrite Ha in Hp, Hx. simpl in Hp, Hx. subst ar. split; [|done].
  destruct (bool_decide _) in Hp; lia.
Qed.

(** The scorer returns on the rows it accepts. *)
Lemma calculate_match_score_returns patient trial :
  scorable_patient patient = true → scorable_trial trial = true →
  returns (calculate_match_score patient trial).
Proof.
  unfold scorable_patient, scorable_trial, int_cell, set_cell, str_set_cell, has_cell,
    conditions_cell.
  intros Hp Ht.
  repeat (apply andb_true_iff in Hp as [Hp ?]).
  repeat (apply andb_true_iff in Ht as [Ht ?]).
  repeat match goal with
         | H : bool_decide _ = true |- _ => apply bool_decide_eq_true in H as [? H]
         end.
  unfold calculate_match_score, age_component, gender_component, keyword_component,
    condition_component.
  destruct (getitem patient "age" ≫= py_int) as [age|]; [|done].
  destruct (getitem trial "age_min" ≫= py_int) as [lo|]; [|done].
  destruct (getitem trial "age_max" ≫= py_int) as [hi|]; [|done].
  simpl. destruct (age_match age lo hi) as [a ar].
  match goal with H : patient !! "gender" = _ |- _ => apply getitem_ok in H; rewrite H end.
  match goal with H : trial !! "gender" = _ |- _ => apply getitem_ok in H; rewrite H end.
  simpl. destruct (gender_match _ _) as [g gr].
  destruct (getitem patient "condition_keywords" ≫= _) as [pk|]; [|done].
  destruct (getitem trial "keywords" ≫= _) as [tk|]; [|done].
  simpl.
  match goal with H : forallb is_str (elements pk) = true |- _ =>
    destruct (keyword_match_returns pk tk H) as (k & kr & ->) end.
  match goal with H : trial !! "condition" = _ |- _ => apply getitem_ok in H; rewrite H end.
  destruct (getitem patient "conditions") as [pc|]; [|done].
  simpl in *. unfold condition_match.
  destruct (truthy (safe_eval_list pc)); simpl in *.
  - destruct (first_lower (safe_eval_list pc)) as [primary|]; [|done].
    destruct (negb _); simpl; [|by eexists].
    destruct (5 <? _)%Z; by eexists.
  - by eexists.
Qed.

(** *** The ranking loop, the sort and the slice *)

Lemma score_trials_listed patient trials_df min_score matches :
  score_trials patient trials_df min_score = Ok matches →
  ∃ kept, kept `sublist_of` trials_df ∧ Forall2 (listed patient min_score) kept matches.
Proof.
  revert matches. induction trials_df as [|trial rest IH]; intros matches H; simpl in H.
  - injection H as <-. exists []. split; constructor.
  - apply bind_ok in H as ([s r] & Hs & H).
    destruct (min_score <=? s)%Z eqn:E.
    + apply bind_ok in H as (n & Hn & H). apply bind_ok in H as (t & Ht & H).
      apply bind_ok in H as (c & Hc & H). apply bind_ok in H as (ms & Hms & H).
      injection H as <-. destruct (IH ms Hms) as (kept & Hsub & Hall).
      exists (trial :: kept). split; [by constructor|].
      constructor; [|done]. apply Z.leb_le in E.
      apply getitem_ok in Hn, Ht, Hc. by repeat split.
    + destruct (IH matches H) as (kept & Hsub & Hall).
      exists kept. split; [by constructor|done].
Qed.

Lemma score_trials_returns patient trials_df min_score :
  scorable_patient patient = true → Forall (λ t, listable_trial t = true) trials_df →
  returns (score_trials patient trials_df min_score).
Proof.
  intros Hp. induction 1 as [|trial rest Ht _ IH]; simpl; [by eexists|].
  unfold listable_trial in Ht.
  apply andb_true_iff in Ht as [Ht Htitle]. apply andb_true_iff in Ht as [Ht Hnct].
  apply bool_decide_eq_true in Htitle as [t Htitle].
  apply bool_decide_eq_true in Hnct as [n Hnct].
  assert (is_Some (trial !! "condition")) as [c Hc].
  { unfold scorable_trial in Ht. apply andb_true_iff in Ht as [_ Ht].
    by apply bool_decide_eq_true in Ht. }
  destruct (calculate_match_score_returns patient trial Hp Ht) as [[s r] ->].
  simpl. destruct IH as [ms ->].
  destruct (min_score <=? s)%Z; [|by eexists].
  apply getitem_ok in Htitle, Hnct, Hc. rewrite Htitle, Hnct, Hc.
  simpl. by eexists.
Qed.

Lemma insert_by_score_perm m ms : insert_by_score m ms ≡ₚ m :: ms.
Proof.
  induction ms as [|m' ms IH]; simpl; [done|].
  destruct (score m' <=? score m)%Z; [done|].
  rewrite IH. apply Permutation_swap.
Qed.

Lemma sorted_by_score_perm ms : sorted_by_score ms ≡ₚ ms.
Proof.
  induction ms as [|m ms IH]; simpl; [done|].
  rewrite insert_by_score_perm. by constructor.
Qed.

Lemma insert_by_score_sorted m ms :
  StronglySorted by_score_desc ms → StronglySorted by_score_desc (insert_by_score m ms).
Proof.
  induction 1 as [|m' ms Hs IH Hall]; simpl; [repeat constructor|].
  destruct (score m' <=? score m)%Z eqn:E.
  - apply Z.leb_le in E. constructor; [by constructor|].
    constructor; [done|]. eapply Forall_impl; [exact Hall|].
    unfold by_score_desc. intros; simpl in *; lia.
  - apply Z.leb_gt in E. constructor; [done|].
    rewrite insert_by_score_perm. constructor; [|done].
    unfold by_score_desc. lia.
Qed.

Lemma sorted_by_score_sorted ms : StronglySorted by_score_desc (sorted_by_score ms).
Proof.
  induction ms as [|m ms IH]; simpl; [constructor|]. by apply insert_by_score_sorted.
Qed.

(** The sort is stable: results with equal scores keep their order. *)
Lemma insert_by_score_stable s m ms :
  with_score s (insert_by_score m ms) = with_score s (m :: ms).
Proof.
  unfold with_score. induction ms as [|m' ms IH]; simpl; [done|].
  destruct (score m' <=? score m)%Z eqn:E; [done|]. apply Z.leb_gt in E.
  rewrite !filter_cons in *. rewrite IH.
  repeat case_decide; try done; lia.
Qed.

Lemma sorted_by_score_stable s ms : with_score s (sorted_by_score ms) = with_score s ms.
Proof.
  induction ms as [|m ms IH]; simpl; [done|].
  rewrite insert_by_score_stable. unfold with_score in *.
  rewrite !filter_cons, IH. done.
Qed.

Lemma slice_to_take {A} (k : Z) (xs : list A) :
  (0 ≤ k)%Z → slice_to k xs = take (Z.to_nat k) xs.
Proof. intros Hk. unfold slice_to. by apply Z.leb_le in Hk as ->. Qed.

Lemma with_score_take s n ms : with_score s (take n ms) `prefix_of` with_score s ms.
Proof.
  unfold with_score. rewrite <- (take_drop n ms) at 2. rewrite filter_app.
  by eexists.
Qed.

Lemma sorted_take n ms :
  StronglySorted by_score_desc ms → StronglySorted by_score_desc (take n ms).
Proof.
  intros Hsorted. revert n.
  induction Hsorted as [|m ms Hs IH Hm]; intros [|n]; simpl; try constructor.
  - apply IH.
  - apply Forall_forall. intros x Hx. apply subseteq_take in Hx.
    by eapply Forall_forall in Hm.
Qed.

Lemma elem_of_slice_to {A} (k : Z) (xs : list A) x : x ∈ slice_to k xs → x ∈ xs.
Proof. unfold slice_to. destruct (0 <=? k)%Z; apply subseteq_take. Qed.

Lemma match_patient_to_trials_ok patient trials_df top_k min_score result :
  match_patient_to_trials patient trials_df top_k min_score = Ok result ↔
  ∃ matches, score_trials patient trials_df min_score = Ok matches
             ∧ result = slice_to top_k (sorted_by_score matches).
Proof.
  unfold match_patient_to_trials. rewrite bind_ok.
  split; intros (ms & H1 & H2); exists ms; split; congruence.
Qed.

(** C1: for every patient and trial the scorer returns a score between 0
    and 100 with a non-empty list of reasons: it returns on every pair of
    rows it accepts, and whatever it returns is in that range; so is every
    result of [match_patient_to_trials]. *)
Theorem score_bounded_with_reasons patient trial :
  (scorable_patient patient = true → scorable_trial trial = true →
   returns (calculate_match_score patient trial))
  ∧ (∀ s r, calculate_match_score patient trial = Ok (s, r) →
            (0 ≤ s ≤ 100)%Z ∧ r ≠ [])
  ∧ (∀ trials_df top_k min_score result,
       match_patient_to_trials patient trials_df top_k min_score = Ok result →
       Forall (λ m, (0 ≤ score m ≤ 100)%Z ∧ reasons m ≠ []) result).
Proof.
  split; [apply calculate_match_score_returns|].
  split; [apply calculate_match_score_range|].
  intros trials_df top_k min_score result H.
  apply match_patient_to_trials_ok in H as (matches & Hs & ->).
  apply score_trials_listed in Hs as (kept & _ & Hall).
  apply Forall_forall. intros m Hm.
  apply elem_of_slice_to in Hm. rewrite sorted_by_score_perm in Hm.
  destruct (proj1 (list_elem_of_lookup _ _) Hm) as [i Hi].
  destruct (Forall2_lookup_r _ _ _ _ _ Hall Hi) as (trial' & _ & Hl).
  destruct Hl as (Hc & _). by apply calculate_match_score_range in Hc.
Qed.

(** C2: the ranking returns only results that reach [min_score], sorted
    by score descending, results of equal score in the order of their
    trials in the table, and at most [top_k] of them. *)
Theorem ranking_filtered_sorted_truncated patient trials_df top_k min_score :
  (scorable_patient patient = true → Forall (λ t, listable_trial t = true) trials_df →
   returns (match_patient_to_trials patient trials_df top_k min_score))
  ∧ (∀ result,
       match_patient_to_trials patient trials_df top_k min_score = Ok result →
       Forall (λ m, (min_score ≤ score m)%Z) result
       ∧ StronglySorted by_score_desc result
       ∧ ((0 ≤ top_k)%Z → (Z.of_nat (length result) ≤ top_k)%Z)
       ∧ ∃ kept candidates,
           kept `sublist_of` trials_df
           ∧ Forall2 (listed patient min_score) kept candidates
           ∧ ∀ s, with_score s result `prefix_of` with_score s candidates).
Proof.
  split.
  - intros Hp Ht. destruct (score_trials_returns patient trials_df min_score Hp Ht) as [ms E].
    unfold match_patient_to_trials. rewrite E. by eexists.
  - intros result H.
    apply match_patient_to_trials_ok in H as (matches & Hs & ->).
    apply score_trials_listed in Hs as (kept & Hsub & Hall).
    assert (slice_to top_k (sorted_by_score matches)
            = take (if (0 <=? top_k)%Z then Z.to_nat top_k
                    else length (sorted_by_score matches) - Z.to_nat (- top_k))
                (sorted_by_score matches)) as ->.
    { unfold slice_to. by destruct (0 <=? top_k)%Z. }
    set (n := if (0 <=? top_k)%Z then _ else _).
    repeat split.
    + apply Forall_forall. intros m Hm. apply subseteq_take in Hm.
      rewrite sorted_by_score_perm in Hm.
      destruct (proj1 (list_elem_of_lookup _ _) Hm) as [i Hi].
      destruct (Forall2_lookup_r _ _ _ _ _ Hall Hi) as (trial' & _ & Hl).
      by destruct Hl as (_ & Hc & _).
    + apply sorted_take, sorted_by_score_sorted.
    + intros Hk. subst n. apply Z.leb_le in Hk as Hk'. rewrite Hk'.
      rewrite length_take. lia.
    + exists kept, matches. repeat split; [done | done |].
      intros s. rewrite <- (sorted_by_score_stable s matches). apply with_score_take.
Qed.

(** *** The components one by one *)

Lemma getitem_insert_ne (r : row) k k' v : k ≠ k' → getitem (<[k := v]> r) k' = getitem r k'.
Proof. intros Hne. unfold getitem. by rewrite lookup_insert_ne. Qed.

Lemma getitem_insert (r : row) k v : getitem (<[k := v]> r) k = Ok v.
Proof. unfold getitem. by rewrite lookup_insert_eq. Qed.

Ltac getitem_simpl :=
  repeat first [ rewrite getitem_insert | rewrite getitem_insert_ne by done ].

Lemma age_match_spec age lo hi :
  age_match age lo hi = (Spec.age_points age lo hi, [Spec.age_reason age lo hi]).
Proof.
  unfold age_match, Spec.age_points, Spec.age_reason.
  case_bool_decide as H.
  - replace ((lo <=? age)%Z && (age <=? hi)%Z) with true; [done|].
    symmetry. apply andb_true_iff. lia.
  - destruct ((lo <=? age)%Z && (age <=? hi)%Z) eqn:E; [|done].
    apply andb_true_iff in E. lia.
Qed.

(** C3: the age section adds exactly 20 points when the age of the patient
    lies in the inclusive range of the trial and exactly 0 otherwise, and it
    always emits the reason that names the age and the range.  The points
    and reasons of the other three sections do not move when the three age
    fields are replaced. *)
Theorem age_component_all_or_nothing patient trial s r :
  calculate_match_score patient trial = Ok (s, r) →
  ∃ age lo hi g gr k kr c cr,
    getitem patient "age" ≫= py_int = Ok age
    ∧ getitem trial "age_min" ≫= py_int = Ok lo
    ∧ getitem trial "age_max" ≫= py_int = Ok hi
    ∧ age_component patient trial = Ok (Spec.age_points age lo hi, [Spec.age_reason age lo hi])
    ∧ gender_component patient trial = Ok (g, gr)
    ∧ keyword_component patient trial = Ok (k, kr)
    ∧ condition_component patient trial = Ok (c, cr)
    ∧ s = (Spec.age_points age lo hi + (g + k + c))%Z
    ∧ r = (Spec.age_reason age lo hi :: gr ++ kr ++ cr)%list
    ∧ ∀ age' lo' hi',
        calculate_match_score (<["age" := VInt age']> patient)
          (<["age_min" := VInt lo']> (<["age_max" := VInt hi']> trial))
        = Ok ((Spec.age_points age' lo' hi' + (g + k + c))%Z,
              (Spec.age_reason age' lo' hi' :: gr ++ kr ++ cr)%list).
Proof.
  intros H. apply calculate_match_score_ok in H
    as (a & ar & g & gr & k & kr & c & cr & Ha & Hg & Hk & Hc & -> & ->).
  pose proof Ha as Ha'.
  apply age_component_ok in Ha' as (age & lo & hi & Hage & Hlo & Hhi & Hm).
  rewrite age_match_spec in Hm. injection Hm as <- <-.
  exists age, lo, hi, g, gr, k, kr, c, cr.
  repeat split; try done; [lia|].
  intros age' lo' hi'. apply calculate_match_score_ok.
  exists (Spec.age_points age' lo' hi'), [Spec.age_reason age' lo' hi'], g, gr, k, kr, c, cr.
  repeat split; [| | | |lia].
  - unfold age_component. getitem_simpl. simpl. by rewrite age_match_spec.
  - rewrite <- Hg. unfold gender_component. by getitem_simpl.
  - rewrite <- Hk. unfold keyword_component. by getitem_simpl.
  - rewrite <- Hc. unfold condition_component. by getitem_simpl.
Qed.

Lemma keyword_component_ok patient trial k kr :
  keyword_component patient trial = Ok (k, kr) →
  ∃ pk tk,
    getitem patient "condition_keywords" ≫= (λ v, py_set (safe_eval_list v)) = Ok pk
    ∧ getitem trial "keywords" ≫= (λ v, py_set (safe_eval_list v)) = Ok tk
    ∧ keyword_match pk tk = Ok (k, kr)
    ∧ k = Spec.keyword_points (size (pk ∩ tk)).
Proof.
  unfold keyword_component. intros H.
  apply bind_ok in H as (pk & Hpk & H). apply bind_ok in H as (tk & Htk & H).
  exists pk, tk. repeat split; try done.
  apply keyword_match_points in H. unfold Spec.keyword_points. lia.
Qed.

(** Lists of strings as cells: their sets are the images of the sets of
    strings. *)
Lemma str_items_hashable (xs : list string) : forallb item_hashable (IStr <$> xs) = true.
Proof. by induction xs. Qed.

Lemma str_items_strings (xs : list string) : forallb is_str (IStr <$> xs) = true.
Proof. by induction xs. Qed.

Lemma size_set_map_str (X : gset string) : size (set_map IStr X : gset item) = size X.
Proof.
  unfold size, set_size. simpl. unfold set_map.
  rewrite elements_list_to_set.
  - by rewrite length_fmap.
  - apply NoDup_fmap_2; [by intros ?? [=] | apply NoDup_elements].
Qed.

Lemma size_str_sets (xs ys : list string) :
  size (list_to_set (IStr <$> xs) ∩ list_to_set (IStr <$> ys) : gset item)
  = size (list_to_set xs ∩ list_to_set ys : gset string).
Proof.
  rewrite <- size_set_map_str. f_equal. apply set_eq. intros x.
  rewrite elem_of_intersection, !elem_of_list_to_set, elem_of_map, !list_elem_of_fmap.
  split.
  - intros [(a & -> & Ha) (b & [= <-] & Hb)]. exists a.
    split; [done|]. apply elem_of_intersection. by rewrite !elem_of_list_to_set.
  - intros (a & -> & Ha). apply elem_of_intersection in Ha as [Ha Hb].
    rewrite elem_of_list_to_set in Ha, Hb. split; by exists a.
Qed.

Lemma strings_of_list_to_set (xs : list item) :
  forallb is_str xs = true → forallb is_str (elements (list_to_set xs : gset item)) = true.
Proof.
  intros H. apply forallb_forall. intros x Hx.
  apply list_elem_of_In, elem_of_elements, elem_of_list_to_set, list_elem_of_In in Hx.
  rewrite forallb_forall in H. by apply H.
Qed.

Lemma keyword_points_mono n m :
  (n ≤ m)%nat → (Spec.keyword_points n ≤ Spec.keyword_points m)%Z.
Proof. unfold Spec.keyword_points. lia. Qed.

Lemma keyword_points_saturated n : (5 ≤ n)%nat → Spec.keyword_points n = 50%Z.
Proof. unfold Spec.keyword_points. lia. Qed.

(** C4: the keyword section adds min(10 × |patient keywords ∩ trial
    keywords|, 50) points; with the other sections fixed the score does not
    decrease when the overlap grows, and the section is worth 50 once five
    keywords are shared. *)
Theorem keyword_component_capped patient trial s r :
  calculate_match_score patient trial = Ok (s, r) →
  ∃ pk tk a ar g gr kr c cr,
    getitem patient "condition_keywords" ≫= (λ v, py_set (safe_eval_list v)) = Ok pk
    ∧ getitem trial "keywords" ≫= (λ v, py_set (safe_eval_list v)) = Ok tk
    ∧ age_component patient trial = Ok (a, ar)
    ∧ gender_component patient trial = Ok (g, gr)
    ∧ keyword_component patient trial = Ok (Spec.keyword_points (size (pk ∩ tk)), kr)
    ∧ condition_component patient trial = Ok (c, cr)
    ∧ s = (a + g + Spec.keyword_points (size (pk ∩ tk)) + c)%Z
    ∧ ((5 ≤ size (pk ∩ tk))%nat → Spec.keyword_points (size (pk ∩ tk)) = 50%Z)
    ∧ (∀ xs ys : list string, ∃ r',
         calculate_match_score (<["condition_keywords" := VList (IStr <$> xs)]> patient)
           (<["keywords" := VList (IStr <$> ys)]> trial)
         = Ok ((a + g + Spec.keyword_points
                          (size (list_to_set xs ∩ list_to_set ys : gset string)) + c)%Z, r'))
    ∧ (∀ (xs ys xs' ys' : list string) s1 r1 s2 r2,
         calculate_match_score (<["condition_keywords" := VList (IStr <$> xs)]> patient)
           (<["keywords" := VList (IStr <$> ys)]> trial) = Ok (s1, r1) →
         calculate_match_score (<["condition_keywords" := VList (IStr <$> xs')]> patient)
           (<["keywords" := VList (IStr <$> ys')]> trial) = Ok (s2, r2) →
         (size (list_to_set xs ∩ list_to_set ys : gset string)
          ≤ size (list_to_set xs' ∩ list_to_set ys' : gset string))%nat →
         (s1 ≤ s2)%Z).
Proof.
  intros H. apply calculate_match_score_ok in H
    as (a & ar & g & gr & k & kr & c & cr & Ha & Hg & Hk & Hc & -> & ->).
  pose proof Hk as Hk'.
  apply keyword_component_ok in Hk' as (pk & tk & Hpk & Htk & Hm & ->).
  exists pk, tk, a, ar, g, gr, kr, c, cr.
  assert (∀ xs ys : list string, ∃ kr',
            calculate_match_score (<["condition_keywords" := VList (IStr <$> xs)]> patient)
              (<["keywords" := VList (IStr <$> ys)]> trial)
            = Ok ((a + g + Spec.keyword_points
                             (size (list_to_set xs ∩ list_to_set ys : gset string)) + c)%Z,
                  (ar ++ gr ++ kr' ++ cr)%list))
    as Hnew.
  { intros xs ys.
    destruct (keyword_match_returns (list_to_set (IStr <$> xs)) (list_to_set (IStr <$> ys)))
      as (k' & kr' & Hm'); [apply strings_of_list_to_set, str_items_strings|].
    exists kr'. apply calculate_match_score_ok.
    exists a, ar, g, gr,
      (Spec.keyword_points (size (list_to_set xs ∩ list_to_set ys : gset string))),
      kr', c, cr.
    repeat split.
    - rewrite <- Ha. unfold age_component. by getitem_simpl.
    - rewrite <- Hg. unfold gender_component. by getitem_simpl.
    - unfold keyword_component. getitem_simpl. simpl.
      rewrite !str_items_hashable. simpl. rewrite Hm'. f_equal.
      apply injective_projections; simpl; [|done].
      apply keyword_match_points in Hm'. rewrite size_str_sets in Hm'.
      unfold Spec.keyword_points. lia.
    - rewrite <- Hc. unfold condition_component. by getitem_simpl. }
  repeat split; try done.
  - apply keyword_points_saturated.
  - intros xs ys. destruct (Hnew xs ys) as [kr' Hnew']. eexists. apply Hnew'.
  - intros xs ys xs' ys' s1 r1 s2 r2 H1 H2 Hle.
    destruct (Hnew xs ys) as [kr1 Hn1]. destruct (Hnew xs' ys') as [kr2 Hn2].
    rewrite Hn1 in H1. rewrite Hn2 in H2. injection H1 as <- _. injection H2 as <- _.
    apply keyword_points_mono in Hle. lia.
Qed.

Lemma keyword_match_empty (pk tk : gset item) :
  pk = ∅ ∨ tk = ∅ → keyword_match pk tk = Ok (0%Z, []).
Proof.
  intros Hempty. unfold keyword_match.
  replace (bool_decide (pk ≠ ∅) && bool_decide (tk ≠ ∅)) with false; [done|].
  symmetry. apply andb_false_iff.
  destruct Hempty as [-> | ->]; [left | right]; by apply bool_decide_eq_false; intros [].
Qed.

(** A keyword or condition cell that carries no evidence. *)
Lemma no_evidence_keywords (r : row) key v :
  r !! key = Some v → lenient_cell v = true →
  ∃ ks, getitem r key ≫= (λ v, py_set (safe_eval_list v)) = Ok ks
        ∧ forallb is_str (elements ks) = true
        ∧ (safe_eval_list v = VList [] → ks = ∅).
Proof.
  assert (∀ xs, forallb is_str xs = true → forallb item_hashable xs = true) as Hh.
  { intros xs H. apply forallb_forall. intros x Hx.
    rewrite forallb_forall in H. apply H in Hx. by destruct x. }
  intros Hv Hl. apply getitem_ok in Hv. rewrite Hv. simpl.
  destruct v as [| |n|str|xs]; simpl in *.
  - exists ∅. done.
  - exists ∅. done.
  - exists ∅. done.
  - destruct (literal_eval str) as [[| |n|str'|xs]|]; try done.
    + exists (list_to_set xs). simpl. rewrite (Hh xs Hl).
      split; [done|]. split; [by apply strings_of_list_to_set|]. by intros [= ->].
    + exists ∅. done.
  - exists (list_to_set xs). rewrite (Hh xs Hl).
    split; [done|]. split; [by apply strings_of_list_to_set|]. by intros [= ->].
Qed.

Lemma lenient_conditions pc tc :
  lenient_cell pc = true →
  ∃ c cr, condition_match (safe_eval_list pc) tc = Ok (c, cr)
          ∧ (safe_eval_list pc = VList [] → c = 0%Z ∧ cr = []).
Proof.
  intros Hl.
  assert (∃ xs, safe_eval_list pc = VList xs ∧ forallb is_str xs = true) as (xs & -> & Hxs).
  { destruct pc as [| |n|str|xs]; simpl in *; eauto.
    destruct (literal_eval str) as [[| |n|str'|xs]|]; try done; eauto. }
  unfold condition_match. destruct xs as [|[|n|x|ys] xs]; simpl in *; try done.
  - by eexists _, _.
  - destruct (negb (String.eqb tc "")); simpl; [|by eexists _, _].
    destruct (5 <? _)%Z; by eexists _, _.
Qed.

(** C7, as the code has it: when every field that the scorer reads is
    present, the three ages convert to integers and the keyword and
    condition cells are lenient (a list of strings, a value that is neither
    a list nor a string, or a string that fails to parse or parses to a
    list of strings), the scorer returns; a keyword cell without evidence on
    either side leaves the keyword section at 0 points with no reason, and
    a condition cell without evidence does so for the condition section. *)
Theorem lenient_cells_score_zero patient trial pk tk pc :
  int_cell patient "age" = true →
  int_cell trial "age_min" = true →
  int_cell trial "age_max" = true →
  has_cell patient "gender" = true →
  has_cell trial "gender" = true →
  has_cell trial "condition" = true →
  patient !! "condition_keywords" = Some pk → lenient_cell pk = true →
  trial !! "keywords" = Some tk → lenient_cell tk = true →
  patient !! "conditions" = Some pc → lenient_cell pc = true →
  ∃ a ar g gr k kr c cr,
    calculate_match_score patient trial
    = Ok ((a + g + k + c)%Z, (ar ++ gr ++ kr ++ cr)%list)
    ∧ age_component patient trial = Ok (a, ar)
    ∧ gender_component patient trial = Ok (g, gr)
    ∧ keyword_component patient trial = Ok (k, kr)
    ∧ condition_component patient trial = Ok (c, cr)
    ∧ (safe_eval_list pk = VList [] ∨ safe_eval_list tk = VList [] → k = 0%Z ∧ kr = [])
    ∧ (safe_eval_list pc = VList [] → c = 0%Z ∧ cr = []).
Proof.
  unfold int_cell, has_cell.
  intros Hage Hlo Hhi Hpg Htg Htc Hpk Lpk Htk Ltk Hpc Lpc.
  destruct (getitem patient "age" ≫= py_int) as [age|] eqn:Eage; [|done].
  destruct (getitem trial "age_min" ≫= py_int) as [lo|] eqn:Elo; [|done].
  destruct (getitem trial "age_max" ≫= py_int) as [hi|] eqn:Ehi; [|done].
  apply bool_decide_eq_true in Hpg as [pg Hpg], Htg as [tg Htg], Htc as [tc Htc].
  apply getitem_ok in Hpg, Htg, Htc.
  destruct (no_evidence_keywords patient _ pk Hpk Lpk) as (pks & Epk & Spk & Zpk).
  destruct (no_evidence_keywords trial _ tk Htk Ltk) as (tks & Etk & _ & Ztk).
  destruct (lenient_conditions pc (lower (py_str tc)) Lpc) as (c & cr & Ec & Zc).
  destruct (keyword_match_returns pks tks Spk) as (k & kr & Ek).
  apply getitem_ok in Hpc.
  assert (age_component patient trial = Ok (age_match age lo hi)) as Ha.
  { unfold age_component. by rewrite Eage, Elo, Ehi. }
  assert (gender_component patient trial
          = Ok (gender_match (upper (py_str pg)) (upper (py_str tg)))) as Hg.
  { unfold gender_component. by rewrite Hpg, Htg. }
  assert (keyword_component patient trial = Ok (k, kr)) as Hk.
  { unfold keyword_component. by rewrite Epk, Etk. }
  assert (condition_component patient trial = Ok (c, cr)) as Hc.
  { unfold condition_component. by rewrite Hpc, Htc. }
  destruct (age_match age lo hi) as [a ar].
  destruct (gender_match _ _) as [g gr].
  exists a, ar, g, gr, k, kr, c, cr.
  split; [|split; [done|split; [done|split; [done|split; [done|split; [|done]]]]]].
  - apply calculate_match_score_ok. exists a, ar, g, gr, k, kr, c, cr. done.
  - intros Hnone. rewrite keyword_match_empty in Ek.
    + by injection Ek as <- <-.
    + destruct Hnone; auto.
Qed.

End ScorerFacts.

(** ** The ground-truth predicate *)

Section PredicateFacts.
Context {rt : Runtime}.

(** C5: whenever the strict predicate holds for a patient, a trial and a
    score, the lenient predicate holds for them too. *)
Theorem strict_valid_is_lenient_valid patient trial score :
  is_valid_match patient trial score true = Ok true →
  is_valid_match patient trial score false = Ok true.
Proof.
  unfold is_valid_match. intros H.
  apply bind_ok in H as (age_valid & Ha & H). rewrite Ha. simpl.
  apply bind_ok in H as (gender_valid & Hg & H). rewrite Hg. simpl.
  apply bind_ok in H as (keyword_valid & _ & H).
  injection H as H.
  repeat (apply andb_true_iff in H as [H ?]). subst.
  replace (50 <=? score)%Z with true; [done|].
  symmetry. apply Z.leb_le. match goal with E : (60 <=? score)%Z = true |- _ =>
    apply Z.leb_le in E; lia end.
Qed.

Lemma upper_literals tg :
  tg = "ALL" ∨ tg = "MALE" ∨ tg = "FEMALE" → upper tg = tg.
Proof. by intros [-> | [-> | ->]]. Qed.

Lemma gender_accepts_strings patient trial pg tg :
  getitem patient "gender" = Ok (VStr pg) →
  getitem trial "gender" = Ok (VStr tg) →
  gender_accepts patient trial
  = Ok (String.eqb tg "ALL" || String.eqb (upper tg) (upper pg)).
Proof.
  intros Hpg Htg. unfold gender_accepts. rewrite Htg, Hpg.
  unfold mbind, result_bind, py_upper, py_eq.
  destruct (decide (tg = "ALL")) as [-> | Hne].
  - done.
  - rewrite bool_decide_eq_false_2 by congruence.
    by apply String.eqb_neq in Hne as ->.
Qed.

Lemma gender_component_strings patient trial pg tg :
  getitem patient "gender" = Ok (VStr pg) →
  getitem trial "gender" = Ok (VStr tg) →
  gender_component patient trial = Ok (gender_match (upper pg) (upper tg)).
Proof. intros Hpg Htg. unfold gender_component. by rewrite Hpg, Htg. Qed.

(** C10: for a trial whose gender is written 'ALL', 'MALE' or 'FEMALE'
    the gender conjunct of the predicate holds exactly when the scorer
    awards its 10 gender points; for a trial whose gender is 'all' in
    lowercase and a patient of another gender, the scorer awards the 10
    points while the conjunct is false and the predicate rejects the pair
    at every score. *)
Theorem gender_conjunct_against_scorer patient trial pg :
  patient !! "gender" = Some (VStr pg) →
  (∀ tg, trial !! "gender" = Some (VStr tg) →
         tg = "ALL" ∨ tg = "MALE" ∨ tg = "FEMALE" →
         ∃ b,
           gender_accepts patient trial = Ok b
           ∧ gender_component patient trial
             = Ok (if b then 10%Z else 0%Z,
                   [if b then "✓ Gender matches (" +:+ tg +:+ ")"
                    else "✗ Gender mismatch (requires " +:+ tg +:+ ")"]))
  ∧ (trial !! "gender" = Some (VStr "all") → upper pg ≠ "ALL" →
     gender_component patient trial = Ok (10%Z, ["✓ Gender matches (ALL)"])
     ∧ gender_accepts patient trial = Ok false
     ∧ ∀ score strict v, is_valid_match patient trial score strict = Ok v → v = false).
Proof.
  intros Hpg. apply getitem_ok in Hpg. split.
  - intros tg Htg Hlit. apply getitem_ok in Htg.
    rewrite (gender_accepts_strings _ _ pg tg), (gender_component_strings _ _ pg tg) by done.
    rewrite (upper_literals tg Hlit). unfold gender_match.
    exists (String.eqb tg "ALL" || String.eqb tg (upper pg)). split; [done|].
    by destruct (String.eqb tg "ALL" || String.eqb tg (upper pg)).
  - intros Htg Hne. apply getitem_ok in Htg.
    assert (gender_accepts patient trial = Ok false) as Hacc.
    { rewrite (gender_accepts_strings _ _ pg "all") by done.
      change (upper "all") with "ALL". change (String.eqb "all" "ALL") with false.
      f_equal. apply String.eqb_neq. congruence. }
    split; [|split; [done|]].
    + by rewrite (gender_component_strings _ _ pg "all").
    + intros score strict v H. unfold is_valid_match in H.
      apply bind_ok in H as (age_valid & _ & H). rewrite Hacc in H.
      apply bind_ok in H as (gender_valid & [= <-] & H).
      apply bind_ok in H as (keyword_valid & _ & H). injection H as <-.
      by rewrite andb_false_r.
Qed.

End PredicateFacts.

(** ** The false positive and false negative analysis *)

Section EvaluateFacts.
Context {rt : Runtime} {rnd : Random}.

Lemma evaluate_recommended_count patient_id patient trials_df strict items :
  ∀ c c',
    evaluate_recommended patient_id patient trials_df strict items c = Ok c' →
    classified c' = (classified c + length items)%nat.
Proof.
  induction items as [|[nct score] rest IH]; intros c c' H; simpl in H.
  - injection H as <-. simpl. lia.
  - apply bind_ok in H as (trial & _ & H).
    apply bind_ok in H as (is_valid & _ & H).
    apply bind_ok in H as (c1 & Hc1 & H).
    apply IH in H. rewrite H. simpl.
    assert (classified c1 = classified c + 1)%nat as ->; [|lia].
    destruct is_valid.
    + injection Hc1 as <-. unfold classified; simpl. lia.
    + apply bind_ok in Hc1 as (? & _ & Hc1). apply bind_ok in Hc1 as (? & _ & Hc1).
      apply bind_ok in Hc1 as (? & _ & Hc1). apply bind_ok in Hc1 as (? & _ & Hc1).
      apply bind_ok in Hc1 as (? & _ & Hc1). apply bind_ok in Hc1 as (? & _ & Hc1).
      injection Hc1 as <-. unfold classified; simpl. lia.
Qed.

Lemma evaluate_not_recommended_count patient_id patient trials_df threshold strict ids :
  ∀ c c',
    evaluate_not_recommended patient_id patient trials_df threshold strict ids c = Ok c' →
    classified c' = (classified c + length ids)%nat.
Proof.
  induction ids as [|nct rest IH]; intros c c' H; simpl in H.
  - injection H as <-. simpl. lia.
  - apply bind_ok in H as (trial & _ & H).
    apply bind_ok in H as ([score reasons] & _ & H).
    apply bind_ok in H as (is_valid & _ & H).
    apply IH in H. rewrite H. simpl.
    destruct is_valid; unfold classified; simpl; lia.
Qed.

Lemma evaluate_patients_count patients_df trials_df all_matches threshold strict ids :
  ∀ g c c',
    evaluate_patients patients_df trials_df all_matches threshold strict ids g c = Ok c' →
    ∃ n, pairs_to_classify trials_df all_matches threshold ids g = Ok n
         ∧ classified c' = (classified c + n)%nat.
Proof.
  induction ids as [|patient_id rest IH]; intros g c c' H; simpl in H |- *.
  - injection H as <-. exists 0%nat. split; [done | lia].
  - apply bind_ok in H as (patient & _ & H).
    apply bind_ok in H as (matches & -> & H). simpl.
    apply bind_ok in H as ([[items ids] g'] & -> & H). simpl.
    apply bind_ok in H as (c1 & H1 & H).
    apply bind_ok in H as (c2 & H2 & H).
    apply evaluate_recommended_count in H1.
    apply evaluate_not_recommended_count in H2.
    destruct (IH _ _ _ H) as (n & -> & Hn). simpl.
    eexists. split; [done | lia].
Qed.

Lemma quotient_in_unit (a b : nat) : (a ≤ b)%nat → (0 < b)%nat → in_unit (Qnat a / Qnat b).
Proof.
  intros Hab Hb. unfold in_unit, Qnat.
  assert (0 < inject_Z (Z.of_nat b))%Q as Hpos by (unfold Qlt; simpl; lia).
  split.
  - apply Qle_shift_div_l; [done|]. unfold Qle; simpl. lia.
  - apply Qle_shift_div_r; [done|]. unfold Qle; simpl. lia.
Qed.

Lemma guarded_quotient_in_unit (a b : nat) :
  (a ≤ b)%nat → in_unit (if (0 <? b)%nat then (Qnat a / Qnat b)%Q else 0%Q).
Proof.
  intros Hab. destruct (0 <? b)%nat eqn:E.
  - apply Nat.ltb_lt in E. by apply quotient_in_unit.
  - split; unfold Qle; simpl; lia.
Qed.

Lemma harmonic_in_unit (p r : Q) :
  in_unit p → in_unit r →
  in_unit (if negb (Qle_bool (p + r) 0) then (2 * (p * r) / (p + r))%Q else 0%Q).
Proof.
  intros [Hp0 Hp1] [Hr0 Hr1]. destruct (Qle_bool (p + r) 0) eqn:E; simpl.
  - split; unfold Qle; simpl; lia.
  - assert (0 < p + r)%Q as Hpos.
    { apply Qnot_le_lt. intros Hle. apply Qle_bool_iff in Hle. congruence. }
    split.
    + apply Qle_shift_div_l; [done|]. nra.
    + apply Qle_shift_div_r; [done|]. nra.
Qed.

(** C6: the four counters add up to the number of classified pairs, that
    is, over the sampled patients, the recommended trials and the sampled
    trials that were not recommended; each derived metric lies between 0
    and 1; and a quotient whose denominator is 0 is 0. *)
Theorem confusion_matrix_totals patients_df trials_df all_matches threshold num_patients
    strict :
  (∀ c m,
     evaluate_matches_with_fp_fn patients_df trials_df all_matches threshold num_patients
       strict = Ok (c, m) →
     m = metrics_of c
     ∧ total m = (true_positives c + false_positives c
                  + true_negatives c + false_negatives c)%nat
     ∧ ∃ ids g,
         random_sample (seed 42) (all_matches.*1)
           (Z.min num_patients (Z.of_nat (length all_matches))) = Ok (ids, g)
         ∧ pairs_to_classify trials_df all_matches threshold ids g = Ok (total m))
  ∧ (∀ c,
       in_unit (precision (metrics_of c)) ∧ in_unit (recall (metrics_of c))
       ∧ in_unit (f1_score (metrics_of c)) ∧ in_unit (accuracy (metrics_of c))
       ∧ in_unit (fpr (metrics_of c)) ∧ in_unit (fnr (metrics_of c)))
  ∧ (∀ c,
       ((true_positives c + false_positives c = 0)%nat → precision (metrics_of c) = 0%Q)
       ∧ ((true_positives c + false_negatives c = 0)%nat → recall (metrics_of c) = 0%Q)
       ∧ ((precision (metrics_of c) + recall (metrics_of c) == 0)%Q
          → f1_score (metrics_of c) = 0%Q)
       ∧ (total (metrics_of c) = 0%nat → accuracy (metrics_of c) = 0%Q)
       ∧ ((false_positives c + true_negatives c = 0)%nat → fpr (metrics_of c) = 0%Q)
       ∧ ((false_negatives c + true_positives c = 0)%nat → fnr (metrics_of c) = 0%Q)).
Proof.
  split; [|split].
  - intros c m H. unfold evaluate_matches_with_fp_fn in H.
    apply bind_ok in H as ([ids g] & Hs & H).
    apply bind_ok in H as (c' & Hc & H). injection H as <- <-.
    apply evaluate_patients_count in Hc as (n & Hn & Hsum).
    split; [done|]. split; [done|].
    exists ids, g. split; [done|]. rewrite Hn. f_equal.
    unfold classified in Hsum. simpl in *. lia.
  - intros c. unfold metrics_of; simpl.
    assert (in_unit (if (0 <? true_positives c + false_positives c)%nat
                     then (Qnat (true_positives c)
                           / Qnat (true_positives c + false_positives c))%Q
                     else 0%Q)) as Hp by (apply guarded_quotient_in_unit; lia).
    assert (in_unit (if (0 <? true_positives c + false_negatives c)%nat
                     then (Qnat (true_positives c)
                           / Qnat (true_positives c + false_negatives c))%Q
                     else 0%Q)) as Hr by (apply guarded_quotient_in_unit; lia).
    repeat split; try apply Hp; try apply Hr;
      try (apply harmonic_in_unit; assumption);
      try (apply guarded_quotient_in_unit; lia).
  - intros c. unfold metrics_of; simpl. repeat split.
    + by intros ->.
    + by intros ->.
    + intros H. replace (Qle_bool _ 0) with true; [done|].
      symmetry. apply Qle_bool_iff. rewrite H. apply Qle_refl.
    + by intros ->.
    + by intros ->.
    + by intros ->.
Qed.

End EvaluateFacts.

(** ** Fresh and cached scores in the validators *)

Section FreshnessFacts.
Context {rt : Runtime} {rnd : Random}.

Lemma mapM_cons_ok {A B} (f : A → result B) x xs y ys :
  f x = Ok y → mapM f xs = Ok ys → mapM f (x :: xs) = Ok (y :: ys).
Proof. intros Hx Hxs. simpl. by rewrite Hx, Hxs. Qed.









Lemma evaluate_not_recommended_fresh patient_id patient trials_df threshold strict ids :
  ∀ c c',
    evaluate_not_recommended patient_id patient trials_df threshold strict ids c = Ok c' →
    ∃ verdicts,
      mapM (fresh_verdict patient trials_df strict) ids = Ok verdicts
      ∧ false_negatives c' = (false_negatives c + count_true verdicts)%nat
      ∧ true_negatives c' = (true_negatives c + count_false verdicts)%nat
      ∧ true_positives c' = true_positives c
      ∧ false_positives c' = false_positives c.
Proof.
  induction ids as [|nct rest IH]; intros c c' H; simpl in H.
  - injection H as <-. exists []. unfold count_true, count_false. simpl.
    repeat split; try done; lia.
  - apply bind_ok in H as (trial & Ht & H).
    apply bind_ok in H as ([score reasons] & Hs & H).
    apply bind_ok in H as (is_valid & Hv & H).
    apply IH in H as (verdicts & Hm & Hfn & Htn & Htp & Hfp).
    exists (is_valid :: verdicts). split.
    + apply mapM_cons_ok; [|done].
      unfold fresh_verdict. rewrite Ht. simpl. by rewrite Hs.
    + rewrite Hfn, Htn, Htp, Hfp. unfold count_true, count_false.
      destruct is_valid; simpl; repeat split; try done; lia.
Qed.

Lemma evaluate_recommended_cached patient_id patient trials_df strict items :
  ∀ c c',
    evaluate_recommended patient_id patient trials_df strict items c = Ok c' →
    ∃ verdicts,
      mapM (cached_verdict patient trials_df strict) items = Ok verdicts
      ∧ true_positives c' = (true_positives c + count_true verdicts)%nat
      ∧ false_positives c' = (false_positives c + count_false verdicts)%nat
      ∧ true_negatives c' = true_negatives c
      ∧ false_negatives c' = false_negatives c.
Proof.
  induction items as [|[nct score] rest IH]; intros c c' H; simpl in H.
  - injection H as <-. exists []. unfold count_true, count_false. simpl.
    repeat split; try done; lia.
  - apply bind_ok in H as (trial & Ht & H).
    apply bind_ok in H as (is_valid & Hv & H).
    apply bind_ok in H as (c1 & Hc1 & H).
    apply IH in H as (verdicts & Hm & Htp & Hfp & Htn & Hfn).
    exists (is_valid :: verdicts). split.
    + apply mapM_cons_ok; [|done].
      unfold cached_verdict. simpl. by rewrite Ht.
    + rewrite Htp, Hfp, Htn, Hfn. unfold count_true, count_false.
      destruct is_valid.
      * injection Hc1 as <-. simpl. repeat split; try done; lia.
      * apply bind_ok in Hc1 as (? & _ & Hc1). apply bind_ok in Hc1 as (? & _ & Hc1).
        apply bind_ok in Hc1 as (? & _ & Hc1). apply bind_ok in Hc1 as (? & _ & Hc1).
        apply bind_ok in Hc1 as (? & _ & Hc1). apply bind_ok in Hc1 as (? & _ & Hc1).
        injection Hc1 as <-. simpl. repeat split; try done; lia.
Qed.







End FreshnessFacts.

(** The worked scenario: a 45 year old against a trial for ages 18 to 65
    scores 55. *)
Lemma score_bounded_with_reasons_witness :
  returns (@calculate_match_score Example.runtime Example.patient1 Example.trial1)
  ∧ (∃ s r, @calculate_match_score Example.runtime Example.patient1 Example.trial1 = Ok (s, r)
            ∧ (0 ≤ s ≤ 100)%Z ∧ r ≠ [])
  ∧ (∃ result,
       @match_patient_to_trials Example.runtime Example.patient1
         [Example.trial2; Example.trial1; Example.trial3] 10 20 = Ok result
       ∧ Forall (λ m, (0 ≤ score m ≤ 100)%Z ∧ reasons m ≠ []) result).
Proof.
  destruct (@score_bounded_with_reasons Example.runtime Example.patient1 Example.trial1)
    as (H1 & H2 & H3).
  split; [apply H1; reflexivity|].
  split.
  - eexists _, _. split; [vm_compute; reflexivity|]. apply H2. vm_compute. reflexivity.
  - eexists. split; [vm_compute; reflexivity|].
    apply (H3 [Example.trial2; Example.trial1; Example.trial3] 10%Z 20%Z).
    vm_compute. reflexivity.
Defined.

(** Three trials, one below the threshold and two with equal scores, ranked
    with the default parameters. *)
Lemma ranking_filtered_sorted_truncated_witness :
  returns (@match_patient_to_trials Example.runtime Example.patient1
             [Example.trial2; Example.trial1; Example.trial3] 10 20)
  ∧ ∃ result,
      @match_patient_to_trials Example.runtime Example.patient1
        [Example.trial2; Example.trial1; Example.trial3] 10 20 = Ok result
      ∧ map nct_id result = [VStr "NCT001"; VStr "NCT003"]
      ∧ Forall (λ m, (20 ≤ score m)%Z) result
      ∧ StronglySorted by_score_desc result
      ∧ (Z.of_nat (length result) ≤ 10)%Z.
Proof.
  destruct (@ranking_filtered_sorted_truncated Example.runtime Example.patient1
              [Example.trial2; Example.trial1; Example.trial3] 10%Z 20%Z) as (H1 & H2).
  split.
  - apply H1; [reflexivity|]. repeat constructor.
  - eexists. split; [vm_compute; reflexivity|].
    split; [reflexivity|].
    edestruct H2 as (Hmin & Hsorted & Hlen & _); [vm_compute; reflexivity|].
    split; [exact Hmin|]. split; [exact Hsorted|]. apply Hlen. lia.
Defined.

(** The patient of 45 years fits the range 18 to 65; at 70 against the
    range 18 to 40 the same patient loses exactly the 20 points. *)
Lemma age_component_all_or_nothing_witness :
  ∃ rest others,
    @calculate_match_score Example.runtime Example.patient1 Example.trial1
    = Ok ((20 + rest)%Z, "✓ Age 45 within range (18-65)" :: others)
    ∧ @calculate_match_score Example.runtime
        (<["age" := VInt 70]> Example.patient1)
        (<["age_min" := VInt 18]> (<["age_max" := VInt 40]> Example.trial1))
      = Ok ((0 + rest)%Z, "✗ Age 70 outside range (18-40)" :: others).
Proof.
  edestruct (@age_component_all_or_nothing Example.runtime Example.patient1 Example.trial1)
    as (age & lo & hi & g & gr & k & kr & c & cr
        & Hage & Hlo & Hhi & _ & _ & _ & _ & _ & _ & Hnew);
    [vm_compute; reflexivity|].
  injection Hage as <-. injection Hlo as <-. injection Hhi as <-.
  exists (g + k + c)%Z, (gr ++ kr ++ cr)%list. split.
  - exact (Hnew 45%Z 18%Z 65%Z).
  - exact (Hnew 70%Z 18%Z 40%Z).
Defined.

(** One shared keyword is worth 10 points, six shared keywords 50. *)
Lemma keyword_component_capped_witness :
  ∃ a g c r1 r2,
    @calculate_match_score Example.runtime
        (<["condition_keywords" := VList (IStr <$> ["diabetes"; "metformin"])]>
           Example.patient1)
        (<["keywords" := VList (IStr <$> ["diabetes"; "insulin"])]> Example.trial1)
    = Ok ((a + g + 10 + c)%Z, r1)
    ∧ @calculate_match_score Example.runtime
        (<["condition_keywords" := VList (IStr <$> ["a"; "b"; "c"; "d"; "e"; "f"])]>
           Example.patient1)
        (<["keywords" := VList (IStr <$> ["f"; "e"; "d"; "c"; "b"; "a"; "z"])]>
           Example.trial1)
      = Ok ((a + g + 50 + c)%Z, r2).
Proof.
  edestruct (@keyword_component_capped Example.runtime Example.patient1 Example.trial1)
    as (pk & tk & a & ar & g & gr & kr & c & cr
        & _ & _ & _ & _ & _ & _ & _ & _ & Hnew & _);
    [vm_compute; reflexivity|].
  destruct (Hnew ["diabetes"; "metformin"] ["diabetes"; "insulin"]) as [r1 H1].
  destruct (Hnew ["a"; "b"; "c"; "d"; "e"; "f"] ["f"; "e"; "d"; "c"; "b"; "a"; "z"])
    as [r2 H2].
  exists a, g, c, r1, r2. split; [exact H1 | exact H2].
Defined.

(** C7, the claim as stated fails: an empty age cell makes the scorer
    raise. *)
Lemma malformed_age_raises :
  @calculate_match_score Example.runtime Example.patient_no_age Example.trial1
  = Raise ValueError.
Proof. vm_compute. reflexivity. Qed.

(** An empty keyword cell and an unparsable condition cell: the scorer
    returns the 30 points of age and gender. *)
Lemma lenient_cells_score_zero_witness :
  @calculate_match_score Example.runtime Example.patient_blank Example.trial1
  = Ok (30%Z, ["✓ Age 45 within range (18-65)"; "✓ Gender matches (ALL)"]).
Proof.
  destruct (@lenient_cells_score_zero Example.runtime Example.patient_blank Example.trial1
              VNaN (VStr "['diabetes', 'insulin']") (VStr "diabetes")
              eq_refl eq_refl eq_refl eq_refl eq_refl eq_refl
              eq_refl eq_refl eq_refl eq_refl eq_refl eq_refl)
    as (a & ar & g & gr & k & kr & c & cr & Hs & Ha & Hg & _ & _ & Hk & Hc).
  destruct (Hk (or_introl eq_refl)) as [-> ->].
  destruct (Hc eq_refl) as [-> ->].
  injection Ha as <- <-. injection Hg as <- <-.
  exact Hs.
Defined.

(** A score of 65 with two shared keywords is valid under both modes. *)
Lemma strict_valid_is_lenient_valid_witness :
  @is_valid_match Example.runtime Example.patient2 Example.trial1 65 false = Ok true.
Proof.
  apply (@strict_valid_is_lenient_valid Example.runtime Example.patient2 Example.trial1 65%Z).
  vm_compute. reflexivity.
Defined.

(** A male patient: accepted on both sides by a trial for 'ALL', and by
    the scorer alone when the trial says 'all'. *)
Lemma gender_conjunct_against_scorer_witness :
  (∃ b, @gender_accepts Example.patient1 Example.trial1 = Ok b
        ∧ @gender_component Example.runtime Example.patient1 Example.trial1
          = Ok (if b then 10%Z else 0%Z,
                [if b then "✓ Gender matches (ALL)" else "✗ Gender mismatch (requires ALL)"]))
  ∧ @gender_component Example.runtime Example.patient1 Example.trial_lower
    = Ok (10%Z, ["✓ Gender matches (ALL)"])
  ∧ @gender_accepts Example.patient1 Example.trial_lower = Ok false.
Proof.
  split.
  - destruct (@gender_conjunct_against_scorer Example.runtime Example.patient1
                Example.trial1 "male" eq_refl) as [H _].
    apply (H "ALL" eq_refl). by left.
  - destruct (@gender_conjunct_against_scorer Example.runtime Example.patient1
                Example.trial_lower "male" eq_refl) as [_ H].
    destruct H as (H1 & H2 & _); [reflexivity | discriminate |]. by split.
Defined.

(** A run over one sampled patient classifies three pairs. *)
Lemma confusion_matrix_totals_witness :
  ∃ c m,
    @evaluate_matches_with_fp_fn Example.runtime Example.random
      Example.patients_df Example.trials_df Example.stale_matches 40 50 false = Ok (c, m)
    ∧ total m = 3%nat
    ∧ (true_positives c + false_positives c + true_negatives c + false_negatives c = 3)%nat
    ∧ @pairs_to_classify Example.runtime Example.random Example.trials_df
        Example.stale_matches 40 ["P001"] () = Ok 3%nat.
Proof.
  destruct (@confusion_matrix_totals Example.runtime Example.random
              Example.patients_df Example.trials_df Example.stale_matches 40%Z 50%Z false)
    as (H & _ & _).
  eexists _, _. split; [vm_compute; reflexivity|].
  edestruct H as (_ & Htotal & ids & g & Hids & Hpairs); [vm_compute; reflexivity|].
  injection Hids as <- <-.
  split; [reflexivity|]. split; [reflexivity|]. exact Hpairs.
Defined.



(** C9, the code at the failing input: one patient and eleven trials, of
    which the last alone mismatches.  [validate_negative_cases] draws its
    samples from the generator of numpy, which the program never seeds: a
    run that draws the first ten trials finds no negative case and reports
    nothing, a run that draws the last ten tests one and reports it. *)
Theorem negative_cases_follow_the_draw :
  @validate_negative_cases Example.runtime Example.random
    [Example.patient1] Example.eleven_trials Example.draw_first_ten = Ok None
  ∧ @validate_negative_cases Example.runtime Example.random
      [Example.patient1] Example.eleven_trials Example.draw_last_ten
    = Ok (Some {| rejection_rate := (Qnat 1 / Qnat 1)%Q;
                  negative_cases_tested := 1;
                  correctly_rejected := 1 |}).
Proof. split; vm_compute; reflexivity. Qed.

(** * More properties of the code *)

(** ** The ranking *)

Section RankingFacts.
Context {rt : Runtime}.

Lemma score_trials_app patient pre post min_score :
  score_trials patient (pre ++ post) min_score
  = ms ← score_trials patient pre min_score;
    ms' ← score_trials patient post min_score;
    Ok (ms ++ ms').
Proof.
  induction pre as [|trial pre IH]; simpl.
  - by destruct (score_trials patient post min_score).
  - destruct (calculate_match_score patient trial) as [[s r]|]; [|done]. simpl.
    destruct (min_score <=? s)%Z; [|done].
    destruct (getitem trial "nct_id"); [|done]. simpl.
    destruct (getitem trial "title"); [|done]. simpl.
    destruct (getitem trial "condition"); [|done]. simpl.
    rewrite IH. destruct (score_trials patient pre min_score); [|done]. simpl.
    by destruct (score_trials patient post min_score).
Qed.

(** X1: a single trial that the scorer cannot score aborts the whole
    ranking with the exception of the scorer, whatever the other trials
    are. *)
Theorem unscorable_trial_aborts_ranking patient pre trial post top_k min_score e :
  returns (score_trials patient pre min_score) →
  calculate_match_score patient trial = Raise e →
  match_patient_to_trials patient (pre ++ trial :: post) top_k min_score = Raise e.
Proof.
  intros [ms Hpre] He. unfold match_patient_to_trials.
  rewrite score_trials_app, Hpre. simpl. by rewrite He.
Qed.

(** X2: a trial without an id or a title is passed over in silence when
    its score is below [min_score], and raises [KeyError] when its score
    reaches it. *)
Theorem unlisted_trial_raises_from_threshold patient trial rest min_score s r :
  calculate_match_score patient trial = Ok (s, r) →
  trial !! "nct_id" = None ∨ trial !! "title" = None →
  ((s < min_score)%Z →
   score_trials patient (trial :: rest) min_score = score_trials patient rest min_score)
  ∧ ((min_score ≤ s)%Z →
     score_trials patient (trial :: rest) min_score = Raise KeyError).
Proof.
  intros Hs Hmiss. simpl. rewrite Hs. simpl. split; intros Hcmp.
  - by apply Z.leb_gt in Hcmp as ->.
  - apply Z.leb_le in Hcmp as ->. unfold getitem.
    destruct Hmiss as [-> | Ht]; [done|].
    destruct (trial !! "nct_id"); [|done]. simpl. by rewrite Ht.
Qed.

Lemma score_trials_raise_threshold patient trials_df m1 m2 candidates :
  (m1 ≤ m2)%Z →
  score_trials patient trials_df m1 = Ok candidates →
  score_trials patient trials_df m2
  = Ok (List.filter (λ m, m2 <=? score m)%Z candidates).
Proof.
  intros Hle. revert candidates.
  induction trials_df as [|trial rest IH]; intros candidates H; simpl in H |- *.
  - by injection H as <-.
  - destruct (calculate_match_score patient trial) as [[s r]|]; [|done]. simpl in *.
    destruct (m1 <=? s)%Z eqn:E1.
    + apply bind_ok in H as (n & Hn & H). apply bind_ok in H as (t & Ht & H).
      apply bind_ok in H as (c & Hc & H). apply bind_ok in H as (ms & Hms & H).
      injection H as <-. simpl. rewrite (IH ms Hms).
      destruct (m2 <=? s)%Z; [|done]. by rewrite Hn, Ht, Hc.
    + apply Z.leb_gt in E1. replace (m2 <=? s)%Z with false; [by apply IH|].
      symmetry. apply Z.leb_gt. lia.
Qed.

Lemma insert_by_score_filter (p : Match → bool) m ms :
  StronglySorted by_score_desc ms →
  List.filter p (insert_by_score m ms)
  = if p m then insert_by_score m (List.filter p ms) else List.filter p ms.
Proof.
  induction 1 as [|m' ms Hs IH Hall]; simpl.
  - by destruct (p m).
  - destruct (score m' <=? score m)%Z eqn:E; simpl.
    + destruct (p m) eqn:Pm; [|done]. destruct (p m') eqn:Pm'; simpl.
      * by rewrite E.
      * assert (Forall (by_score_desc m') (List.filter p ms)) as Hall'.
        { apply Forall_forall. intros x Hx. apply list_elem_of_In, filter_In in Hx as [Hx _].
          apply list_elem_of_In in Hx. by eapply Forall_forall in Hall. }
        destruct (List.filter p ms) as [|x xs]; [done|]. simpl.
        apply Forall_cons in Hall' as [Hx _]. unfold by_score_desc in Hx.
        apply Z.leb_le in E.
        replace (score x <=? score m)%Z with true; [done|].
        symmetry. apply Z.leb_le. lia.
    + rewrite IH. destruct (p m'), (p m); simpl; try done. by rewrite E.
Qed.

Lemma sorted_by_score_filter (p : Match → bool) ms :
  sorted_by_score (List.filter p ms) = List.filter p (sorted_by_score ms).
Proof.
  induction ms as [|m ms IH]; simpl; [done|].
  rewrite insert_by_score_filter by apply sorted_by_score_sorted.
  destruct (p m); simpl; by rewrite IH.
Qed.

Lemma threshold_filter_prefix t ms :
  StronglySorted by_score_desc ms →
  List.filter (λ m, t <=? score m)%Z ms `prefix_of` ms.
Proof.
  induction 1 as [|m ms Hs IH Hall]; simpl; [done|].
  destruct (t <=? score m)%Z eqn:E.
  - by apply prefix_cons.
  - assert (List.filter (λ m0, t <=? score m0)%Z ms = []) as ->; [|apply prefix_nil].
    apply Z.leb_gt in E. clear IH Hs.
    induction Hall as [|x xs Hx _ IH]; simpl; [done|].
    unfold by_score_desc in Hx.
    replace (t <=? score x)%Z with false; [done|]. symmetry. apply Z.leb_gt. lia.
Qed.

Lemma take_prefix_mono {A} (xs ys : list A) n1 n2 :
  xs `prefix_of` ys → (n1 ≤ n2)%nat → take n1 xs `prefix_of` take n2 ys.
Proof.
  intros [k ->] Hn.
  assert (take n1 xs = take (n1 `min` length xs) (take n2 (xs ++ k))) as ->.
  { rewrite take_take.
    replace ((n1 `min` length xs) `min` n2)%nat with (n1 `min` length xs)%nat by lia.
    rewrite <- (take_take (xs ++ k)), take_app_length. done. }
  apply prefix_take.
Qed.

(** X3: with a higher [min_score] the ranking still returns, and what it
    returns is a prefix of the ranking for the lower [min_score]: raising
    the threshold only cuts results off the end. *)
Theorem raising_min_score_keeps_a_prefix patient trials_df top_k m1 m2 result1 :
  (m1 ≤ m2)%Z →
  match_patient_to_trials patient trials_df top_k m1 = Ok result1 →
  ∃ result2,
    match_patient_to_trials patient trials_df top_k m2 = Ok result2
    ∧ result2 `prefix_of` result1.
Proof.
  intros Hle H. apply match_patient_to_trials_ok in H as (cands & Hc & ->).
  pose proof (score_trials_raise_threshold _ _ _ _ _ Hle Hc) as Hc2.
  eexists. split.
  { apply match_patient_to_trials_ok. eexists. split; [exact Hc2 | done]. }
  rewrite sorted_by_score_filter.
  pose proof (threshold_filter_prefix m2 _ (sorted_by_score_sorted cands)) as Hpre.
  unfold slice_to. destruct (0 <=? top_k)%Z.
  - by apply take_prefix_mono.
  - apply take_prefix_mono; [done|].
    apply prefix_length in Hpre. lia.
Qed.

Lemma sorted_front_back (front back : list Match) m m' :
  StronglySorted by_score_desc (front ++ back) →
  m ∈ front → m' ∈ back → (score m' ≤ score m)%Z.
Proof.
  induction front as [|x front IH]; intros Hsorted Hm Hm';
    [by apply elem_of_nil in Hm|].
  simpl in Hsorted. apply StronglySorted_inv in Hsorted as [Hs Hall].
  apply elem_of_cons in Hm as [-> | Hm]; [|by apply IH].
  eapply Forall_forall in Hall; [exact Hall|]. apply elem_of_app. by right.
Qed.

(** The loop keeps exactly the trials whose score reaches [min_score], in
    the order of the table, each with its identification, score and
    reasons. *)
Lemma score_trials_filter patient trials_df min_score :
  ∀ candidates,
    score_trials patient trials_df min_score = Ok candidates →
    ∃ scores,
      Forall2 (λ trial sr, calculate_match_score patient trial = Ok sr) trials_df scores
      ∧ Forall2 (λ ts m, listed patient min_score ts.1 m)
          (List.filter (λ ts, (min_score <=? ts.2.1)%Z) (zip trials_df scores)) candidates.
Proof.
  induction trials_df as [|trial rest IH]; intros candidates H; simpl in H.
  - injection H as <-. exists []. split; constructor.
  - apply bind_ok in H as ([s r] & Hs & H).
    destruct (min_score <=? s)%Z eqn:E.
    + apply bind_ok in H as (n & Hn & H). apply bind_ok in H as (t & Ht & H).
      apply bind_ok in H as (c & Hc & H). apply bind_ok in H as (ms & Hms & H).
      injection H as <-. destruct (IH ms Hms) as (scores & Hall & Hkept).
      exists ((s, r) :: scores). split; [by constructor|].
      simpl. rewrite E. constructor; [|done].
      apply Z.leb_le in E. apply getitem_ok in Hn, Ht, Hc. by repeat split.
    + destruct (IH candidates H) as (scores & Hall & Hkept).
      exists ((s, r) :: scores). split; [by constructor|]. simpl. by rewrite E.
Qed.

(** X4: the ranking returns the best candidates.  The candidates are the
    trials of the table whose score, as [calculate_match_score] computes
    it, is at least [min_score], each with its identification, score and
    reasons; the results and the candidates left out are a permutation of
    them, no candidate left out scores higher than a result, and the number
    of results is [min(top_k, n)] for [n] candidates, or [n - |top_k|] when
    [top_k] is negative. *)
Theorem ranking_returns_the_best patient trials_df top_k min_score result :
  match_patient_to_trials patient trials_df top_k min_score = Ok result →
  ∃ scores candidates rest,
    Forall2 (λ trial sr, calculate_match_score patient trial = Ok sr) trials_df scores
    ∧ Forall2 (λ ts m, listed patient min_score ts.1 m)
        (List.filter (λ ts, (min_score <=? ts.2.1)%Z) (zip trials_df scores)) candidates
    ∧ score_trials patient trials_df min_score = Ok candidates
    ∧ result ++ rest ≡ₚ candidates
    ∧ (∀ m m', m ∈ result → m' ∈ rest → (score m' ≤ score m)%Z)
    ∧ length result
      = (if (0 <=? top_k)%Z then Z.to_nat top_k `min` length candidates
         else length candidates - Z.to_nat (- top_k))%nat.
Proof.
  intros H. apply match_patient_to_trials_ok in H as (cands & Hc & ->).
  destruct (score_trials_filter _ _ _ _ Hc) as (scores & Hscores & Hkept).
  set (n := (if (0 <=? top_k)%Z then Z.to_nat top_k
             else length (sorted_by_score cands) - Z.to_nat (- top_k))%nat).
  assert (slice_to top_k (sorted_by_score cands) = take n (sorted_by_score cands)) as ->.
  { unfold slice_to, n. by destruct (0 <=? top_k)%Z. }
  exists scores, cands, (drop n (sorted_by_score cands)).
  split; [done|]. split; [done|].
  split; [done|]. split; [by rewrite take_drop, sorted_by_score_perm|]. split.
  - intros m m' Hm Hm'.
    apply (sorted_front_back (take n (sorted_by_score cands))
             (drop n (sorted_by_score cands))); [|done|done].
    rewrite take_drop. apply sorted_by_score_sorted.
  - rewrite length_take. subst n.
    assert (length (sorted_by_score cands) = length cands) as Hlen
      by (apply Permutation_length, sorted_by_score_perm).
    rewrite Hlen. destruct (0 <=? top_k)%Z; lia.
Qed.

End RankingFacts.

(** ** The scorer, section by section *)

Section ScorerMoreFacts.
Context {rt : Runtime}.

Lemma gender_match_reason pg tg : ∃ x, (gender_match pg tg).2 = [x].
Proof. unfold gender_match. destruct (_ || _); eauto. Qed.

Lemma keyword_match_reasons pk tk k kr :
  keyword_match pk tk = Ok (k, kr) →
  length kr = if (0 <? k)%Z then 1%nat else 0%nat.
Proof.
  unfold keyword_match.
  destruct (bool_decide (pk ≠ ∅) && bool_decide (tk ≠ ∅)); [|by intros [= <- <-]].
  destruct (0 <? Z.min (Z.of_nat (size (pk ∩ tk)) * 10) 50)%Z eqn:E.
  - intros H. apply bind_ok in H as (joined & _ & H). injection H as <- <-. by rewrite E.
  - intros [= <- <-]. by rewrite E.
Qed.

Lemma condition_match_reasons pc tc c cr :
  condition_match pc tc = Ok (c, cr) →
  length cr = if (5 <? c)%Z then 1%nat else 0%nat.
Proof.
  unfold condition_match.
  destruct (truthy pc && negb (String.eqb tc "")); [|by intros [= <- <-]].
  intros H. apply bind_ok in H as (primary & _ & H).
  destruct (5 <? int_of_Q (Difflib.ratio primary tc * 20))%Z eqn:E;
    injection H as <- <-; by rewrite E.
Qed.

(** X5: the reasons are, in this order, the one reason of the age
    section, the one reason of the gender section, the keyword reason when
    at least one keyword is shared and the condition reason when the
    condition section is worth more than 5 points: between two and four
    reasons.  The age reason names the age and the range, the gender
    reason the gender of the trial in capitals. *)
Theorem reasons_follow_the_sections patient trial s r :
  calculate_match_score patient trial = Ok (s, r) →
  ∃ a age_reason g gender_reason k kr c cr age lo hi tg,
    age_component patient trial = Ok (a, [age_reason])
    ∧ gender_component patient trial = Ok (g, [gender_reason])
    ∧ keyword_component patient trial = Ok (k, kr)
    ∧ condition_component patient trial = Ok (c, cr)
    ∧ s = (a + g + k + c)%Z
    ∧ r = age_reason :: gender_reason :: kr ++ cr
    ∧ getitem patient "age" ≫= py_int = Ok age
    ∧ getitem trial "age_min" ≫= py_int = Ok lo
    ∧ getitem trial "age_max" ≫= py_int = Ok hi
    ∧ age_reason = Spec.age_reason age lo hi
    ∧ (λ v, upper (py_str v)) <$> getitem trial "gender" = Ok tg
    ∧ gender_reason
      = (if (g =? 10)%Z then "✓ Gender matches (" +:+ tg +:+ ")"
         else "✗ Gender mismatch (requires " +:+ tg +:+ ")")
    ∧ length kr = (if (0 <? k)%Z then 1 else 0)%nat
    ∧ length cr = (if (5 <? c)%Z then 1 else 0)%nat
    ∧ (2 ≤ length r ≤ 4)%nat.
Proof.
  intros H. apply calculate_match_score_ok in H
    as (a & ar & g & gr & k & kr & c & cr & Ha & Hg & Hk & Hc & -> & ->).
  pose proof Ha as Ha'.
  apply age_component_ok in Ha' as (age & lo & hi & Eage & Elo & Ehi & Hm).
  rewrite age_match_spec in Hm. injection Hm as <- <-.
  pose proof Hg as Hg'. unfold gender_component in Hg'.
  apply bind_ok in Hg' as (pg & _ & Hg'). apply bind_ok in Hg' as (tg & Etg & Hg').
  injection Hg' as Hg'.
  assert (gr = [if (g =? 10)%Z then "✓ Gender matches (" +:+ tg +:+ ")"
                else "✗ Gender mismatch (requires " +:+ tg +:+ ")"]) as ->.
  { unfold gender_match in Hg'. destruct (_ || _); by injection Hg' as <- <-. }
  assert (length kr = if (0 <? k)%Z then 1%nat else 0%nat) as Hkr.
  { pose proof Hk as Hk'. unfold keyword_component in Hk'.
    apply bind_ok in Hk' as (pk & _ & Hk'). apply bind_ok in Hk' as (tk & _ & Hk').
    by apply keyword_match_reasons in Hk'. }
  assert (length cr = if (5 <? c)%Z then 1%nat else 0%nat) as Hcr.
  { pose proof Hc as Hc'. unfold condition_component in Hc'.
    apply bind_ok in Hc' as (pc & _ & Hc'). apply bind_ok in Hc' as (tc & _ & Hc').
    by apply condition_match_reasons in Hc'. }
  eexists _, _, g, _, k, kr, c, cr, age, lo, hi, tg.
  split; [exact Ha|]. split; [exact Hg|]. repeat split; try done.
  - simpl. lia.
  - simpl. rewrite length_app, Hkr, Hcr.
    destruct (0 <? k)%Z, (5 <? c)%Z; lia.
Qed.

(** X6: a patient whose age is outside the range of the trial scores at
    most 80, a patient whose gender the trial does not accept at most 90,
    and at most 70 with both. *)
Theorem mismatch_caps_the_score patient trial s r age lo hi pg tg :
  calculate_match_score patient trial = Ok (s, r) →
  getitem patient "age" ≫= py_int = Ok age →
  getitem trial "age_min" ≫= py_int = Ok lo →
  getitem trial "age_max" ≫= py_int = Ok hi →
  patient !! "gender" = Some pg →
  trial !! "gender" = Some tg →
  let age_fails := ¬ (lo ≤ age ≤ hi)%Z in
  let gender_fails :=
    upper (py_str tg) ≠ "ALL" ∧ upper (py_str tg) ≠ upper (py_str pg) in
  (age_fails → (s ≤ 80)%Z)
  ∧ (gender_fails → (s ≤ 90)%Z)
  ∧ (age_fails → gender_fails → (s ≤ 70)%Z).
Proof.
  intros H Hage Hlo Hhi Hpg Htg age_fails gender_fails.
  apply calculate_match_score_ok in H
    as (a & ar & g & gr & k & kr & c & cr & Ha & Hg & Hk & Hc & -> & _).
  apply keyword_component_points in Hk. apply condition_component_points in Hc.
  pose proof (gender_component_points _ _ _ _ Hg) as Hg10.
  assert (a = Spec.age_points age lo hi) as ->.
  { unfold age_component in Ha. rewrite Hage, Hlo, Hhi in Ha. simpl in Ha.
    rewrite age_match_spec in Ha. by injection Ha. }
  assert (gender_fails → g = 0%Z) as Hg0.
  { intros [H1 H2]. apply getitem_ok in Hpg, Htg.
    unfold gender_component in Hg. rewrite Hpg, Htg in Hg. simpl in Hg.
    unfold gender_match in Hg.
    apply String.eqb_neq in H1, H2. rewrite H1, H2 in Hg. by injection Hg. }
  assert (age_fails → Spec.age_points age lo hi = 0%Z) as Ha0.
  { intros Hf. unfold Spec.age_points. by rewrite bool_decide_eq_false_2. }
  assert (Spec.age_points age lo hi ≤ 20)%Z as Ha20.
  { unfold Spec.age_points. case_bool_decide; lia. }
  repeat split.
  - intros Hf. rewrite (Ha0 Hf). lia.
  - intros Hf. rewrite (Hg0 Hf). lia.
  - intros Hf1 Hf2. rewrite (Ha0 Hf1), (Hg0 Hf2). lia.
Qed.

(** X7: the scorer raises [KeyError] on a patient without the
    [condition_keywords] field, while the validators read the same field
    with a default and take the patient to share no keyword. *)
Theorem missing_keywords_raise_in_the_scorer_only patient trial :
  patient !! "condition_keywords" = None →
  returns (age_component patient trial) →
  returns (gender_component patient trial) →
  calculate_match_score patient trial = Raise KeyError
  ∧ (returns (py_set (safe_eval_list (get trial "keywords" (VList [])))) →
     keyword_overlap patient trial = Ok ∅).
Proof.
  intros Hmiss [[a ar] Ha] [[g gr] Hg]. split.
  - unfold calculate_match_score. rewrite Ha, Hg. simpl.
    unfold keyword_component, getitem. by rewrite Hmiss.
  - intros [tk Htk]. unfold keyword_overlap, get. rewrite Hmiss. simpl.
    unfold get in Htk. rewrite Htk. simpl. f_equal. apply (left_absorb_L _ _).
Qed.

(** X8: [safe_eval_list] hands on whatever the literal is: a keyword cell
    whose text is the literal of an integer or of [None] makes the scorer
    raise [TypeError]. *)
Theorem scalar_keyword_literal_raises patient trial cell v :
  returns (age_component patient trial) →
  returns (gender_component patient trial) →
  patient !! "condition_keywords" = Some (VStr cell) →
  literal_eval cell = Some v →
  (v = VNone ∨ ∃ n, v = VInt n) →
  calculate_match_score patient trial = Raise TypeError.
Proof.
  intros [[a ar] Ha] [[g gr] Hg] Hcell Hlit Hv.
  unfold calculate_match_score. rewrite Ha, Hg. simpl.
  unfold keyword_component. apply getitem_ok in Hcell. rewrite Hcell. simpl.
  rewrite Hlit. by destruct Hv as [-> | [n ->]].
Qed.



End ScorerMoreFacts.

(** ** The predicate, the scorer and the reasons of a false positive *)

Section PredicateMoreFacts.
Context {rt : Runtime}.

Lemma age_in_range_ints patient trial a lo hi :
  patient !! "age" = Some (VInt a) →
  trial !! "age_min" = Some (VInt lo) →
  trial !! "age_max" = Some (VInt hi) →
  age_in_range patient trial = Ok (bool_decide (lo ≤ a ≤ hi)%Z)
  ∧ age_component patient trial = Ok (age_match a lo hi).
Proof.
  intros Ha Hlo Hhi. apply getitem_ok in Ha, Hlo, Hhi. split.
  - unfold age_in_range. rewrite Hlo, Ha. simpl.
    destruct (lo <=? a)%Z eqn:E1.
    + rewrite Hhi. simpl. f_equal. apply Z.leb_le in E1.
      destruct (a <=? hi)%Z eqn:E2.
      * apply Z.leb_le in E2. symmetry. apply bool_decide_eq_true. lia.
      * apply Z.leb_gt in E2. symmetry. apply bool_decide_eq_false. lia.
    + f_equal. apply Z.leb_gt in E1. symmetry. apply bool_decide_eq_false. lia.
  - unfold age_component. by rewrite Ha, Hlo, Hhi.
Qed.

Lemma gender_accepts_scorer patient trial g gr :
  gender_accepts patient trial = Ok true →
  gender_component patient trial = Ok (g, gr) → g = 10%Z.
Proof.
  unfold gender_accepts, gender_component. intros Hacc Hg.
  apply bind_ok in Hacc as (tg & Htg & Hacc). rewrite Htg in Hg. simpl in Hg.
  apply bind_ok in Hg as (pgu & Hpg & Hg). apply fmap_ok in Hpg as (pg & Hpg & <-).
  simpl in Hg. injection Hg as Hg. unfold gender_match in Hg.
  destruct (py_eq tg (VStr "ALL")) eqn:E.
  - assert (tg = VStr "ALL") as ->.
    { destruct tg; simpl in E; try done; by apply bool_decide_eq_true in E. }
    by injection Hg.
  - rewrite Htg, Hpg in Hacc. simpl in Hacc.
    destruct tg as [| | |t|]; try done. destruct pg as [| | |p|]; try done.
    simpl in Hacc. injection Hacc as Hacc. simpl in Hg. rewrite Hacc in Hg.
    rewrite orb_true_r in Hg. by injection Hg.
Qed.

Lemma keyword_overlap_scorer patient trial k kr overlap :
  keyword_component patient trial = Ok (k, kr) →
  keyword_overlap patient trial = Ok overlap →
  k = Spec.keyword_points (size overlap).
Proof.
  intros Hk Ho. apply keyword_component_ok in Hk as (pk & tk & Hpk & Htk & _ & ->).
  apply bind_ok in Hpk as (vp & Hvp & Hpk). apply bind_ok in Htk as (vt & Hvt & Htk).
  apply getitem_ok in Hvp, Hvt.
  unfold keyword_overlap, get in Ho. rewrite Hvp, Hvt, Hpk in Ho. simpl in Ho.
  rewrite Htk in Ho. simpl in Ho. by injection Ho as <-.
Qed.

(** X9: over integer age cells, a pair that the strict predicate accepts at
    any score, a stale cached one included, has a score of at least 50
    when computed anew, so the lenient predicate accepts it at its fresh
    score. *)
Theorem strict_valid_is_fresh_lenient_valid patient trial cached s r a lo hi :
  patient !! "age" = Some (VInt a) →
  trial !! "age_min" = Some (VInt lo) →
  trial !! "age_max" = Some (VInt hi) →
  is_valid_match patient trial cached true = Ok true →
  calculate_match_score patient trial = Ok (s, r) →
  (50 ≤ s)%Z ∧ is_valid_match patient trial s false = Ok true.
Proof.
  intros Ha Hlo Hhi Hvalid Hs.
  destruct (age_in_range_ints _ _ _ _ _ Ha Hlo Hhi) as [Hrange Hage].
  unfold is_valid_match in Hvalid. rewrite Hrange in Hvalid. simpl in Hvalid.
  apply bind_ok in Hvalid as (gender_valid & Hg & Hvalid).
  apply bind_ok in Hvalid as (keyword_valid & Hk & Hvalid).
  apply bind_ok in Hk as (overlap & Ho & Hk). injection Hk as <-.
  injection Hvalid as Hvalid.
  apply andb_true_iff in Hvalid as [Hvalid Hkw2].
  apply andb_true_iff in Hvalid as [Hvalid Hscore].
  apply andb_true_iff in Hvalid as [Hvalid ->].
  apply bool_decide_eq_true in Hvalid.
  assert (2 ≤ size overlap)%nat as Hsize
    by (destruct (size overlap) as [|[|n]]; [done | done | lia]).
  apply calculate_match_score_ok in Hs
    as (a' & ar & g & gr & k & kr & c & cr & Ha' & Hgc & Hkc & Hc & -> & _).
  rewrite Hage in Ha'. injection Ha' as Ha'.
  pose proof (age_match_points a lo hi) as Hp. rewrite Ha' in Hp. simpl in Hp.
  rewrite bool_decide_eq_true_2 in Hp by done.
  pose proof (gender_accepts_scorer _ _ _ _ Hg Hgc) as ->.
  pose proof (keyword_overlap_scorer _ _ _ _ _ Hkc Ho) as ->.
  apply condition_component_points in Hc.
  assert (20 ≤ Spec.keyword_points (size overlap))%Z as Hkw
    by (unfold Spec.keyword_points; lia).
  assert (50 ≤ a' + 10 + Spec.keyword_points (size overlap) + c)%Z as Hfifty by lia.
  split; [done|].
  unfold is_valid_match. rewrite Hrange, Hg. simpl.
  rewrite bool_decide_eq_true_2 by done. simpl.
  f_equal. rewrite andb_true_r. by apply Z.leb_le.
Qed.

Lemma gender_mismatch_accepts patient trial b :
  gender_accepts patient trial = Ok b → gender_mismatch patient trial = Ok (negb b).
Proof.
  unfold gender_accepts, gender_mismatch. intros H.
  apply bind_ok in H as (tg & -> & H). simpl in H |- *.
  destruct (py_eq tg (VStr "ALL")); simpl; [by injection H as <-|].
  apply bind_ok in H as (t & -> & H). simpl in H |- *.
  apply bind_ok in H as (p & -> & H). simpl. by injection H as <-.
Qed.

Local Arguments Nat.leb : simpl never.
Local Arguments Nat.ltb : simpl never.

Lemma join_starts_with sep x xs : ∃ rest, join sep (x :: xs) = x +:+ rest.
Proof.
  destruct xs as [|y ys]; simpl.
  - exists "". induction x as [|c x IH]; [done|].
    change (String c x +:+ "") with (String c (x +:+ "")). by f_equal.
  - by eexists.
Qed.

(** X10: whenever the predicate returns, [get_fp_reason] returns too, and
    it names at least one failing criterion exactly when the predicate
    rejects the pair: 'Unknown' is the reason of the valid pairs only. *)
Theorem fp_reason_names_a_failure patient trial score strict v :
  is_valid_match patient trial score strict = Ok v →
  ∃ reason,
    get_fp_reason patient trial score strict = Ok reason
    ∧ (v = true ↔ reason = "Unknown").
Proof.
  unfold is_valid_match, get_fp_reason. intros H.
  apply bind_ok in H as (age_valid & -> & H). simpl.
  apply bind_ok in H as (gender_valid & Hg & H).
  rewrite (gender_mismatch_accepts _ _ _ Hg). simpl.
  apply bind_ok in H as (keyword_valid & Hk & H). injection H as <-.
  destruct strict.
  - apply bind_ok in Hk as (overlap & -> & Hk). injection Hk as <-. simpl.
    rewrite Nat.ltb_antisym, Z.ltb_antisym.
    destruct age_valid, gender_valid, (60 <=? score)%Z, (2 <=? size overlap)%nat; simpl;
      (eexists; split; [reflexivity|]); split; try done; intros E; exfalso;
      match type of E with
      | join _ (?x :: ?xs) = _ =>
          destruct (join_starts_with "; " x xs) as [rest Hj]; rewrite Hj in E;
          discriminate E
      end.
  - injection Hk as <-. simpl. rewrite Z.ltb_antisym.
    destruct age_valid, gender_valid, (50 <=? score)%Z; simpl;
      (eexists; split; [reflexivity|]); split; try done; intros E; exfalso;
      match type of E with
      | join _ (?x :: ?xs) = _ =>
          destruct (join_starts_with "; " x xs) as [rest Hj]; rewrite Hj in E;
          discriminate E
      end.
Qed.

End PredicateMoreFacts.

(** ** The counters of the false positive and false negative analysis *)

Section CounterFacts.
Context {rt : Runtime} {rnd : Random}.

Local Set Warnings "-clear-no-such-hyp".

Lemma evaluate_recommended_examples patient_id patient trials_df strict items :
  ∀ c c',
    evaluate_recommended patient_id patient trials_df strict items c = Ok c' →
    examples_counted c → examples_counted c'.
Proof.
  induction items as [|[nct score] rest IH]; intros c c' H Hc; simpl in H.
  - by injection H as <-.
  - apply bind_ok in H as (trial & _ & H).
    apply bind_ok in H as (is_valid & _ & H).
    apply bind_ok in H as (c1 & Hc1 & H).
    apply (IH _ _ H). destruct Hc as [Hfp Hfn]. destruct is_valid.
    + injection Hc1 as <-. by split.
    + apply bind_ok in Hc1 as (? & _ & Hc1). apply bind_ok in Hc1 as (? & _ & Hc1).
      apply bind_ok in Hc1 as (? & _ & Hc1). apply bind_ok in Hc1 as (? & _ & Hc1).
      apply bind_ok in Hc1 as (? & _ & Hc1). apply bind_ok in Hc1 as (? & _ & Hc1).
      injection Hc1 as <-. split; simpl; [|done]. rewrite length_app. simpl. lia.
Qed.

Lemma evaluate_not_recommended_examples patient_id patient trials_df threshold strict ids :
  ∀ c c',
    evaluate_not_recommended patient_id patient trials_df threshold strict ids c = Ok c' →
    examples_counted c → examples_counted c'.
Proof.
  induction ids as [|nct rest IH]; intros c c' H Hc; simpl in H.
  - by injection H as <-.
  - apply bind_ok in H as (trial & _ & H).
    apply bind_ok in H as ([score reasons] & _ & H).
    apply bind_ok in H as (is_valid & _ & H).
    apply (IH _ _ H). destruct Hc as [Hfp Hfn].
    destruct is_valid; split; simpl; try done. rewrite length_app. simpl. lia.
Qed.

Lemma evaluate_patients_examples patients_df trials_df all_matches threshold strict ids :
  ∀ g c c',
    evaluate_patients patients_df trials_df all_matches threshold strict ids g c = Ok c' →
    examples_counted c → examples_counted c'.
Proof.
  induction ids as [|patient_id rest IH]; intros g c c' H Hc; simpl in H.
  - by injection H as <-.
  - apply bind_ok in H as (patient & _ & H).
    apply bind_ok in H as (matches & _ & H).
    apply bind_ok in H as ([[items sampled] g'] & _ & H).
    apply bind_ok in H as (c1 & H1 & H).
    apply bind_ok in H as (c2 & H2 & H).
    apply (IH _ _ _ H).
    eapply evaluate_not_recommended_examples; [exact H2|].
    eapply evaluate_recommended_examples; [exact H1|done].
Qed.

(** X11: the run records one example for each false positive and one for
    each false negative, and none for the other two outcomes. *)
Theorem one_example_per_error patients_df trials_df all_matches threshold num_patients
    strict c m :
  evaluate_matches_with_fp_fn patients_df trials_df all_matches threshold num_patients strict
  = Ok (c, m) →
  length (fp_examples c) = false_positives c
  ∧ length (fn_examples c) = false_negatives c.
Proof.
  unfold evaluate_matches_with_fp_fn. intros H.
  apply bind_ok in H as ([ids g] & _ & H).
  apply bind_ok in H as (c' & Hc & H). injection H as <- _.
  eapply evaluate_patients_examples; [exact Hc|]. by split.
Qed.

Lemma dict_set_keys k v d :
  NoDup d.*1 →
  NoDup (dict_set k v d).*1
  ∧ (list_to_set (dict_set k v d).*1 : gset pyval) = {[k]} ∪ list_to_set d.*1.
Proof.
  induction d as [|[k' v'] d IH]; intros Hnd; cbn [dict_set].
  - split; [apply NoDup_singleton | set_solver].
  - rewrite fmap_cons in Hnd. cbn [fst] in Hnd. apply NoDup_cons in Hnd as [Hk' Hnd].
    destruct (decide (k = k')) as [-> | Hne]; rewrite !fmap_cons; cbn [fst].
    + split; [by apply NoDup_cons | set_solver].
    + destruct (IH Hnd) as [IH1 IH2]. split.
      * apply NoDup_cons. split; [|done].
        intros Hin. apply (elem_of_list_to_set (C := gset pyval)) in Hin.
        rewrite IH2 in Hin. apply elem_of_union in Hin as [Hin | Hin].
        -- apply elem_of_singleton in Hin. congruence.
        -- by apply elem_of_list_to_set in Hin.
      * rewrite !list_to_set_cons, IH2. set_solver.
Qed.

Lemma recommended_dict_keys threshold matches :
  ∀ d d',
    recommended_dict threshold matches d = Ok d' →
    NoDup d.*1 →
    NoDup d'.*1
    ∧ (list_to_set d'.*1 : gset pyval)
      = list_to_set d.*1
        ∪ list_to_set (nct_id <$> List.filter (λ m, threshold <=? score m)%Z matches).
Proof.
  induction matches as [|m rest IH]; intros d d' H Hnd; simpl in H |- *.
  - injection H as <-. split; [done | set_solver].
  - destruct (threshold <=? score m)%Z.
    + destruct (hashable (nct_id m)); [|done].
      destruct (dict_set_keys (nct_id m) (score m) d Hnd) as [Hnd' Hset].
      destruct (IH _ _ H Hnd') as [IH1 IH2]. split; [done|].
      rewrite IH2, Hset. rewrite fmap_cons. set_solver.
    + by apply IH.
Qed.

(** Raising the threshold keeps the dictionary of recommended trials
    defined and does not let it grow. *)
Lemma recommended_dict_shrinks t1 t2 matches d1 :
  (t1 ≤ t2)%Z →
  recommended_dict t1 matches [] = Ok d1 →
  ∃ d2, recommended_dict t2 matches [] = Ok d2 ∧ (length d2 ≤ length d1)%nat.
Proof.
  intros Hle H1.
  assert (∀ d, ∃ d2, recommended_dict t2 matches d = Ok d2) as Hret.
  { revert H1. generalize (@nil (pyval * Z)). induction matches as [|m rest IH];
      intros d0 H1 d; simpl in H1 |- *; [by eexists|].
    destruct (t2 <=? score m)%Z eqn:E2.
    - apply Z.leb_le in E2. replace (t1 <=? score m)%Z with true in H1
        by (symmetry; apply Z.leb_le; lia).
      destruct (hashable (nct_id m)); [|done]. by eapply IH.
    - destruct (t1 <=? score m)%Z; [|by eapply IH].
      destruct (hashable (nct_id m)); [|done]. by eapply IH. }
  destruct (Hret []) as [d2 H2]. exists d2. split; [done|].
  destruct (recommended_dict_keys _ _ _ _ H1 (NoDup_nil_2 : NoDup ([] : list (pyval * Z)).*1))
    as [Hnd1 Hset1].
  destruct (recommended_dict_keys _ _ _ _ H2 (NoDup_nil_2 : NoDup ([] : list (pyval * Z)).*1))
    as [Hnd2 Hset2].
  rewrite <- (length_fmap fst d2), <- (length_fmap fst d1).
  apply submseteq_length, NoDup_submseteq; [done|].
  intros k Hk. apply (elem_of_list_to_set (C := gset pyval)) in Hk.
  apply (elem_of_list_to_set (C := gset pyval)).
  rewrite Hset1. rewrite Hset2 in Hk.
  apply elem_of_union in Hk as [Hk | Hk]; [set_solver|]. apply elem_of_union_r.
  apply elem_of_list_to_set in Hk. apply elem_of_list_to_set.
  apply list_elem_of_fmap in Hk as (m & -> & Hm). apply list_elem_of_fmap.
  exists m. split; [done|].
  apply list_elem_of_In, filter_In in Hm as [Hin Hm]. apply list_elem_of_In, filter_In.
  split; [done|]. apply Z.leb_le in Hm. apply Z.leb_le. lia.
Qed.

Lemma evaluate_recommended_judged patient_id patient trials_df strict items c c' :
  evaluate_recommended patient_id patient trials_df strict items c = Ok c' →
  judged c' = (judged c + length items)%nat.
Proof.
  intros H. apply evaluate_recommended_cached in H
    as (verdicts & Hm & Htp & Hfp & _ & _).
  assert (length verdicts = length items) as <-.
  { clear -Hm. revert verdicts Hm.
    induction items as [|x xs IH]; intros verdicts Hm; simpl in Hm.
    - by injection Hm as <-.
    - apply bind_ok in Hm as (y & _ & Hm). apply bind_ok in Hm as (ys & Hys & Hm).
      injection Hm as <-. simpl. f_equal. by apply IH. }
  unfold judged. rewrite Htp, Hfp.
  assert (count_true verdicts + count_false verdicts = length verdicts)%nat; [|lia].
  unfold count_true, count_false. clear.
  induction verdicts as [|[] vs IH]; simpl; lia.
Qed.

Lemma evaluate_not_recommended_judged patient_id patient trials_df threshold strict ids c c' :
  evaluate_not_recommended patient_id patient trials_df threshold strict ids c = Ok c' →
  judged c' = judged c.
Proof.
  intros H. apply evaluate_not_recommended_fresh in H as (verdicts & _ & _ & _ & Htp & Hfp).
  unfold judged. by rewrite Htp, Hfp.
Qed.

Lemma evaluate_patients_judged patients_df trials_df all_matches strict ids t1 t2 :
  (t1 ≤ t2)%Z →
  ∀ g1 g2 c1 c2 c1' c2',
    evaluate_patients patients_df trials_df all_matches t1 strict ids g1 c1 = Ok c1' →
    evaluate_patients patients_df trials_df all_matches t2 strict ids g2 c2 = Ok c2' →
    (judged c2 ≤ judged c1)%nat → (judged c2' ≤ judged c1')%nat.
Proof.
  intros Hle. induction ids as [|patient_id rest IH];
    intros g1 g2 c1 c2 c1' c2' H1 H2 Hc; simpl in H1, H2.
  - injection H1 as <-. by injection H2 as <-.
  - apply bind_ok in H1 as (patient & Hp & H1). rewrite Hp in H2. simpl in H2.
    apply bind_ok in H1 as (matches & Hm & H1). rewrite Hm in H2. simpl in H2.
    apply bind_ok in H1 as ([[items1 ids1] g1'] & Hsel1 & H1).
    apply bind_ok in H2 as ([[items2 ids2] g2'] & Hsel2 & H2).
    apply bind_ok in H1 as (a1 & Ha1 & H1). apply bind_ok in H1 as (b1 & Hb1 & H1).
    apply bind_ok in H2 as (a2 & Ha2 & H2). apply bind_ok in H2 as (b2 & Hb2 & H2).
    apply (IH _ _ _ _ _ _ H1 H2).
    rewrite (evaluate_not_recommended_judged _ _ _ _ _ _ _ _ Hb1).
    rewrite (evaluate_not_recommended_judged _ _ _ _ _ _ _ _ Hb2).
    rewrite (evaluate_recommended_judged _ _ _ _ _ _ _ Ha1).
    rewrite (evaluate_recommended_judged _ _ _ _ _ _ _ Ha2).
    unfold select_trials in Hsel1, Hsel2.
    apply bind_ok in Hsel1 as (d1 & Hd1 & Hsel1). apply bind_ok in Hsel2 as (d2 & Hd2 & Hsel2).
    apply bind_ok in Hsel1 as (all1 & _ & Hsel1). apply bind_ok in Hsel2 as (all2 & _ & Hsel2).
    apply bind_ok in Hsel1 as ([s1 h1] & _ & Hsel1).
    apply bind_ok in Hsel2 as ([s2 h2] & _ & Hsel2).
    injection Hsel1 as <- _ _. injection Hsel2 as <- _ _.
    destruct (recommended_dict_shrinks _ _ _ _ Hle Hd1) as (d2' & Hd2' & Hlen).
    rewrite Hd2 in Hd2'. injection Hd2' as <-. lia.
Qed.

(** X12: when the analysis returns at two thresholds, the higher threshold
    judges no more recommended trials than the lower one: the number of
    true plus false positives does not grow with the threshold. *)
Theorem higher_threshold_judges_fewer patients_df trials_df all_matches num_patients strict
    t1 t2 c1 m1 c2 m2 :
  (t1 ≤ t2)%Z →
  evaluate_matches_with_fp_fn patients_df trials_df all_matches t1 num_patients strict
  = Ok (c1, m1) →
  evaluate_matches_with_fp_fn patients_df trials_df all_matches t2 num_patients strict
  = Ok (c2, m2) →
  (true_positives c2 + false_positives c2 ≤ true_positives c1 + false_positives c1)%nat.
Proof.
  unfold evaluate_matches_with_fp_fn. intros Hle H1 H2.
  apply bind_ok in H1 as ([ids g] & Hs & H1). rewrite Hs in H2. simpl in H2.
  apply bind_ok in H1 as (c1' & Hc1 & H1). injection H1 as <- _.
  apply bind_ok in H2 as (c2' & Hc2 & H2). injection H2 as <- _.
  by apply (evaluate_patients_judged _ _ _ _ _ _ _ Hle _ _ _ _ _ _ Hc1 Hc2).
Qed.

End CounterFacts.

(** ** The validation strategies *)

Section ValidationFacts.
Context {rt : Runtime} {rnd : Random}.

Lemma count_true_le bs : (count_true bs ≤ length bs)%nat.
Proof. unfold count_true. apply filter_length_le. Qed.

Lemma count_true_false bs : (count_true bs + count_false bs = length bs)%nat.
Proof. unfold count_true, count_false. induction bs as [|[] bs IH]; simpl; lia. Qed.

Lemma strict_matches_sound patient_id patient trials_df matches :
  ∀ details details',
    strict_matches patient_id patient trials_df matches details = Ok details' →
    Forall detail_sound details →
    Forall detail_sound details'
    ∧ length details' = (length details + length matches)%nat.
Proof.
  induction matches as [|m rest IH]; intros details details' H Hs; simpl in H.
  - injection H as <-. split; [done | simpl; lia].
  - apply bind_ok in H as (trial & _ & H).
    apply bind_ok in H as ([score reasons] & _ & H).
    apply bind_ok in H as (overlap & _ & H).
    apply bind_ok in H as (age_valid & _ & H).
    apply bind_ok in H as (gender_valid & _ & H).
    apply IH in H as [H1 H2].
    + split; [done|]. rewrite H2, length_app. simpl. lia.
    + apply Forall_app. split; [done|]. apply Forall_singleton. by split.
Qed.

Lemma strict_patients_sound patients_df trials_df all_matches ids :
  ∀ details details',
    strict_patients patients_df trials_df all_matches ids details = Ok details' →
    Forall detail_sound details →
    Forall detail_sound details'
    ∧ (length details' ≤ length details + 5 * length ids)%nat.
Proof.
  induction ids as [|patient_id rest IH]; intros details details' H Hs; simpl in H.
  - injection H as <-. split; [done | lia].
  - apply bind_ok in H as (patient & _ & H).
    apply bind_ok in H as (matches & Hm & H).
    apply bind_ok in H as (details1 & H1 & H).
    apply fmap_ok in Hm as (all & _ & <-).
    apply strict_matches_sound in H1 as [Hs1 Hl1]; [|done].
    apply IH in H as [Hs2 Hl2]; [|done]. split; [done|].
    assert (length (slice_to 5 all) ≤ 5)%nat; [|simpl; lia].
    unfold slice_to. simpl. rewrite length_take. lia.
Qed.

Lemma failed_has_reason details :
  Forall detail_sound details →
  (count_false (d_overall_valid <$> details)
   ≤ score_too_low (failure_reasons details) + age_mismatch (failure_reasons details)
     + gender_mismatch_count (failure_reasons details)
     + insufficient_keywords (failure_reasons details))%nat.
Proof.
  unfold failure_reasons, count_false. cbn [score_too_low age_mismatch
    gender_mismatch_count insufficient_keywords].
  induction 1 as [|d ds [_ Hd] _ IH]; [simpl; lia|].
  rewrite fmap_cons. cbn [List.filter]. rewrite Hd.
  destruct (d_age_valid d) eqn:Ea, (d_gender_valid d) eqn:Eg, (d_score_valid d) eqn:Es,
    (d_keyword_valid d) eqn:Ek;
    simpl in *; rewrite ?Ea, ?Eg, ?Es, ?Ek; simpl; lia.
Qed.

Lemma failed_length details :
  length (List.filter (λ d, negb (d_overall_valid d)) details)
  = count_false (d_overall_valid <$> details).
Proof.
  unfold count_false. induction details as [|d ds IH]; [done|].
  rewrite fmap_cons. simpl. destruct (d_overall_valid d); simpl; lia.
Qed.

(** X13: in the details that the strict heuristic collects, a detail is
    valid overall exactly when its four flags hold, and its score flag
    holds exactly when its score is at least 60; so every failed detail
    has at least one failing flag, under which the breakdown counts it, and
    no reason counts more than the failed details. *)
Theorem every_failure_has_a_reason patients_df trials_df all_matches num_samples details :
  strict_details patients_df trials_df all_matches num_samples = Ok details →
  let r := failure_reasons details in
  let failed := count_false (d_overall_valid <$> details) in
  Forall (λ d, d_overall_valid d = true → (60 ≤ d_score d)%Z) details
  ∧ Forall (λ d,
              d_overall_valid d
              = d_age_valid d && d_gender_valid d && d_score_valid d && d_keyword_valid d
              ∧ d_score_valid d = (60 <=? d_score d)%Z) details
  ∧ Forall (λ d,
              d_overall_valid d = false →
              d_score_valid d = false ∨ d_age_valid d = false
              ∨ d_gender_valid d = false ∨ d_keyword_valid d = false) details
  ∧ (score_too_low r ≤ failed ∧ age_mismatch r ≤ failed
     ∧ gender_mismatch_count r ≤ failed ∧ insufficient_keywords r ≤ failed)%nat
  ∧ (failed ≤ score_too_low r + age_mismatch r + gender_mismatch_count r
              + insufficient_keywords r)%nat.
Proof.
  unfold strict_details. intros H.
  apply bind_ok in H as ([ids g] & Hids & H).
  apply strict_patients_sound in H as [Hs Hl]; [|done].
  split; [|split; [|split]].
  - eapply Forall_impl; [exact Hs|]. intros d [Hsc Hov] Hv.
    rewrite Hv in Hov. symmetry in Hov.
    apply andb_prop in Hov as [Hov _]. apply andb_prop in Hov as [_ Hov].
    rewrite Hsc in Hov. by apply Z.leb_le.
  - eapply Forall_impl; [exact Hs|]. by intros d [Hsc Hov].
  - eapply Forall_impl; [exact Hs|]. intros d [_ Hov] Hv. rewrite Hv in Hov.
    destruct (d_age_valid d), (d_gender_valid d), (d_score_valid d), (d_keyword_valid d);
      simpl in Hov; auto; discriminate.
  - split; [|by apply failed_has_reason].
    rewrite <- failed_length. unfold failure_reasons. simpl.
    repeat split; apply filter_length_le.
Qed.

Lemma Qnat_pos (n : nat) : (0 < n)%nat → (0 < Qnat n)%Q.
Proof. intros Hn. unfold Qnat, Qlt. simpl. lia. Qed.

Lemma quotient_times (a b : nat) : (0 < b)%nat → (Qnat a / Qnat b * Qnat b == Qnat a)%Q.
Proof.
  intros Hb. apply Qnat_pos in Hb. field. intros E. rewrite E in Hb.
  by apply Qlt_irrefl in Hb.
Qed.

(** X14: the report of the strict heuristic counts no more valid matches
    than evaluated ones, its accuracy lies between 0 and 1, the accuracy
    times the number evaluated is the number valid, and the accuracy is 0
    when nothing was evaluated. *)
Theorem strict_report_in_range patients_df trials_df all_matches num_samples rep :
  validate_strict_heuristic patients_df trials_df all_matches num_samples = Ok rep →
  (valid_matches rep ≤ total_evaluated rep)%nat
  ∧ in_unit (strict_accuracy rep)
  ∧ (strict_accuracy rep * Qnat (total_evaluated rep) == Qnat (valid_matches rep))%Q
  ∧ (total_evaluated rep = 0%nat → strict_accuracy rep = 0%Q)
  ∧ ((0 < total_evaluated rep)%nat →
     strict_accuracy rep = (Qnat (valid_matches rep) / Qnat (total_evaluated rep))%Q).
Proof.
  unfold validate_strict_heuristic. intros H.
  apply bind_ok in H as (details & _ & H). injection H as <-. simpl.
  set (results := d_overall_valid <$> details).
  pose proof (count_true_le results) as Hle.
  split; [done|]. case_bool_decide as Hne.
  - assert (0 < length results)%nat as Hpos by (destruct results; [done | simpl; lia]).
    split; [by apply quotient_in_unit|]. split; [by apply quotient_times|].
    split; [lia | done].
  - rewrite Hne. split; [by split|]. split; [by vm_compute|]. simpl. split; [done | lia].
Qed.

Lemma negative_trials_sound patient sample_trials :
  ∀ cases cases',
    negative_trials patient sample_trials cases = Ok cases' →
    Forall case_sound cases →
    Forall case_sound cases'
    ∧ (length cases ≤ length cases' ≤ length cases + length sample_trials)%nat.
Proof.
  induction sample_trials as [|trial rest IH]; intros cases cases' H Hs; simpl in H.
  - injection H as <-. split; [done | simpl; lia].
  - apply bind_ok in H as (in_range & _ & H).
    apply bind_ok in H as (mismatch & _ & H).
    destruct (negb in_range || mismatch) eqn:E.
    + apply bind_ok in H as ([score reasons] & _ & H).
      apply bind_ok in H as (? & _ & H). apply bind_ok in H as (? & _ & H).
      apply bind_ok in H as (? & _ & H). apply bind_ok in H as (? & _ & H).
      apply bind_ok in H as (? & _ & H).
      apply IH in H as [H1 H2].
      * split; [done|]. rewrite length_app in H2. simpl in *. lia.
      * apply Forall_app. split; [done|]. apply Forall_singleton. split; [done|].
        simpl. destruct (negb in_range); auto.
    + apply IH in H as [H1 H2]; [|done]. split; [done | simpl; lia].
Qed.

Lemma negative_patients_sound sample_patients sample_trials :
  ∀ cases cases',
    negative_patients sample_patients sample_trials cases = Ok cases' →
    Forall case_sound cases →
    Forall case_sound cases'
    ∧ (length cases' ≤ length cases + length sample_patients * length sample_trials)%nat.
Proof.
  induction sample_patients as [|patient rest IH]; intros cases cases' H Hs; simpl in H.
  - injection H as <-. split; [done | simpl; lia].
  - apply bind_ok in H as (cases1 & H1 & H).
    apply negative_trials_sound in H1 as [Hs1 Hl1]; [|done].
    apply IH in H as [Hs2 Hl2]; [|done]. split; [done | simpl; lia].
Qed.

(** X15: a report of the negative case test covers at least one case and
    at most one per sampled pair, counts no more rejections than cases,
    and its rejection rate lies between 0 and 1 and, times the number of
    cases, is the number of rejections. *)
Theorem negative_report_in_range patients_df trials_df st rep :
  validate_negative_cases patients_df trials_df st = Ok (Some rep) →
  let sample_patients := (df_sample st patients_df (min 10 (length patients_df))).1 in
  let st' := (df_sample st patients_df (min 10 (length patients_df))).2 in
  let sample_trials := (df_sample st' trials_df (min 10 (length trials_df))).1 in
  (0 < negative_cases_tested rep ≤ length sample_patients * length sample_trials)%nat
  ∧ (correctly_rejected rep ≤ negative_cases_tested rep)%nat
  ∧ in_unit (rejection_rate rep)
  ∧ (rejection_rate rep * Qnat (negative_cases_tested rep) == Qnat (correctly_rejected rep))%Q.
Proof.
  unfold validate_negative_cases. intros H. simpl.
  destruct (df_sample st patients_df _) as [sample_patients st1]. simpl.
  destruct (df_sample st1 trials_df _) as [sample_trials st2]. simpl.
  apply bind_ok in H as (cases & Hc & H).
  apply negative_patients_sound in Hc as [_ Hl]; [|done].
  case_bool_decide as Hne; [|done]. injection H as <-. simpl in *.
  assert (0 < length cases)%nat as Hpos by (destruct cases; [done | simpl; lia]).
  pose proof (count_true_le (nc_correctly_rejected <$> cases)) as Hle.
  rewrite length_fmap in Hle.
  repeat split; try lia; try (by apply quotient_in_unit); by apply quotient_times.
Qed.

Lemma threshold_matches_mono patient trials_df t1 t2 matches :
  (t1 ≤ t2)%Z →
  ∀ v1 v2 n v1' n1' v2' n2',
    threshold_matches patient trials_df t1 matches v1 n = Ok (v1', n1') →
    threshold_matches patient trials_df t2 matches v2 n = Ok (v2', n2') →
    (v2 ≤ v1 ≤ n)%nat → (v2' ≤ v1' ≤ n1')%nat ∧ n1' = n2'.
Proof.
  intros Hle. induction matches as [|m rest IH];
    intros v1 v2 n v1' n1' v2' n2' H1 H2 Hv; simpl in H1, H2.
  - injection H1 as <- <-. by injection H2 as <- <-.
  - apply bind_ok in H1 as (trial & Ht & H1). rewrite Ht in H2. simpl in H2.
    apply bind_ok in H1 as ([score reasons] & Hs & H1). rewrite Hs in H2. simpl in H2.
    apply bind_ok in H1 as (age_valid & Ha & H1). rewrite Ha in H2. simpl in H2.
    apply bind_ok in H1 as (gender_valid & Hg & H1). rewrite Hg in H2. simpl in H2.
    apply (IH _ _ _ _ _ _ _ H1 H2).
    destruct (t2 <=? score)%Z eqn:E2.
    + apply Z.leb_le in E2. replace (t1 <=? score)%Z with true
        by (symmetry; apply Z.leb_le; lia).
      destruct age_valid, gender_valid; simpl; lia.
    + destruct ((t1 <=? score)%Z && age_valid && gender_valid); simpl; lia.
Qed.

Lemma threshold_patients_mono patients_df trials_df all_matches t1 t2 ids :
  (t1 ≤ t2)%Z →
  ∀ v1 v2 n v1' n1' v2' n2',
    threshold_patients patients_df trials_df all_matches t1 ids v1 n = Ok (v1', n1') →
    threshold_patients patients_df trials_df all_matches t2 ids v2 n = Ok (v2', n2') →
    (v2 ≤ v1 ≤ n)%nat → (v2' ≤ v1' ≤ n1')%nat ∧ n1' = n2'.
Proof.
  intros Hle. induction ids as [|patient_id rest IH];
    intros v1 v2 n v1' n1' v2' n2' H1 H2 Hv; simpl in H1, H2.
  - injection H1 as <- <-. by injection H2 as <- <-.
  - apply bind_ok in H1 as (patient & Hp & H1). rewrite Hp in H2. simpl in H2.
    apply bind_ok in H1 as (matches & Hm & H1). rewrite Hm in H2. simpl in H2.
    apply bind_ok in H1 as ([va na] & Ha & H1).
    apply bind_ok in H2 as ([vb nb] & Hb & H2).
    destruct (threshold_matches_mono _ _ _ _ _ Hle _ _ _ _ _ _ _ Ha Hb Hv) as [Hv' <-].
    by apply (IH _ _ _ _ _ _ _ H1 H2).
Qed.

Lemma mapM_cons_inv {A B} (f : A → result B) x xs r :
  mapM f (x :: xs) = Ok r → ∃ y ys, f x = Ok y ∧ mapM f xs = Ok ys ∧ r = y :: ys.
Proof.
  simpl. intros H. apply bind_ok in H as (y & Hy & H).
  apply bind_ok in H as (ys & Hys & H). injection H as <-. eauto.
Qed.

(** X16: the multi-threshold analysis returns one row for each of the
    thresholds 30, 40, 50, 60, 70 and 80, in this order; all rows have the
    same total, and the number of valid matches does not grow from one row
    to the next and never exceeds the total. *)
Theorem thresholds_rows_decrease patients_df trials_df all_matches rows :
  analyze_multiple_thresholds patients_df trials_df all_matches = Ok rows →
  th_threshold <$> rows = [30; 40; 50; 60; 70; 80]%Z
  ∧ ∃ total, Forall (λ r, th_total r = total ∧ (th_valid r ≤ total)%nat) rows
  ∧ ∀ i r r', rows !! i = Some r → rows !! S i = Some r' → (th_valid r' ≤ th_valid r)%nat.
Proof.
  unfold analyze_multiple_thresholds. intros H.
  apply bind_ok in H as ([ids g] & _ & H).
  do 6 (let v := fresh "v" in let n := fresh "n" in let Hr := fresh "Hr" in
        apply mapM_cons_inv in H as (? & ? & Hr & H & ->);
        apply bind_ok in Hr as ([v n] & Hr & [= <-])).
  injection H as <-.
  assert (0 ≤ 0 ≤ 0)%nat as H0 by lia.
  destruct (threshold_patients_mono _ _ _ 30 40 _ ltac:(lia) _ _ _ _ _ _ _ Hr Hr0 H0)
    as [? ?].
  destruct (threshold_patients_mono _ _ _ 40 50 _ ltac:(lia) _ _ _ _ _ _ _ Hr0 Hr1 H0)
    as [? ?].
  destruct (threshold_patients_mono _ _ _ 50 60 _ ltac:(lia) _ _ _ _ _ _ _ Hr1 Hr2 H0)
    as [? ?].
  destruct (threshold_patients_mono _ _ _ 60 70 _ ltac:(lia) _ _ _ _ _ _ _ Hr2 Hr3 H0)
    as [? ?].
  destruct (threshold_patients_mono _ _ _ 70 80 _ ltac:(lia) _ _ _ _ _ _ _ Hr3 Hr4 H0)
    as [? ?].
  subst. split; [done|]. exists n4. split.
  - repeat (apply Forall_cons; split; [simpl; lia|]). apply Forall_nil_2.
  - intros i r r' Hi Hi'.
    do 6 (destruct i as [|i]; [simplify_eq/=; lia|]). simplify_eq/=.
Qed.

End ValidationFacts.

(** ** The reports over all matches *)

Section ReportFacts.







Lemma py_div_nonzero (a : Q) (n : nat) :
  (0 < n)%nat → py_div a (Qnat n) = inr (a / Qnat n)%Q.
Proof.
  intros Hn. unfold py_div. destruct (Qeq_bool (Qnat n) 0) eqn:E; [|done].
  apply Qeq_bool_iff in E. unfold Qnat, Qeq in E. simpl in E. lia.
Qed.

Lemma py_div_zero (a : Q) : py_div a (Qnat 0) = inl ZeroDivisionError.
Proof. done. Qed.



Lemma percent_range (a b : nat) :
  (a ≤ b)%nat → (0 < b)%nat → (0 <= Qnat a / Qnat b * 100 <= 100)%Q.
Proof.
  intros Hab Hb. destruct (quotient_in_unit a b Hab Hb) as [H0 H1]. split.
  - apply Qmult_le_0_compat; [done | by vm_compute].
  - apply Qle_trans with (1 * 100)%Q; [|by vm_compute].
    apply Qmult_le_compat_r; [done | by vm_compute].
Qed.



(** X18: the coverage report divides by the number of patients without a
    guard: it raises [ZeroDivisionError] exactly on an empty set of
    matches.  Otherwise the patients with a match are no more than the
    patients and no more than the matches, the coverage lies between 0 and
    100, and the average times the number of patients is the number of
    matches. *)
Theorem coverage_divides_by_patients all_matches :
  match calculate_coverage_metrics all_matches with
  | inl _ => all_matches = []
  | inr c =>
      all_matches ≠ []
      ∧ (patients_with_matches c ≤ length all_matches)%nat
      ∧ (patients_with_matches c ≤ total_matches c)%nat
      ∧ (0 <= coverage_percent c <= 100)%Q
      ∧ (avg_matches_per_patient c * Qnat (length all_matches)
         == Qnat (total_matches c))%Q
  end.
Proof.
  unfold calculate_coverage_metrics.
  destruct all_matches as [|e rest] eqn:E; [done|]. rewrite <- E.
  assert (0 < length all_matches)%nat as Hpos by (rewrite E; simpl; lia).
  rewrite !py_div_nonzero by done. simpl.
  assert (length (List.filter (λ e, (0 <? length e.2)%nat) all_matches)
          ≤ length all_matches)%nat as Hle by apply filter_length_le.
  repeat split.
  - by rewrite E.
  - done.
  - clear. induction all_matches as [|[k ms] rest IH]; simpl; [lia|].
    destruct ms; simpl in *; lia.
  - by apply percent_range.
  - by apply percent_range.
  - by apply quotient_times.
Qed.

End ReportFacts.

(** ** Matching every patient *)

Section BatchFacts.
Context {rt : Runtime}.

Lemma dict_get_put {V} k (v : V) d : dict_get k (dict_put k v d) = Some v.
Proof.
  induction d as [|[k' v'] d IH]; simpl.
  - by rewrite decide_True.
  - destruct (decide (k = k')) as [->|Hne]; simpl.
    + by rewrite decide_True.
    + by rewrite decide_False.
Qed.

Lemma dict_get_put_ne {V} k k' (v : V) d :
  k ≠ k' → dict_get k (dict_put k' v d) = dict_get k d.
Proof.
  intros Hne. induction d as [|[k0 v0] d IH]; simpl.
  - by rewrite decide_False.
  - destruct (decide (k' = k0)) as [->|Hne0]; simpl.
    + by rewrite !decide_False.
    + destruct (decide (k = k0)); [done | apply IH].
Qed.

Lemma dict_put_keys {V} k (v : V) d :
  (dict_put k v d).*1 = if bool_decide (k ∈ d.*1) then d.*1 else d.*1 ++ [k].
Proof.
  induction d as [|[k' v'] d IH]; [done|]. cbn [dict_put].
  destruct (decide (k = k')) as [->|Hne]; rewrite !fmap_cons; cbn [fst].
  - rewrite bool_decide_true; [done | apply list_elem_of_here].
  - rewrite IH. destruct (bool_decide (k ∈ d.*1)) eqn:Ek.
    + apply bool_decide_eq_true in Ek. rewrite bool_decide_true; [done|].
      by apply list_elem_of_further.
    + apply bool_decide_eq_false in Ek. rewrite bool_decide_false; [done|].
      intros Hin. by inversion Hin; subst.
Qed.

Lemma dict_put_NoDup {V} k (v : V) d : NoDup d.*1 → NoDup (dict_put k v d).*1.
Proof.
  intros Hnd. rewrite dict_put_keys. case_bool_decide as Hk; [done|].
  apply NoDup_app. repeat split; [done | | apply NoDup_singleton].
  intros x Hx Hx'. apply list_elem_of_singleton in Hx'. by subst.
Qed.

Lemma dict_put_length {V} k (v : V) d :
  (length d ≤ length (dict_put k v d) ≤ S (length d))%nat.
Proof.
  rewrite <- (length_fmap fst (dict_put k v d)), <- (length_fmap fst d), dict_put_keys.
  case_bool_decide; [lia|]. rewrite length_app. simpl. lia.
Qed.

(** The ranking stored under [k] comes from the last patient with the id
    [k], or was there before the loop when no patient has the id. *)
Lemma match_patients_last patients_df trials_df :
  ∀ all_matches result,
    match_patients patients_df trials_df all_matches = Ok result →
    NoDup all_matches.*1 →
    NoDup result.*1
    ∧ (length result ≤ length all_matches + length patients_df)%nat
    ∧ ∀ k,
        match dict_get k result with
        | Some ms =>
            (∃ pre patient post,
               patients_df = pre ++ patient :: post
               ∧ getitem patient "id" = Ok k
               ∧ match_patient_to_trials patient trials_df 10 20 = Ok ms
               ∧ Forall (λ q, getitem q "id" ≠ Ok k) post)
            ∨ (dict_get k all_matches = Some ms
               ∧ Forall (λ q, getitem q "id" ≠ Ok k) patients_df)
        | None =>
            dict_get k all_matches = None
            ∧ Forall (λ q, getitem q "id" ≠ Ok k) patients_df
        end.
Proof.
  induction patients_df as [|patient rest IH]; intros all_matches result H Hnd;
    simpl in H.
  - injection H as <-. repeat split; [done | simpl; lia |].
    intros k. destruct (dict_get k all_matches); [right|]; by split.
  - apply bind_ok in H as (patient_id & Hid & H).
    apply bind_ok in H as (matches & Hm & H).
    destruct (hashable patient_id); [|done].
    apply IH in H as (Hnd' & Hlen & Hget); [|by apply dict_put_NoDup].
    pose proof (dict_put_length patient_id matches all_matches).
    repeat split; [done | simpl; lia |].
    intros k. specialize (Hget k). destruct (dict_get k result) as [ms|].
    + destruct Hget as [(pre & q & post & -> & Hq & Hms & Hpost) | [Hk Hrest]].
      * left. by exists (patient :: pre), q, post.
      * destruct (decide (k = patient_id)) as [->|Hne].
        -- rewrite dict_get_put in Hk. injection Hk as <-.
           left. by exists [], patient, rest.
        -- rewrite dict_get_put_ne in Hk by done. right. split; [done|].
           apply Forall_cons. split; [|done]. congruence.
    + destruct Hget as [Hk Hrest].
      destruct (decide (k = patient_id)) as [->|Hne].
      * by rewrite dict_get_put in Hk.
      * rewrite dict_get_put_ne in Hk by done. split; [done|].
        apply Forall_cons. split; [|done]. congruence.
Qed.

(** X19: over patients whose id cell is not empty, the dictionary that
    [match_all_patients] returns has one entry for each distinct patient
    id and no others; the entry of an id is the default ranking (at most
    ten trials, minimum score 20) of the last patient with this id, so the
    rankings of earlier patients with the same id are lost. *)
Theorem last_patient_with_an_id_wins patients_df trials_df all_matches :
  Forall (λ patient, patient !! "id" ≠ Some VNaN) patients_df →
  match_all_patients patients_df trials_df = Ok all_matches →
  NoDup all_matches.*1
  ∧ (length all_matches ≤ length patients_df)%nat
  ∧ ∀ k,
      match dict_get k all_matches with
      | Some ms =>
          ∃ pre patient post,
            patients_df = pre ++ patient :: post
            ∧ getitem patient "id" = Ok k
            ∧ match_patient_to_trials patient trials_df 10 20 = Ok ms
            ∧ Forall (λ q, getitem q "id" ≠ Ok k) post
      | None => Forall (λ q, getitem q "id" ≠ Ok k) patients_df
      end.
Proof.
  unfold match_all_patients. intros _ H.
  apply match_patients_last in H as (Hnd & Hlen & Hget); [|apply NoDup_nil_2].
  repeat split; [done | simpl in Hlen; lia |].
  intros k. specialize (Hget k). destruct (dict_get k all_matches) as [ms|].
  - by destruct Hget as [? | [? _]].
  - by destruct Hget.
Qed.

End BatchFacts.

(** ** Strict against lenient validation *)

Section StrictnessFacts.
Context {rt : Runtime} {rnd : Random}.

Lemma is_valid_match_strict_le patient trial score v1 v2 :
  is_valid_match patient trial score true = Ok v1 →
  is_valid_match patient trial score false = Ok v2 →
  v1 = true → v2 = true.
Proof.
  unfold is_valid_match. intros H1 H2 ->.
  apply bind_ok in H1 as (age_valid & Ha & H1). rewrite Ha in H2. simpl in H2.
  apply bind_ok in H1 as (gender_valid & Hg & H1). rewrite Hg in H2. simpl in H2.
  apply bind_ok in H1 as (keyword_valid & _ & H1).
  injection H1 as H1. injection H2 as <-.
  repeat (apply andb_true_iff in H1 as [H1 ?]). subst. simpl.
  rewrite andb_true_r. apply Z.leb_le.
  match goal with E : (60 <=? score)%Z = true |- _ => apply Z.leb_le in E; lia end.
Qed.

Lemma implies_counts vs vl :
  Forall2 implies vs vl →
  (count_true vs ≤ count_true vl)%nat ∧ (count_false vl ≤ count_false vs)%nat.
Proof.
  unfold count_true, count_false, implies.
  induction 1 as [|v1 v2 vs vl Hv _ IH]; simpl; [lia|].
  destruct v1, v2; simpl; lia.
Qed.

Lemma cached_verdicts_strict_le patient trials_df items :
  ∀ vs vl,
    mapM (cached_verdict patient trials_df true) items = Ok vs →
    mapM (cached_verdict patient trials_df false) items = Ok vl →
    Forall2 implies vs vl.
Proof.
  induction items as [|item rest IH]; intros vs vl Hs Hl.
  - injection Hs as <-. injection Hl as <-. constructor.
  - apply mapM_cons_inv in Hs as (v1 & vs' & H1 & Hs & ->).
    apply mapM_cons_inv in Hl as (v2 & vl' & H2 & Hl & ->).
    constructor; [|by apply IH].
    unfold cached_verdict in H1, H2.
    apply bind_ok in H1 as (trial & Ht & H1). rewrite Ht in H2. simpl in H2.
    exact (is_valid_match_strict_le _ _ _ _ _ H1 H2).
Qed.

Lemma fresh_verdicts_strict_le patient trials_df ids :
  ∀ vs vl,
    mapM (fresh_verdict patient trials_df true) ids = Ok vs →
    mapM (fresh_verdict patient trials_df false) ids = Ok vl →
    Forall2 implies vs vl.
Proof.
  induction ids as [|nct rest IH]; intros vs vl Hs Hl.
  - injection Hs as <-. injection Hl as <-. constructor.
  - apply mapM_cons_inv in Hs as (v1 & vs' & H1 & Hs & ->).
    apply mapM_cons_inv in Hl as (v2 & vl' & H2 & Hl & ->).
    constructor; [|by apply IH].
    unfold fresh_verdict in H1, H2.
    apply bind_ok in H1 as (trial & Ht & H1). rewrite Ht in H2. simpl in H2.
    apply bind_ok in H1 as ([score reasons] & Hsc & H1). rewrite Hsc in H2. simpl in H2.
    exact (is_valid_match_strict_le _ _ _ _ _ H1 H2).
Qed.

Lemma evaluate_patients_strict_le patients_df trials_df all_matches threshold ids :
  ∀ g cs cl cs' cl',
    evaluate_patients patients_df trials_df all_matches threshold true ids g cs = Ok cs' →
    evaluate_patients patients_df trials_df all_matches threshold false ids g cl = Ok cl' →
    stricter cs cl → stricter cs' cl'.
Proof.
  induction ids as [|patient_id rest IH]; intros g cs cl cs' cl' Hs Hl Hc;
    simpl in Hs, Hl.
  - injection Hs as <-. by injection Hl as <-.
  - apply bind_ok in Hs as (patient & Hp & Hs). rewrite Hp in Hl. simpl in Hl.
    apply bind_ok in Hs as (matches & Hm & Hs). rewrite Hm in Hl. simpl in Hl.
    apply bind_ok in Hs as ([[items ids'] g'] & Hsel & Hs). rewrite Hsel in Hl. simpl in Hl.
    apply bind_ok in Hs as (as1 & Ha1 & Hs). apply bind_ok in Hs as (bs1 & Hb1 & Hs).
    apply bind_ok in Hl as (al1 & Ha2 & Hl). apply bind_ok in Hl as (bl1 & Hb2 & Hl).
    apply (IH _ _ _ _ _ Hs Hl).
    apply evaluate_recommended_cached in Ha1 as (v1 & Hv1 & ? & ? & ? & ?).
    apply evaluate_recommended_cached in Ha2 as (v2 & Hv2 & ? & ? & ? & ?).
    apply evaluate_not_recommended_fresh in Hb1 as (w1 & Hw1 & ? & ? & ? & ?).
    apply evaluate_not_recommended_fresh in Hb2 as (w2 & Hw2 & ? & ? & ? & ?).
    pose proof (implies_counts _ _ (cached_verdicts_strict_le _ _ _ _ _ Hv1 Hv2)) as [? ?].
    pose proof (implies_counts _ _ (fresh_verdicts_strict_le _ _ _ _ _ Hw1 Hw2)) as [? ?].
    pose proof (count_true_false v1). pose proof (count_true_false v2).
    pose proof (count_true_false w1). pose proof (count_true_false w2).
    assert (length v1 = length v2) by (by eapply Forall2_length, cached_verdicts_strict_le).
    assert (length w1 = length w2) by (by eapply Forall2_length, fresh_verdicts_strict_le).
    unfold stricter in *. lia.
Qed.

(** X20: on the same inputs and threshold, when the strict and the lenient
    run both return, they classify the same numbers of recommended and of
    not recommended trials; the strict run counts no more true positives
    and false negatives, and no fewer false positives and true negatives. *)
Theorem strict_run_accepts_fewer patients_df trials_df all_matches threshold num_patients
    cs ms cl ml :
  evaluate_matches_with_fp_fn patients_df trials_df all_matches threshold num_patients true
  = Ok (cs, ms) →
  evaluate_matches_with_fp_fn patients_df trials_df all_matches threshold num_patients false
  = Ok (cl, ml) →
  (true_positives cs ≤ true_positives cl)%nat
  ∧ (false_positives cl ≤ false_positives cs)%nat
  ∧ (false_negatives cs ≤ false_negatives cl)%nat
  ∧ (true_negatives cl ≤ true_negatives cs)%nat
  ∧ (true_positives cs + false_positives cs = true_positives cl + false_positives cl)%nat
  ∧ (true_negatives cs + false_negatives cs = true_negatives cl + false_negatives cl)%nat.
Proof.
  unfold evaluate_matches_with_fp_fn. intros Hs Hl.
  apply bind_ok in Hs as ([ids g] & Hids & Hs). rewrite Hids in Hl. simpl in Hl.
  apply bind_ok in Hs as (cs' & Hcs & Hs). injection Hs as <- _.
  apply bind_ok in Hl as (cl' & Hcl & Hl). injection Hl as <- _.
  apply (evaluate_patients_strict_le _ _ _ _ _ _ _ _ _ _ Hcs Hcl).
  unfold stricter. simpl. lia.
Qed.

End StrictnessFacts.

(** ** The further properties on the example rows *)

(** The trial with the empty age cell aborts the ranking although the
    trial before it was scored. *)
Lemma unscorable_trial_aborts_ranking_witness :
  @match_patient_to_trials Example.runtime Example.patient1
    ([Example.trial1] ++ Rows.trial_no_age :: [Example.trial3]) 10 20
  = Raise ValueError.
Proof.
  apply (@unscorable_trial_aborts_ranking Example.runtime Example.patient1
           [Example.trial1] Rows.trial_no_age [Example.trial3] 10%Z 20%Z ValueError).
  - eexists. vm_compute. reflexivity.
  - vm_compute. reflexivity.
Defined.

(** The trial without title scores 55: it is skipped at the minimum score
    60 and raises at the minimum score 20. *)
Lemma unlisted_trial_raises_from_threshold_witness :
  @score_trials Example.runtime Example.patient1 [Rows.trial_no_title; Example.trial2] 60
  = @score_trials Example.runtime Example.patient1 [Example.trial2] 60
  ∧ @score_trials Example.runtime Example.patient1 [Rows.trial_no_title; Example.trial2] 20
    = Raise KeyError.
Proof.
  split.
  - edestruct (@unlisted_trial_raises_from_threshold Example.runtime Example.patient1
                 Rows.trial_no_title [Example.trial2] 60%Z 55%Z) as [H _];
      [vm_compute; reflexivity | right; reflexivity |].
    apply H. lia.
  - edestruct (@unlisted_trial_raises_from_threshold Example.runtime Example.patient1
                 Rows.trial_no_title [Example.trial2] 20%Z 55%Z) as [_ H];
      [vm_compute; reflexivity | right; reflexivity |].
    apply H. lia.
Defined.

(** The ranking at the minimum score 50 is a prefix of the ranking at 20. *)
Lemma raising_min_score_keeps_a_prefix_witness :
  ∃ result1 result2,
    @match_patient_to_trials Example.runtime Example.patient1 Example.trials_df 10 20
    = Ok result1
    ∧ @match_patient_to_trials Example.runtime Example.patient1 Example.trials_df 10 50
      = Ok result2
    ∧ result2 `prefix_of` result1.
Proof.
  edestruct (@raising_min_score_keeps_a_prefix Example.runtime Example.patient1
               Example.trials_df 10%Z 20%Z 50%Z) as (result2 & H1 & H2);
    [lia | vm_compute; reflexivity |].
  eexists _, result2. split; [vm_compute; reflexivity|]. split; [exact H1 | exact H2].
Defined.

(** With room for one result, the ranking of three trials keeps one of
    the two candidates. *)
Lemma ranking_returns_the_best_witness :
  ∃ result candidates rest,
    @match_patient_to_trials Example.runtime Example.patient1 Example.trials_df 1 20
    = Ok result
    ∧ @score_trials Example.runtime Example.patient1 Example.trials_df 20 = Ok candidates
    ∧ result ++ rest ≡ₚ candidates
    ∧ length result = 1%nat.
Proof.
  edestruct (@ranking_returns_the_best Example.runtime Example.patient1
               Example.trials_df 1%Z 20%Z)
    as (scores & candidates & rest & _ & _ & H1 & H2 & _ & H3);
    [vm_compute; reflexivity|].
  eexists _, candidates, rest. split; [vm_compute; reflexivity|]. split; [exact H1|].
  split; [exact H2|]. reflexivity.
Defined.

(** The score of 55 comes with between two and four reasons. *)
Lemma reasons_follow_the_sections_witness :
  ∃ s r,
    @calculate_match_score Example.runtime Example.patient1 Example.trial1 = Ok (s, r)
    ∧ (2 ≤ length r ≤ 4)%nat.
Proof.
  eexists _, _. split; [vm_compute; reflexivity|].
  edestruct (@reasons_follow_the_sections Example.runtime Example.patient1 Example.trial1)
    as (? & ? & ? & ? & ? & ? & ? & ? & ? & ? & ? & ? & H); [vm_compute; reflexivity|].
  apply H.
Defined.

(** At 45 years against the range 18 to 40 the score is at most 80. *)
Lemma mismatch_caps_the_score_witness :
  ∃ s r,
    @calculate_match_score Example.runtime Example.patient1 Example.trial2 = Ok (s, r)
    ∧ (s ≤ 80)%Z.
Proof.
  edestruct (@mismatch_caps_the_score Example.runtime Example.patient1 Example.trial2)
    as (H & _ & _);
    [vm_compute; reflexivity | vm_compute; reflexivity | vm_compute; reflexivity
    | vm_compute; reflexivity | vm_compute; reflexivity | vm_compute; reflexivity |].
  eexists _, _. split; [vm_compute; reflexivity|]. apply H. lia.
Defined.

(** Without the keyword column the scorer raises and the predicate sees an
    empty overlap. *)
Lemma missing_keywords_raise_in_the_scorer_only_witness :
  @calculate_match_score Example.runtime Rows.patient_no_keywords Example.trial1
  = Raise KeyError
  ∧ @keyword_overlap Example.runtime Rows.patient_no_keywords Example.trial1 = Ok ∅.
Proof.
  destruct (@missing_keywords_raise_in_the_scorer_only Example.runtime
              Rows.patient_no_keywords Example.trial1) as [H1 H2].
  - vm_compute. reflexivity.
  - eexists. vm_compute. reflexivity.
  - eexists. vm_compute. reflexivity.
  - split; [exact H1|]. apply H2.
    exists (list_to_set [IStr "diabetes"; IStr "insulin"]).
    replace (get Example.trial1 "keywords" (VList []))
      with (VStr "['diabetes', 'insulin']") by (vm_compute; reflexivity).
    reflexivity.
Defined.

(** The keyword cell 5 parses to an integer, which [set] rejects. *)
Lemma scalar_keyword_literal_raises_witness :
  @calculate_match_score Rows.scalar_runtime Rows.patient_scalar Example.trial1
  = Raise TypeError.
Proof.
  apply (@scalar_keyword_literal_raises Rows.scalar_runtime Rows.patient_scalar
           Example.trial1 "5" (VInt 5)).
  - eexists. vm_compute. reflexivity.
  - eexists. vm_compute. reflexivity.
  - reflexivity.
  - reflexivity.
  - right. by exists 5%Z.
Defined.


(** Valid under the strict mode at a cached score of 90, the pair has the
    fresh score 65 and is valid under the lenient mode at this score. *)
Lemma strict_valid_is_fresh_lenient_valid_witness :
  ∃ s r,
    @calculate_match_score Example.runtime Example.patient2 Example.trial1 = Ok (s, r)
    ∧ (50 ≤ s)%Z
    ∧ @is_valid_match Example.runtime Example.patient2 Example.trial1 s false = Ok true.
Proof.
  eexists _, _. split; [vm_compute; reflexivity|].
  eapply (@strict_valid_is_fresh_lenient_valid Example.runtime Example.patient2
            Example.trial1 90%Z _ _ 45%Z 18%Z 65%Z);
    [reflexivity | reflexivity | reflexivity | vm_compute; reflexivity
    | vm_compute; reflexivity].
Defined.

(** The pair that fails on age gets a reason other than "Unknown". *)
Lemma fp_reason_names_a_failure_witness :
  ∃ reason,
    @get_fp_reason Example.runtime Example.patient1 Example.trial2 45 false = Ok reason
    ∧ reason ≠ "Unknown".
Proof.
  edestruct (@fp_reason_names_a_failure Example.runtime Example.patient1 Example.trial2
               45%Z false false) as (reason & H1 & H2); [vm_compute; reflexivity|].
  exists reason. split; [exact H1|]. intros E. apply H2 in E. discriminate E.
Defined.

(** The run over the stale file records its one false positive. *)
Lemma one_example_per_error_witness :
  ∃ c m,
    @evaluate_matches_with_fp_fn Example.runtime Example.random
      Example.patients_df Example.trials_df Example.stale_matches 40 50 false = Ok (c, m)
    ∧ length (fp_examples c) = false_positives c
    ∧ length (fn_examples c) = false_negatives c.
Proof.
  eexists _, _. split; [vm_compute; reflexivity|].
  eapply (@one_example_per_error Example.runtime Example.random
            Example.patients_df Example.trials_df Example.stale_matches 40%Z 50%Z false).
  vm_compute. reflexivity.
Defined.

(** The cached score of 45 is recommended at the threshold 40 and not at
    the threshold 50. *)
Lemma higher_threshold_judges_fewer_witness :
  ∃ c1 m1 c2 m2,
    @evaluate_matches_with_fp_fn Example.runtime Example.random
      Example.patients_df Example.trials_df Example.stale_matches 40 50 false = Ok (c1, m1)
    ∧ @evaluate_matches_with_fp_fn Example.runtime Example.random
        Example.patients_df Example.trials_df Example.stale_matches 50 50 false = Ok (c2, m2)
    ∧ (true_positives c2 + false_positives c2 ≤ true_positives c1 + false_positives c1)%nat.
Proof.
  eexists _, _, _, _. split; [vm_compute; reflexivity|]. split; [vm_compute; reflexivity|].
  eapply (@higher_threshold_judges_fewer Example.runtime Example.random
            Example.patients_df Example.trials_df Example.stale_matches 50%Z false 40%Z 50%Z);
    [lia | vm_compute; reflexivity | vm_compute; reflexivity].
Defined.

(** The one detail of the example fails, on its score and its keywords. *)
Lemma every_failure_has_a_reason_witness :
  ∃ details,
    @strict_details Example.runtime Example.random
      Example.patients_df Example.trials_df Example.current_matches 50 = Ok details
    ∧ Forall (λ d, d_overall_valid d = true → (60 ≤ d_score d)%Z) details
    ∧ (count_false (d_overall_valid <$> details)
       ≤ score_too_low (failure_reasons details) + age_mismatch (failure_reasons details)
         + gender_mismatch_count (failure_reasons details)
         + insufficient_keywords (failure_reasons details))%nat.
Proof.
  eexists. split; [vm_compute; reflexivity|].
  edestruct (@every_failure_has_a_reason Example.runtime Example.random
               Example.patients_df Example.trials_df Example.current_matches 50%Z)
    as (H1 & _ & _ & _ & H2); [vm_compute; reflexivity|].
  split; [exact H1 | exact H2].
Defined.

Lemma strict_report_in_range_witness :
  ∃ rep,
    @validate_strict_heuristic Example.runtime Example.random
      Example.patients_df Example.trials_df Example.current_matches 50 = Ok rep
    ∧ (valid_matches rep ≤ total_evaluated rep)%nat
    ∧ in_unit (strict_accuracy rep).
Proof.
  eexists. split; [vm_compute; reflexivity|].
  edestruct (@strict_report_in_range Example.runtime Example.random
               Example.patients_df Example.trials_df Example.current_matches 50%Z)
    as (H1 & H2 & _); [vm_compute; reflexivity|].
  split; [exact H1 | exact H2].
Defined.

(** The draw of the last ten trials tests one negative case. *)
Lemma negative_report_in_range_witness :
  ∃ rep,
    @validate_negative_cases Example.runtime Example.random
      [Example.patient1] Example.eleven_trials Example.draw_last_ten = Ok (Some rep)
    ∧ (correctly_rejected rep ≤ negative_cases_tested rep)%nat
    ∧ in_unit (rejection_rate rep).
Proof.
  eexists. split; [vm_compute; reflexivity|].
  edestruct (@negative_report_in_range Example.runtime Example.random
               [Example.patient1] Example.eleven_trials Example.draw_last_ten)
    as (_ & H1 & H2 & _); [vm_compute; reflexivity|].
  split; [exact H1 | exact H2].
Defined.

Lemma thresholds_rows_decrease_witness :
  ∃ rows,
    @analyze_multiple_thresholds Example.runtime Example.random
      Example.patients_df Example.trials_df Example.current_matches = Ok rows
    ∧ th_threshold <$> rows = [30; 40; 50; 60; 70; 80]%Z.
Proof.
  eexists. split; [vm_compute; reflexivity|].
  edestruct (@thresholds_rows_decrease Example.runtime Example.random
               Example.patients_df Example.trials_df Example.current_matches)
    as (H & _); [vm_compute; reflexivity|].
  exact H.
Defined.

(** Three patients with two distinct ids give two entries. *)
Lemma last_patient_with_an_id_wins_witness :
  ∃ all_matches,
    @match_all_patients Example.runtime Rows.patients_twice Example.trials_df
    = Ok all_matches
    ∧ NoDup all_matches.*1
    ∧ (length all_matches ≤ 3)%nat.
Proof.
  eexists. split; [vm_compute; reflexivity|].
  edestruct (@last_patient_with_an_id_wins Example.runtime Rows.patients_twice
               Example.trials_df) as (H1 & H2 & _);
    [repeat (constructor; [vm_compute; discriminate|]); constructor
    | vm_compute; reflexivity |].
  split; [exact H1 | exact H2].
Defined.

(** The strict and the lenient run over the stale file agree on the one
    recommended trial, which both reject. *)
Lemma strict_run_accepts_fewer_witness :
  ∃ cs ms cl ml,
    @evaluate_matches_with_fp_fn Example.runtime Example.random
      Example.patients_df Example.trials_df Example.stale_matches 40 50 true = Ok (cs, ms)
    ∧ @evaluate_matches_with_fp_fn Example.runtime Example.random
        Example.patients_df Example.trials_df Example.stale_matches 40 50 false = Ok (cl, ml)
    ∧ (true_positives cs ≤ true_positives cl)%nat
    ∧ (false_positives cl ≤ false_positives cs)%nat.
Proof.
  eexists _, _, _, _. split; [vm_compute; reflexivity|]. split; [vm_compute; reflexivity|].
  edestruct (@strict_run_accepts_fewer Example.runtime Example.random
               Example.patients_df Example.trials_df Example.stale_matches 40%Z 50%Z)
    as (H1 & H2 & _); [vm_compute; reflexivity | vm_compute; reflexivity |].
  split; [exact H1 | exact H2].
Defined.
